(** * A shallow embedding of parts of libgav1: motion-vector prediction,
      the post-filter (deblock, CDEF, super-resolution, loop restoration)
      and the output-layer ordering of the decoder. *)

From Stdlib Require Import ZArith Lia Bool List Permutation.
From Stdlib Require Import Sorting.Sorted.
Import ListNotations.
Open Scope Z_scope.

(** ** Machine integers *)

(** Narrowing of an [int] to [int16_t] (two's complement wrap-around). *)
Definition to_int16 (z : Z) : Z := ((z + 32768) mod 65536) - 32768.

Definition is_int16 (z : Z) : bool := (-32768 <=? z) && (z <=? 32767).

(** Checks a boolean property on every value of [lo, lo + n). *)
Fixpoint all_from (f : Z -> bool) (lo : Z) (n : nat) : bool :=
  match n with
  | O => true
  | S n' => f lo && all_from f (lo + 1) n'
  end.

(** Checks a boolean property on every [int16_t]. *)
Abbreviation all_int16 f := (all_from f (-32768) (Z.to_nat 65536)).

(** ** Motion vectors (src/motion_vector.cc) *)

Module MotionVectorPrediction.

(** [MotionVector]: two [int16_t] components, [mv[0]] (row) and [mv[1]]
    (column). *)
Record MotionVector := mkMv { mv_row : Z; mv_col : Z }.

Definition mv_eqb (a b : MotionVector) : bool :=
  (mv_row a =? mv_row b) && (mv_col a =? mv_col b).

Definition zero_mv : MotionVector := mkMv 0 0.

(** The frame-header fields read by [LowerMvPrecision]. *)
Record FrameHeader := mkFrameHeader {
  allow_high_precision_mv : bool;
  force_integer_mv : Z
}.

(** Modelled from the spec: [ApplySign] (src/utils/common.h, not among
    the sources) reapplies the sign [sign] (0 or -1) to the magnitude
    [value], as the spec's "snap to a multiple-of-8 magnitude ... with sign
    reapplied" says; it is written with the XOR-and-subtract idiom that the
    comment above [MotionFieldProjection] in motion_vector.cc attributes
    to it. *)
Definition ApplySign (value sign : Z) : Z := Z.lxor value sign - sign.

(** One component in the [force_integer_mv != 0] branch:
    [value = (abs(mv) + 3) & ~7; sign = mv >> 15; mv = ApplySign(value, sign)],
    stored back into an [int16_t]. *)
Definition lower_integer_component (mv : Z) : Z :=
  let value := Z.land (Z.abs mv + 3) (Z.lnot 7) in
  let sign := Z.shiftr mv 15 in
  to_int16 (ApplySign value sign).

(** One component in the other branch:
    [if ((mv & 1) != 0) mv -= (mv >> 15) | 1;]. *)
Definition lower_odd_component (mv : Z) : Z :=
  if negb (Z.land mv 1 =? 0)
  then to_int16 (mv - Z.lor (Z.shiftr mv 15) 1)
  else mv.

(** [LowerMvPrecision] on one component. *)
Definition LowerMvPrecisionComponent (fh : FrameHeader) (mv : Z) : Z :=
  if allow_high_precision_mv fh then mv
  else if negb (force_integer_mv fh =? 0) then lower_integer_component mv
  else lower_odd_component mv.

(** [LowerMvPrecision(block, mvs)]: both components of [*mvs]. *)
Definition LowerMvPrecision (fh : FrameHeader) (m : MotionVector)
  : MotionVector :=
  mkMv (LowerMvPrecisionComponent fh (mv_row m))
       (LowerMvPrecisionComponent fh (mv_col m)).

Definition is_int16_mv (m : MotionVector) : bool :=
  is_int16 (mv_row m) && is_int16 (mv_col m).

(** A component value on which a second [LowerMvPrecision] changes nothing
    (used to decide idempotence over all [int16_t] values). *)
Definition lower_stable (f : Z -> Z) (z : Z) : bool :=
  (f (f z) =? f z) && is_int16 (f z).

(** ** [SortWeightIndexStack] *)

(** [DescendingOrderTwo(&a, &b)]: swap when [a < b]. *)
Definition DescendingOrderTwo (a b : Z) : Z * Z :=
  if a <? b then (b, a) else (a, b).

(** [CompareCandidateMotionVectors(lhs, rhs)]: [lhs > rhs]. *)
Definition CompareCandidateMotionVectors (lhs rhs : Z) : bool := lhs >? rhs.

(** The [size <= 3] comparison network of [SortWeightIndexStack], applied
    to the first [size] entries of the array. *)
Definition sort_small (size : Z) (stack : list Z) : list Z :=
  match stack with
  | w0 :: w1 :: rest =>
      let '(w0, w1) := DescendingOrderTwo w0 w1 in
      if size =? 3 then
        match rest with
        | w2 :: rest' =>
            let '(w1, w2) := DescendingOrderTwo w1 w2 in
            let '(w0, w1) := DescendingOrderTwo w0 w1 in
            w0 :: w1 :: w2 :: rest'
        | [] => w0 :: w1 :: rest
        end
      else w0 :: w1 :: rest
  | _ => stack
  end.

(** Insertion with a strict-weak-order comparator [comp]: the new element
    goes before the first element it is [comp]-less than. *)
Fixpoint insert_by (comp : Z -> Z -> bool) (x : Z) (l : list Z) : list Z :=
  match l with
  | [] => [x]
  | y :: l' => if comp x y then x :: y :: l' else y :: insert_by comp x l'
  end.

Fixpoint sort_by (comp : Z -> Z -> bool) (l : list Z) : list Z :=
  match l with
  | [] => []
  | x :: l' => insert_by comp x (sort_by comp l')
  end.

(** The generic path: [std::sort(&stack[0], &stack[size],
    CompareCandidateMotionVectors)], with [std::sort] taken as a sort that
    returns the [comp]-ordered permutation of the range (insertion sort
    here). *)
Definition sort_generic (size : Z) (stack : list Z) : list Z :=
  let n := Z.to_nat size in
  sort_by CompareCandidateMotionVectors (firstn n stack) ++ skipn n stack.

(** [SortWeightIndexStack(size, weight_index_stack)]. *)
Definition SortWeightIndexStack (size : Z) (stack : list Z) : list Z :=
  if size <=? 1 then stack
  else if size <=? 3 then sort_small size stack
  else sort_generic size stack.

End MotionVectorPrediction.

(** ** Self-guided restoration weights
      (src/dsp/x86/loop_restoration_10bit_sse4.cc, [BoxFilterProcess]) *)

Module SelfGuided.

Definition kSgrProjPrecisionBits : Z := 7.

(** [w0], [w1] from [sgr_proj_info.multiplier], and
    [const int16_t w2 = (1 << kSgrProjPrecisionBits) - w0 - w1;]. *)
Definition box_filter_weights (multiplier0 multiplier1 : Z) : Z * Z * Z :=
  let w0 := to_int16 multiplier0 in
  let w1 := to_int16 multiplier1 in
  let w2 := to_int16 (Z.shiftl 1 kSgrProjPrecisionBits - w0 - w1) in
  (w0, w1, w2).

End SelfGuided.

(** ** The candidate stack of [FindMvStack] (src/motion_vector.cc) *)

Module MvStack.
Import MotionVectorPrediction.

(** Modelled from the spec: [kMaxRefMvStackSize] (src/utils/constants.h,
    not among the sources), the 8-slot capacity of [ref_mv_stack]. *)
Definition kMaxRefMvStackSize : Z := 8.

Definition kReferenceFrameNone : Z := -1.
Definition kReferenceFrameIntra : Z := 0.

(** [CandidateMotionVector]: [mv[0]] and [mv[1]]. *)
Record CandidateMotionVector := mkCand { cand0 : MotionVector; cand1 : MotionVector }.

(** [operator==] of [CandidateMotionVector]: both vectors equal. *)
Definition cand_eqb (a b : CandidateMotionVector) : bool :=
  mv_eqb (cand0 a) (cand0 b) && mv_eqb (cand1 a) (cand1 b).

(** The part of [PredictionParameters] written by [FindMvStack], together
    with the local [num_mv_found]. [stack_oob] records a write to
    [ref_mv_stack] outside its [kMaxRefMvStackSize] entries. *)
Record MvState := mkMvState {
  num_mv_found : Z;
  ref_mv_stack : list CandidateMotionVector;
  weight_index_stack : list Z;
  stack_oob : bool
}.

(** [ref_mv_stack[i] = c]. *)
Definition store_candidate (st : MvState) (i : Z) (c : CandidateMotionVector)
  : MvState :=
  if (0 <=? i) && (i <? Z.of_nat (length (ref_mv_stack st))) then
    mkMvState (num_mv_found st)
      (firstn (Z.to_nat i) (ref_mv_stack st) ++ c
         :: skipn (S (Z.to_nat i)) (ref_mv_stack st))
      (weight_index_stack st) (stack_oob st)
  else
    mkMvState (num_mv_found st) (ref_mv_stack st) (weight_index_stack st) true.

(** [ref_mv_stack[i]], with a zero candidate past the end. *)
Definition stack_at (st : MvState) (i : Z) : CandidateMotionVector :=
  nth (Z.to_nat i) (ref_mv_stack st) (mkCand zero_mv zero_mv).

Definition set_num_mv_found (st : MvState) (n : Z) : MvState :=
  mkMvState n (ref_mv_stack st) (weight_index_stack st) (stack_oob st).

(** [std::find_if(ref_mv_stack, ref_mv_stack + n, p)] as an index; [n] when
    nothing matches. *)
Fixpoint find_index (p : CandidateMotionVector -> bool)
  (l : list CandidateMotionVector) (n : nat) : nat :=
  match n, l with
  | O, _ => O
  | S n', [] => O
  | S n', x :: l' => if p x then O else S (find_index p l' n')
  end.

(** The entry points of [PredictionParameters] that update
    [weight_index_stack] are not among the sources; they are parameters
    of the model: [SetWeightIndexStackEntry(index, weight)] and
    [IncreaseWeight(index, weight)]. *)
Section WithWeights.
Variable SetWeightIndexStackEntry : list Z -> Z -> Z -> list Z.
Variable IncreaseWeight : list Z -> Z -> Z -> list Z.

Definition set_weight (st : MvState) (i w : Z) : MvState :=
  mkMvState (num_mv_found st) (ref_mv_stack st)
    (SetWeightIndexStackEntry (weight_index_stack st) i w) (stack_oob st).

Definition increase_weight (st : MvState) (i w : Z) : MvState :=
  mkMvState (num_mv_found st) (ref_mv_stack st)
    (IncreaseWeight (weight_index_stack st) i w) (stack_oob st).

(** The tail shared by [SearchStack] and [AddTemporalReferenceMvCandidate]:
    look the candidate up among the first [*num_mv_found] entries (both
    vectors when [is_compound], [mv[0]] only otherwise); on a hit increase
    that entry's weight; otherwise, unless the stack is full, append the
    candidate with weight [weight]. In the single case the candidate's
    [mv[1]] is the zero vector, as both callers build it. *)
Definition add_ref_mv_candidate (is_compound : bool)
  (candidate_mv : CandidateMotionVector) (weight : Z) (st : MvState)
  : MvState :=
  let n := num_mv_found st in
  let same (ref_mv : CandidateMotionVector) :=
    if is_compound then cand_eqb ref_mv candidate_mv
    else mv_eqb (cand0 ref_mv) (cand0 candidate_mv) in
  let idx := find_index same (ref_mv_stack st) (Z.to_nat n) in
  if negb (Z.of_nat idx =? n) then increase_weight st (Z.of_nat idx) weight
  else if n >=? kMaxRefMvStackSize then st
  else
    let st1 := store_candidate st n candidate_mv in
    let st2 := set_weight st1 n weight in
    set_num_mv_found st2 (n + 1).

(** A run of candidate insertions, in scan order. *)
Fixpoint add_ref_mv_candidates (is_compound : bool)
  (cands : list (CandidateMotionVector * Z)) (st : MvState) : MvState :=
  match cands with
  | [] => st
  | (c, w) :: rest => add_ref_mv_candidates is_compound rest
                        (add_ref_mv_candidate is_compound c w st)
  end.

(** What [ExtraSearch] reads from one neighbouring block:
    [bp.reference_frame[0..1]] and [bp.mv.mv[0..1]]. *)
Record ExtraNeighbor := mkNeighbor {
  nb_ref0 : Z; nb_ref1 : Z; nb_mv0 : MotionVector; nb_mv1 : MotionVector
}.

(** The block's own data used by [ExtraSearch]:
    [block.bp->reference_frame[0..1]], [reference_frame_sign_bias] and
    [global_mv[0..1]]. *)
Record ExtraContext := mkExtraContext {
  block_ref0 : Z; block_ref1 : Z;
  sign_bias : Z -> bool;
  global_mv0 : MotionVector; global_mv1 : MotionVector
}.

(** [candidate_mv.mv[k] *= -1] on the [int16_t] components. *)
Definition negate_mv (m : MotionVector) : MotionVector :=
  mkMv (to_int16 (- mv_row m)) (to_int16 (- mv_col m)).

Definition nb_ref (nb : ExtraNeighbor) (i : nat) : Z :=
  if Nat.eqb i 0 then nb_ref0 nb else nb_ref1 nb.
Definition nb_mv (nb : ExtraNeighbor) (i : nat) : MotionVector :=
  if Nat.eqb i 0 then nb_mv0 nb else nb_mv1 nb.
Definition block_ref (ctx : ExtraContext) (j : nat) : Z :=
  if Nat.eqb j 0 then block_ref0 ctx else block_ref1 ctx.

(** One iteration ([i]) of the loop of [AddExtraSingleMvCandidate]. *)
Definition extra_single_step (ctx : ExtraContext) (nb : ExtraNeighbor)
  (i : nat) (st : MvState) : MvState :=
  let candidate_reference_frame := nb_ref nb i in
  if candidate_reference_frame <=? kReferenceFrameIntra then st
  else
    let m := nb_mv nb i in
    let candidate_mv :=
      if Bool.eqb (sign_bias ctx candidate_reference_frame)
                  (sign_bias ctx (block_ref0 ctx))
      then m else negate_mv m in
    let n := num_mv_found st in
    if (negb (n =? 0) && mv_eqb (cand0 (stack_at st 0)) candidate_mv)
       || ((n =? 2) && mv_eqb (cand0 (stack_at st 1)) candidate_mv)
    then st
    else
      let st1 := store_candidate st n (mkCand candidate_mv zero_mv) in
      let st2 := set_weight st1 n 0 in
      set_num_mv_found st2 (n + 1).

(** [AddExtraSingleMvCandidate]. *)
Definition AddExtraSingleMvCandidate (ctx : ExtraContext) (nb : ExtraNeighbor)
  (st : MvState) : MvState :=
  extra_single_step ctx nb 1 (extra_single_step ctx nb 0 st).

(** One pass of the single-prediction neighbour loop of [ExtraSearch]:
    [AddExtraSingleMvCandidate] per scanned neighbour, leaving the loop
    once [*num_mv_found >= 2]. *)
Fixpoint extra_single_pass (ctx : ExtraContext) (nbs : list ExtraNeighbor)
  (st : MvState) : MvState :=
  match nbs with
  | [] => st
  | nb :: rest =>
      let st' := AddExtraSingleMvCandidate ctx nb st in
      if num_mv_found st' >=? 2 then st' else extra_single_pass ctx rest st'
  end.

(** The accumulators of the compound search: [ref_id[j]] and [ref_diff[j]]
    with their counts as list lengths. *)
Record CompoundAcc := mkAcc {
  ref_id0 : list MotionVector; ref_id1 : list MotionVector;
  ref_diff0 : list MotionVector; ref_diff1 : list MotionVector
}.

Definition acc_id (a : CompoundAcc) (j : nat) : list MotionVector :=
  if Nat.eqb j 0 then ref_id0 a else ref_id1 a.
Definition acc_diff (a : CompoundAcc) (j : nat) : list MotionVector :=
  if Nat.eqb j 0 then ref_diff0 a else ref_diff1 a.
Definition acc_set (a : CompoundAcc) (j : nat) (ids diffs : list MotionVector)
  : CompoundAcc :=
  if Nat.eqb j 0 then mkAcc ids (ref_id1 a) diffs (ref_diff1 a)
  else mkAcc (ref_id0 a) ids (ref_diff0 a) diffs.

(** The body of the inner loop ([j]) of [AddExtraCompoundMvCandidate]. *)
Definition extra_compound_inner (ctx : ExtraContext) (nb : ExtraNeighbor)
  (i j : nat) (a : CompoundAcc) : CompoundAcc :=
  let candidate_reference_frame := nb_ref nb i in
  let candidate_mv := nb_mv nb i in
  let block_reference_frame := block_ref ctx j in
  let ids := acc_id a j in
  let diffs := acc_diff a j in
  if (candidate_reference_frame =? block_reference_frame)
     && (Z.of_nat (length ids) <? 2)
  then acc_set a j (ids ++ [candidate_mv]) diffs
  else if Z.of_nat (length diffs) <? 2 then
    let m := if Bool.eqb (sign_bias ctx candidate_reference_frame)
                         (sign_bias ctx block_reference_frame)
             then candidate_mv else negate_mv candidate_mv in
    acc_set a j ids (diffs ++ [m])
  else a.

Definition extra_compound_outer (ctx : ExtraContext) (nb : ExtraNeighbor)
  (i : nat) (a : CompoundAcc) : CompoundAcc :=
  if nb_ref nb i <=? kReferenceFrameIntra then a
  else extra_compound_inner ctx nb i 1 (extra_compound_inner ctx nb i 0 a).

(** [AddExtraCompoundMvCandidate]. *)
Definition AddExtraCompoundMvCandidate (ctx : ExtraContext)
  (nb : ExtraNeighbor) (a : CompoundAcc) : CompoundAcc :=
  extra_compound_outer ctx nb 1 (extra_compound_outer ctx nb 0 a).

Fixpoint extra_compound_pass (ctx : ExtraContext) (nbs : list ExtraNeighbor)
  (a : CompoundAcc) : CompoundAcc :=
  match nbs with
  | [] => a
  | nb :: rest => extra_compound_pass ctx rest (AddExtraCompoundMvCandidate ctx nb a)
  end.

(** Column [i] of [combined_mvs]: the [ref_id[i]] entries, then
    [ref_diff[i]] entries while fewer than 2, then [global_mv[i]]. *)
Definition combine_column (ids diffs : list MotionVector) (g : MotionVector)
  : list MotionVector :=
  firstn 2 (ids ++ diffs ++ [g; g]).

Definition combined_mvs (ctx : ExtraContext) (a : CompoundAcc)
  : CandidateMotionVector * CandidateMotionVector :=
  let c0 := combine_column (ref_id0 a) (ref_diff0 a) (global_mv0 ctx) in
  let c1 := combine_column (ref_id1 a) (ref_diff1 a) (global_mv1 ctx) in
  (mkCand (nth 0 c0 zero_mv) (nth 0 c1 zero_mv),
   mkCand (nth 1 c0 zero_mv) (nth 1 c1 zero_mv)).

(** One iteration of the single-prediction tail of [ExtraSearch]:
    [ref_mv_stack[i].mv[0] = global_mv[0]; SetWeightIndexStackEntry(i, 0);]. *)
Definition fill_global_entry (ctx : ExtraContext) (i : Z) (st : MvState)
  : MvState :=
  let st1 := store_candidate st i
               (mkCand (global_mv0 ctx) (cand1 (stack_at st i))) in
  set_weight st1 i 0.

(** The single-prediction tail of [ExtraSearch]:
    [for (i = *num_mv_found; i < 2; ++i) ...]. *)
Definition fill_global_single (ctx : ExtraContext) (st : MvState) : MvState :=
  let n := num_mv_found st in
  if n <=? 0 then fill_global_entry ctx 1 (fill_global_entry ctx 0 st)
  else if n <=? 1 then fill_global_entry ctx 1 st
  else st.

(** The compound tail of [ExtraSearch]: merge into the stack and set
    [*num_mv_found = 2]. *)
Definition merge_compound (ctx : ExtraContext) (a : CompoundAcc)
  (st : MvState) : MvState :=
  let '(c0, c1) := combined_mvs ctx a in
  let st' :=
    if num_mv_found st =? 1 then
      let c := if cand_eqb c0 (stack_at st 0) then c1 else c0 in
      set_weight (store_candidate st 1 c) 1 0
    else
      set_weight (store_candidate (set_weight (store_candidate st 0 c0) 0 0) 1 c1) 1 0
  in set_num_mv_found st' 2.

(** [ExtraSearch]; [pass0] and [pass1] are the neighbours its two passes
    reach (the row above, then the column to the left) before leaving the
    tile or covering [num4x4] units. *)
Definition ExtraSearch (is_compound : bool) (ctx : ExtraContext)
  (pass0 pass1 : list ExtraNeighbor) (st : MvState) : MvState :=
  if is_compound then
    let a0 := mkAcc [] [] [] [] in
    let a1 := if num_mv_found st <? 2 then extra_compound_pass ctx pass0 a0 else a0 in
    let a2 := if num_mv_found st <? 2 then extra_compound_pass ctx pass1 a1 else a1 in
    merge_compound ctx a2 st
  else
    let st1 := if num_mv_found st <? 2 then extra_single_pass ctx pass0 st else st in
    let st2 := if num_mv_found st1 <? 2 then extra_single_pass ctx pass1 st1 else st1 in
    fill_global_single ctx st2.

(** The inputs of one [FindMvStack] call, as seen by the stack: the
    candidates offered (with their weights) by [ScanRow], [ScanColumn]
    and the corner [ScanPoint] before [nearest_mv_count] is taken, those
    offered afterwards by [TemporalScan], [ScanPoint(-1,-1)] and the outer
    [ScanRow]/[ScanColumn], and the neighbours [ExtraSearch] reaches. *)
Record MvSearchInput := mkMvSearchInput {
  nearest_candidates : list (CandidateMotionVector * Z);
  other_candidates : list (CandidateMotionVector * Z);
  extra_context : ExtraContext;
  extra_pass0 : list ExtraNeighbor;
  extra_pass1 : list ExtraNeighbor
}.

(** The [PredictionParameters] fields on return of [FindMvStack]. *)
Record MvResult := mkMvResult {
  res_state : MvState;
  nearest_mv_count : Z;
  ref_mv_count : Z
}.

(** [FindMvStack]: starting from [num_mv_found = 0] and the arrays as
    they are in [prediction_parameters]. *)
Definition FindMvStack (is_compound : bool) (inp : MvSearchInput)
  (stack0 : list CandidateMotionVector) (weights0 : list Z) : MvResult :=
  let st0 := mkMvState 0 stack0 weights0 false in
  let st1 := add_ref_mv_candidates is_compound (nearest_candidates inp) st0 in
  let nearest := num_mv_found st1 in
  let st2 := add_ref_mv_candidates is_compound (other_candidates inp) st1 in
  let st3 :=
    if num_mv_found st2 <? 2 then
      ExtraSearch is_compound (extra_context inp) (extra_pass0 inp)
        (extra_pass1 inp) st2
    else
      let w := weight_index_stack st2 in
      let w1 := SortWeightIndexStack nearest w in
      let w2 := firstn (Z.to_nat nearest) w1
                ++ SortWeightIndexStack (num_mv_found st2 - nearest)
                     (skipn (Z.to_nat nearest) w1) in
      mkMvState (num_mv_found st2) (ref_mv_stack st2) w2 (stack_oob st2)
  in
  mkMvResult st3 nearest (num_mv_found st3).

End WithWeights.

End MvStack.

(** ** Warp samples: [FindWarpSamples] and [AddSample]
      (src/motion_vector.cc) *)

Module WarpSamples.
Import MotionVectorPrediction.

Definition kReferenceFrameNone : Z := -1.

(** [kWarpValidThreshold], indexed by block size. *)
Definition kWarpValidThreshold : list Z :=
  [16; 16; 16; 16; 16; 16; 32; 16; 16; 16; 32;
   64; 32; 32; 32; 64; 64; 64; 64; 112; 112; 112].

(** The current block as [AddSample] reads it: [block.size],
    [block.bp->reference_frame[0]], [block.bp->mv.mv[0]] and the
    [row4x4]/[column4x4] position. *)
Record WarpBlock := mkWarpBlock {
  wb_size : nat;
  wb_ref0 : Z;
  wb_mv : MotionVector;
  wb_row4x4 : Z;
  wb_column4x4 : Z
}.

(** What [AddSample] reads at one neighbouring position
    [(row4x4 + delta_row, column4x4 + delta_column)]: whether
    [IsInside && HasParameters] holds there, that block's
    [reference_frame[0..1]], its size in 4x4 units, and [mv.mv[0]] of the
    block found at the aligned [candidate_row]/[candidate_column]. *)
Record SampleSite := mkSite {
  site_delta_row : Z;
  site_delta_column : Z;
  site_available : bool;
  site_ref0 : Z;
  site_ref1 : Z;
  site_height4x4 : Z;
  site_width4x4 : Z;
  site_candidate_mv : MotionVector
}.

(** [*num_warp_samples], [*num_samples_scanned] and [candidates[][4]];
    [warp_oob] records a write past the [kMaxLeastSquaresSamples] rows. *)
Record WarpState := mkWarpState {
  num_warp_samples : Z;
  num_samples_scanned : Z;
  candidates : list (list Z);
  warp_oob : bool
}.

Section WithMax.
(** [kMaxLeastSquaresSamples] (src/utils/constants.h, not among the
    sources) is a parameter of the model. *)
Variable kMaxLeastSquaresSamples : Z.

(** [candidates[i][0..3] = row]. *)
Definition store_sample (st : WarpState) (i : Z) (row : list Z) : WarpState :=
  if (0 <=? i) && (i <? Z.of_nat (length (candidates st))) then
    mkWarpState (num_warp_samples st) (num_samples_scanned st)
      (firstn (Z.to_nat i) (candidates st) ++ row
         :: skipn (S (Z.to_nat i)) (candidates st))
      (warp_oob st)
  else mkWarpState (num_warp_samples st) (num_samples_scanned st)
         (candidates st) true.

(** [AddSample(block, delta_row, delta_column, ...)]. *)
Definition AddSample (b : WarpBlock) (site : SampleSite) (st : WarpState)
  : WarpState :=
  if num_samples_scanned st >=? kMaxLeastSquaresSamples then st
  else if negb (site_available site) then st
  else if negb (site_ref0 site =? wb_ref0 b)
          || negb (site_ref1 site =? kReferenceFrameNone) then st
  else
    let scanned := num_samples_scanned st + 1 in
    let mv_row := wb_row4x4 b + site_delta_row site in
    let mv_column := wb_column4x4 b + site_delta_column site in
    let candidate_height4x4 := site_height4x4 site in
    let candidate_row := Z.land mv_row (Z.lnot (candidate_height4x4 - 1)) in
    let candidate_width4x4 := site_width4x4 site in
    let candidate_column := Z.land mv_column (Z.lnot (candidate_width4x4 - 1)) in
    let cmv := site_candidate_mv site in
    let mv_diff_row := Z.abs (MotionVectorPrediction.mv_row cmv
                              - MotionVectorPrediction.mv_row (wb_mv b)) in
    let mv_diff_column := Z.abs (mv_col cmv - mv_col (wb_mv b)) in
    let is_valid :=
      mv_diff_row + mv_diff_column
        <=? nth (wb_size b) kWarpValidThreshold 0 in
    let st1 := mkWarpState (num_warp_samples st) scanned (candidates st)
                 (warp_oob st) in
    if negb is_valid && (scanned >? 1) then st1
    else
      let mid_y := 4 * candidate_row + 2 * candidate_height4x4 - 1 in
      let mid_x := 4 * candidate_column + 2 * candidate_width4x4 - 1 in
      let st2 := store_sample st1 (num_warp_samples st1)
                   [8 * mid_y; 8 * mid_x; 8 * mid_y + MotionVectorPrediction.mv_row cmv;
                    8 * mid_x + mv_col cmv] in
      if is_valid
      then mkWarpState (num_warp_samples st2 + 1) (num_samples_scanned st2)
             (candidates st2) (warp_oob st2)
      else st2.

(** The [AddSample] calls of [FindWarpSamples], in order (the top row or
    top block, the left column or left block, then the top-left and
    top-right corners when they qualify). *)
Fixpoint add_samples (b : WarpBlock) (sites : list SampleSite) (st : WarpState)
  : WarpState :=
  match sites with
  | [] => st
  | site :: rest => add_samples b rest (AddSample b site st)
  end.

(** [FindWarpSamples]: the samples, then
    [if (num_warp_samples == 0 && num_samples_scanned > 0)
       *num_warp_samples = 1;]. *)
Definition FindWarpSamples (b : WarpBlock) (sites : list SampleSite)
  (st : WarpState) : WarpState :=
  let st' := add_samples b sites st in
  if (num_warp_samples st' =? 0) && (num_samples_scanned st' >? 0)
  then mkWarpState 1 (num_samples_scanned st') (candidates st') (warp_oob st')
  else st'.

End WithMax.

End WarpSamples.

Module Deblock.

(** The fields of [BlockParameters] the deblocking edge decisions read. *)
Record BlockParameters := mkBlockParameters {
  skip : bool;
  is_inter : bool;
  deblock_filter_level : list Z
}.

(** The frame state read by the edge decisions: [block_parameters_]
    ([Find(row4x4, column4x4)] gives a block, identified by its address),
    the block each address holds, and [inter_transform_sizes_]. *)
Record DeblockFrame := mkDeblockFrame {
  find_block : Z -> Z -> nat;
  block_at : nat -> BlockParameters;
  inter_transform_sizes : Z -> Z -> nat
}.

(** The outputs: the return value and [*level], [*step], [*filter_length];
    an output the function does not write keeps its previous value. *)
Record EdgeInfo := mkEdgeInfo {
  edge_filter : bool;
  edge_level : Z;
  edge_step : Z;
  edge_filter_length : Z
}.

Section WithTables.
(** [kTransformWidth] and [kTransformHeight] (src/utils/constants.cc, not
    among the sources), indexed by transform size. *)
Variables kTransformWidth kTransformHeight : nat -> Z.

(** [SkipFilter(bp, bp_prev)]: [bp->skip && bp->is_inter && bp == bp_prev],
    pointers compared by address. *)
Definition SkipFilter (f : DeblockFrame) (bp bp_prev : nat) : bool :=
  skip (block_at f bp) && is_inter (block_at f bp) && Nat.eqb bp bp_prev.

(** [PostFilter::GetHorizontalDeblockFilterEdgeInfo]. *)
Definition GetHorizontalDeblockFilterEdgeInfo (f : DeblockFrame)
  (row4x4 column4x4 : Z) (level0 filter_length0 : Z) : EdgeInfo :=
  let step := kTransformHeight (inter_transform_sizes f row4x4 column4x4) in
  if row4x4 =? 0 then mkEdgeInfo false level0 step filter_length0 else
  let bp := find_block f row4x4 column4x4 in
  let level_this := nth 1 (deblock_filter_level (block_at f bp)) 0 in
  let row4x4_prev := row4x4 - 1 in
  let bp_prev := find_block f row4x4_prev column4x4 in
  let level_prev := nth 1 (deblock_filter_level (block_at f bp_prev)) 0 in
  if (level_this =? 0) && (level_prev =? 0)
  then mkEdgeInfo false level_this step filter_length0 else
  let level := if level_this =? 0 then level_prev else level_this in
  if SkipFilter f bp bp_prev then mkEdgeInfo false level step filter_length0
  else
    let step_prev :=
      kTransformHeight (inter_transform_sizes f row4x4_prev column4x4) in
    mkEdgeInfo true level step (Z.min step step_prev).

(** [PostFilter::GetVerticalDeblockFilterEdgeInfo]. The caller
    ([VerticalDeblockFilter]) passes [bp_ptr] pointing at entry
    [(row4x4, column4x4)] of [block_parameters_], so [*bp_ptr] is
    [Find(row4x4, column4x4)] and [*(bp_ptr - 1)] is
    [Find(row4x4, column4x4 - 1)]. *)
Definition GetVerticalDeblockFilterEdgeInfo (f : DeblockFrame)
  (row4x4 column4x4 : Z) (level0 filter_length0 : Z) : EdgeInfo :=
  let bp := find_block f row4x4 column4x4 in
  let step := kTransformWidth (inter_transform_sizes f row4x4 column4x4) in
  if column4x4 =? 0 then mkEdgeInfo false level0 step filter_length0 else
  let filter_id := 0%nat in
  let level_this := nth filter_id (deblock_filter_level (block_at f bp)) 0 in
  let column4x4_prev := column4x4 - 1 in
  let bp_prev := find_block f row4x4 column4x4_prev in
  let level_prev :=
    nth filter_id (deblock_filter_level (block_at f bp_prev)) 0 in
  if (level_this =? 0) && (level_prev =? 0)
  then mkEdgeInfo false level_this step filter_length0 else
  let level := if level_this =? 0 then level_prev else level_this in
  if SkipFilter f bp bp_prev then mkEdgeInfo false level step filter_length0
  else
    let step_prev :=
      kTransformWidth (inter_transform_sizes f row4x4 column4x4_prev) in
    mkEdgeInfo true level step (Z.min step step_prev).

End WithTables.

End Deblock.

Module SuperRes.

(** One [ApplySuperRes] call of [PostFilter::ApplySuperResThreaded]: its
    first row (in 4x4 units, [row4x4_start]), its number of rows, and
    whether it is scheduled on the thread pool or run on the calling
    thread. *)
Record SuperResJob := mkSuperResJob {
  job_row4x4_start : Z;
  job_rows4x4 : Z;
  job_on_pool : bool
}.

(** The loop [for (int i = 0, row4x4_start = 0; i < num_threads; ++i,
    row4x4_start += thread_pool_rows4x4, ...)], with [fuel] the number of
    iterations left. *)
Fixpoint superres_loop (fuel : nat) (i row4x4_start num_threads
  thread_pool_rows4x4 current_thread_rows4x4 : Z) : list SuperResJob :=
  match fuel with
  | O => []
  | S fuel' =>
      (if i <? num_threads - 1
       then mkSuperResJob row4x4_start thread_pool_rows4x4 true
       else mkSuperResJob row4x4_start current_thread_rows4x4 false)
      :: superres_loop fuel' (i + 1) (row4x4_start + thread_pool_rows4x4)
           num_threads thread_pool_rows4x4 current_thread_rows4x4
  end.

(** [PostFilter::ApplySuperResThreaded], as the list of jobs it starts;
    [num_pool_threads] is [thread_pool_->num_threads()] and C's integer
    division truncates ([Z.quot]). *)
Definition ApplySuperResThreaded (num_pool_threads rows4x4 : Z)
  : list SuperResJob :=
  let num_threads := num_pool_threads + 1 in
  let thread_pool_rows4x4 := Z.quot rows4x4 num_threads in
  let current_thread_rows4x4 :=
    rows4x4 - thread_pool_rows4x4 * (num_threads - 1) in
  superres_loop (Z.to_nat num_threads) 0 0 num_threads thread_pool_rows4x4
    current_thread_rows4x4.

(** The rows [start, start + n) a job covers. *)
Definition seqZ (start n : Z) : list Z :=
  map (fun k => start + Z.of_nat k) (seq 0 (Z.to_nat n)).

Definition job_rows (j : SuperResJob) : list Z :=
  seqZ (job_row4x4_start j) (job_rows4x4 j).

End SuperRes.

Module OutputLayers.

(** [TemporalUnit::OutputLayer]: the frame (by an identifier) and its
    [position_in_temporal_unit]. *)
Record OutputLayer := mkOutputLayer {
  frame : Z;
  position_in_temporal_unit : Z
}.

(** [OutputLayer::operator<]:
    [position_in_temporal_unit > rhs.position_in_temporal_unit]. *)
Definition OutputLayer_lt (lhs rhs : OutputLayer) : bool :=
  position_in_temporal_unit lhs >? position_in_temporal_unit rhs.

(** [std::sort(output_layers, output_layers + output_layer_count)] with
    [operator<], as an insertion sort (with pairwise distinct positions
    every sort yields the same array). *)
Fixpoint insert_layer (x : OutputLayer) (l : list OutputLayer)
  : list OutputLayer :=
  match l with
  | [] => [x]
  | y :: rest => if OutputLayer_lt y x then y :: insert_layer x rest
                 else x :: l
  end.

Fixpoint sort_output_layers (l : list OutputLayer) : list OutputLayer :=
  match l with
  | [] => []
  | x :: rest => insert_layer x (sort_output_layers rest)
  end.

(** The output-layer part of a [TemporalUnit]: [output_layers] and
    [output_layer_count]. *)
Record TemporalUnitLayers := mkTemporalUnitLayers {
  output_layers : list OutputLayer;
  output_layer_count : Z
}.

(** Modelled from the spec: [DequeueFrame] (decoder_impl.cc, not among the
    sources) takes the layers of a decoded temporal unit with the single
    counter the header describes, scanning the sorted array with a
    monotonically decreasing index: [--output_layer_count], then
    [output_layers[output_layer_count]]. *)
Definition DequeueFrame (tu : TemporalUnitLayers)
  : option (OutputLayer * TemporalUnitLayers) :=
  if output_layer_count tu >? 0 then
    let count := output_layer_count tu - 1 in
    Some (nth (Z.to_nat count) (output_layers tu) (mkOutputLayer 0 0),
          mkTemporalUnitLayers (output_layers tu) count)
  else None.

(** Successive [DequeueFrame] calls until none is left ([fuel] bounds
    them). *)
Fixpoint dequeue_all (fuel : nat) (tu : TemporalUnitLayers)
  : list OutputLayer :=
  match fuel with
  | O => []
  | S fuel' =>
      match DequeueFrame tu with
      | Some (layer, tu') => layer :: dequeue_all fuel' tu'
      | None => []
      end
  end.

(** A temporal unit whose decoding finished with [layers] in
    [output_layers] (in the order they finished), after the sort. *)
Definition finish_temporal_unit (layers : list OutputLayer)
  : TemporalUnitLayers :=
  mkTemporalUnitLayers (sort_output_layers layers) (Z.of_nat (length layers)).

(** Layers at positions 2, 0 and 1, finished in that order. *)
Definition layers_201 : list OutputLayer :=
  [mkOutputLayer 10 2; mkOutputLayer 11 0; mkOutputLayer 12 1].

End OutputLayers.

Module Cdef.

(** A plane as a function from (row, column) to the sample there; the
    2D CDEF working copy ([cdef_source], stride
    [kRestorationProcessingUnitSizeWithBorders]) the same way. A pointer
    into either is a (row, column) position: [p += stride] moves one row
    down, [p += k] moves [k] columns right. *)
Definition Buffer := Z -> Z -> Z.

(** The source positions read, in order. *)
Definition Reads := list (Z * Z).

Definition upd (b : Buffer) (r c v : Z) : Buffer :=
  fun r' c' => if (r' =? r) && (c' =? c) then v else b r' c'.

(** [for (int x = x0; x < x0 + n; ++x) body(x);] *)
Fixpoint for_x (x : Z) (n : nat) (body : Z -> Buffer * Reads -> Buffer * Reads)
  (acc : Buffer * Reads) : Buffer * Reads :=
  match n with
  | O => acc
  | S n' => for_x (x + 1) n' body (body x acc)
  end.

(** [for (int y = 0; y < num_rows; ++y) { ...; dst += dst_stride;
    src += src_stride; }], the row body taking the row index [y]. *)
Fixpoint for_rows (y : Z) (n : nat) (row : Z -> Buffer * Reads -> Buffer * Reads)
  (acc : Buffer * Reads) : Buffer * Reads :=
  match n with
  | O => acc
  | S n' => for_rows (y + 1) n' row (row y acc)
  end.

Section WithConstants.
(** [kCdefBorder] and [PostFilter::kCdefLargeValue] (post_filter.h, not
    among the sources), and the helpers [Align] and
    [RightShiftWithRounding] (utils/common.h, not among the sources), are
    parameters of the model. *)
Variables kCdefBorder kCdefLargeValue : Z.
Variables Align RightShiftWithRounding : Z -> Z -> Z.

(** [Memset(dst, kCdefLargeValue, n)], one cell: [dst[x] = kCdefLargeValue]. *)
Definition memset_cell (dst_row dst_col : Z) (x : Z) (acc : Buffer * Reads)
  : Buffer * Reads :=
  let '(b, rd) := acc in (upd b dst_row (dst_col + x) kCdefLargeValue, rd).

(** [dst[x] = large ? PostFilter::kCdefLargeValue : src[x];] *)
Definition copy_cell (src : Buffer) (src_row src_col dst_row dst_col : Z)
  (large : bool) (x : Z) (acc : Buffer * Reads) : Buffer * Reads :=
  let '(b, rd) := acc in
  if large then (upd b dst_row (dst_col + x) kCdefLargeValue, rd)
  else (upd b dst_row (dst_col + x) (src src_row (src_col + x)),
        rd ++ [(src_row, src_col + x)]).

(** One row of the copying branch of [CopyRows], as the element loops
    write it (the [memcpy]/[Memset] branch taken when [Pixel] is 16 bits
    writes the same cells with the same values). *)
Definition copy_row (src : Buffer) (src_row src_col dst_row dst_col : Z)
  (block_width unit_width : Z) (is_frame_left is_frame_right : bool)
  (acc : Buffer * Reads) : Buffer * Reads :=
  let acc := for_x (- kCdefBorder) (Z.to_nat kCdefBorder)
               (copy_cell src src_row src_col dst_row dst_col is_frame_left)
               acc in
  let acc := for_x 0 (Z.to_nat block_width)
               (copy_cell src src_row src_col dst_row dst_col false) acc in
  for_x block_width (Z.to_nat (unit_width + kCdefBorder - block_width))
    (copy_cell src src_row src_col dst_row dst_col is_frame_right) acc.

(** [Memset(dst, PostFilter::kCdefLargeValue, unit_width + 2 * kCdefBorder)]. *)
Definition fill_row (dst_row dst_col unit_width : Z) (acc : Buffer * Reads)
  : Buffer * Reads :=
  for_x 0 (Z.to_nat (unit_width + 2 * kCdefBorder))
    (memset_cell dst_row dst_col) acc.

(** [CopyRows(src, src_stride, block_width, unit_width, is_frame_top,
    is_frame_bottom, is_frame_left, is_frame_right, copy_top, num_rows,
    dst, dst_stride)], with [src] at [(src_row, src_col)] and [dst] at
    [(dst_row, dst_col)]. *)
Definition CopyRows (src : Buffer) (src_row src_col : Z)
  (block_width unit_width : Z)
  (is_frame_top is_frame_bottom is_frame_left is_frame_right copy_top : bool)
  (num_rows : Z) (dst_row dst_col : Z) (acc : Buffer * Reads)
  : Buffer * Reads :=
  if is_frame_top || is_frame_bottom then
    let dst_col := if is_frame_bottom then dst_col - kCdefBorder else dst_col in
    for_rows 0 (Z.to_nat num_rows)
      (fun y => fill_row (dst_row + y) dst_col unit_width) acc
  else
    let src_row := if copy_top then src_row - kCdefBorder else src_row in
    let dst_col := if copy_top then dst_col + kCdefBorder else dst_col in
    for_rows 0 (Z.to_nat num_rows)
      (fun y => copy_row src (src_row + y) src_col (dst_row + y) dst_col
                  block_width unit_width is_frame_left is_frame_right) acc.

(** The quantities [PrepareCdefBlock] computes for one plane. *)
Record CdefPlaneGeometry := mkCdefPlaneGeometry {
  start_x : Z;
  start_y : Z;
  plane_width : Z;
  plane_height : Z;
  block_width : Z;
  block_height : Z;
  unit_width : Z;
  unit_height : Z;
  is_frame_left : bool;
  is_frame_right : bool;
  is_frame_top : bool;
  is_frame_bottom : bool
}.

Definition cdef_plane_geometry (width height subsampling_x subsampling_y : Z)
  (block_width4x4 block_height4x4 row_64x64 column_64x64 : Z)
  : CdefPlaneGeometry :=
  let start_x := Z.shiftr (4 * column_64x64) subsampling_x in
  let start_y := Z.shiftr (4 * row_64x64) subsampling_y in
  let plane_width := RightShiftWithRounding width subsampling_x in
  let plane_height := RightShiftWithRounding height subsampling_y in
  let block_width := Z.shiftr (4 * block_width4x4) subsampling_x in
  let block_height := Z.shiftr (4 * block_height4x4) subsampling_y in
  let unit_width := Align block_width (if subsampling_x >? 0 then 4 else 8) in
  let unit_height :=
    Align block_height (if subsampling_y >? 0 then 4 else 8) in
  mkCdefPlaneGeometry start_x start_y plane_width plane_height
    block_width block_height unit_width unit_height
    (column_64x64 =? 0) (start_x + block_width >=? plane_width)
    (row_64x64 =? 0) (start_y + block_height >=? plane_height).

(** One iteration of the plane loop of [PostFilter::PrepareCdefBlock]:
    [src] is the plane ([source_buffer_[plane]], so [src_buffer] starts
    at [(start_y, start_x)]) and [cdef_src] starts at [(0, 0)]. *)
Definition PrepareCdefPlane (src : Buffer) (g : CdefPlaneGeometry)
  (acc : Buffer * Reads) : Buffer * Reads :=
  (* Copy to the top 2 rows. *)
  let acc := CopyRows src (start_y g) (start_x g) (block_width g) (unit_width g)
               (is_frame_top g) false (is_frame_left g) (is_frame_right g) true
               kCdefBorder 0 0 acc in
  (* cdef_src += kCdefBorder * cdef_stride + kCdefBorder; copy the body. *)
  let acc := CopyRows src (start_y g) (start_x g) (block_width g) (unit_width g)
               false false (is_frame_left g) (is_frame_right g) false
               (block_height g) kCdefBorder kCdefBorder acc in
  (* src_buffer and cdef_src move down block_height rows; copy to bottom
     rows. *)
  CopyRows src (start_y g + block_height g) (start_x g) (block_width g)
    (unit_width g) false (is_frame_bottom g) (is_frame_left g)
    (is_frame_right g) false (kCdefBorder + unit_height g - block_height g)
    (kCdefBorder + block_height g) kCdefBorder acc.

End WithConstants.

End Cdef.

(** ** Frame borders (src/post_filter.cc) *)

(** The pixels of a frame buffer as a linear memory indexed by the
    position of the pixel, as [Pixel*] arithmetic indexes it. *)
Module FrameBorders.

Definition Mem := Z -> Z.

(** [*p = v] *)
Definition store (m : Mem) (p v : Z) : Mem :=
  fun q => if q =? p then v else m q.

Fixpoint Memset_n (m : Mem) (dst v : Z) (n : nat) : Mem :=
  match n with
  | O => m
  | S n' => Memset_n (store m dst v) (dst + 1) v n'
  end.

(** [Memset(dst, value, count)] (utils, not among the sources) stores
    [value] in the [count] cells from [dst] on, as [memset] does. *)
Definition Memset (m : Mem) (dst value count : Z) : Mem :=
  Memset_n m dst value (Z.to_nat count).

Fixpoint memcpy_n (m : Mem) (dst src : Z) (n : nat) : Mem :=
  match n with
  | O => m
  | S n' => memcpy_n (store m dst (m src)) (dst + 1) (src + 1) n'
  end.

(** [memcpy(dst, src, sizeof(Pixel) * count)]: [count] pixels copied
    one after the other from [src] to [dst]. *)
Definition memcpy (m : Mem) (dst src count : Z) : Mem :=
  memcpy_n m dst src (Z.to_nat count).

(** [memcpy] between two buffers: [count] pixels of [src_mem] from [src]
    on stored into [m] from [dst] on. *)
Fixpoint memcpy_from_n (m : Mem) (dst : Z) (src_mem : Mem) (src : Z) (n : nat)
  : Mem :=
  match n with
  | O => m
  | S n' => memcpy_from_n (store m dst (src_mem src)) (dst + 1) src_mem (src + 1) n'
  end.

Definition memcpy_from (m : Mem) (dst : Z) (src_mem : Mem) (src count : Z) : Mem :=
  memcpy_from_n m dst src_mem src (Z.to_nat count).

(** [for (int y = y0; y < y0 + n; ++y) body(y);] *)
Fixpoint for_y (y : Z) (n : nat) (body : Z -> Mem -> Mem) (m : Mem) : Mem :=
  match n with
  | O => m
  | S n' => for_y (y + 1) n' body (body y m)
  end.

(** One row of the first loop of [ExtendFrame]:
    [Memset(dst, src[0], left);
     Memset(dst + (left + width), src[width - 1], right);]
    with [src = start + y * stride] and [dst = start - left + y * stride]. *)
Definition extend_row (start width stride left right : Z) (y : Z) (m : Mem)
  : Mem :=
  let src := start + y * stride in
  let dst := start - left + y * stride in
  let m := Memset m dst (m src) left in
  Memset m (dst + (left + width)) (m (src + (width - 1))) right.

(** [ExtendFrame<Pixel>(frame_start, width, height, stride, left, right,
    top, bottom)]; [frame_start] is the position of the first pixel,
    [stride] is in bytes and [sizeof_pixel] is [sizeof(Pixel)]. *)
Definition ExtendFrame (sizeof_pixel : Z) (m : Mem)
  (start width height stride left right top bottom : Z) : Mem :=
  let stride := stride / sizeof_pixel in
  (* Copy to left and right borders. *)
  let m := for_y 0 (Z.to_nat height) (extend_row start width stride left right) m in
  (* Copy to bottom borders. *)
  let dst := start + height * stride + width + right - stride in
  let src := dst - stride in
  let m := for_y 0 (Z.to_nat bottom)
             (fun y m => memcpy m (dst + y * stride) src stride) m in
  (* Copy to top borders. *)
  let src := start - left in
  let dst := start - left - top * stride in
  for_y 0 (Z.to_nat top) (fun y m => memcpy m (dst + y * stride) src stride) m.

(** Where the first loop of [ExtendFrame] takes the pixel of column [x]
    of a row from, the columns [left] before and [right] after the row's
    [width] ones included. *)
Definition extend_col (width right x : Z) : Z :=
  if x <? 0 then 0 else if (width <=? x) && (x <? width + right) then width - 1
  else x.

(** [ExtendLine<Pixel>(line_start, width, left, right)] *)
Definition ExtendLine (m : Mem) (start width left right : Z) : Mem :=
  let src := start in
  let dst := start - left in
  let m := Memset m dst (m src) left in
  Memset m (dst + (left + width)) (m (src + (width - 1))) right.

(** [CopyPlane<Pixel>(source, source_stride, width, height, dest,
    dest_stride)], copying from the buffer [src_mem] into [m]. *)
Definition CopyPlane (sizeof_pixel : Z) (src_mem : Mem) (source source_stride
  width height : Z) (m : Mem) (dest dest_stride : Z) : Mem :=
  let source_stride := source_stride / sizeof_pixel in
  let dest_stride := dest_stride / sizeof_pixel in
  for_y 0 (Z.to_nat height)
    (fun y m => memcpy_from m (dest + y * dest_stride) src_mem
                  (source + y * source_stride) width) m.

End FrameBorders.

(** ** Loop-restoration blocks (src/post_filter/loop_restoration.cc) *)

Module LoopRestorationBlock.
Import FrameBorders.

Section WithBorders.
(** [kRestorationVerticalBorder] and [kRestorationHorizontalBorder]
    (post_filter.h, not among the sources) are parameters of the model. *)
Variables kRestorationVerticalBorder kRestorationHorizontalBorder : Z.

(** [memcpy(dst, src, sizeof(Pixel) * width); src += src_stride;
    dst += dst_stride;] repeated [n] times, the row [y] copied from
    [src + y * src_stride] to [dst + y * dst_stride]. *)
Definition copy_rows (n : nat) (src_mem : Mem) (src src_stride : Z) (m : Mem)
  (dst dst_stride width : Z) : Mem :=
  for_y 0 n (fun y m => memcpy_from m (dst + y * dst_stride) src_mem
                          (src + y * src_stride) width) m.

(** [CopyTwoRows<Pixel>(src, src_stride, &dst, dst_stride, width)]: the
    buffer written and the advanced [*dst]. *)
Definition CopyTwoRows (src_mem : Mem) (src src_stride : Z) (m : Mem)
  (dst dst_stride width : Z) : Mem * Z :=
  let n := Z.to_nat (kRestorationVerticalBorder - 1) in
  (copy_rows n src_mem src src_stride m dst dst_stride width,
   dst + Z.of_nat n * dst_stride).

(** [PostFilter::PrepareLoopRestorationBlock<Pixel>(cdef_buffer,
    cdef_stride, deblock_buffer, deblock_stride, dest, dest_stride, width,
    height, frame_top_border, frame_bottom_border)], the buffers
    [cdef_mem], [deblock_mem] and the destination [m] being distinct.
    The main loop is [do { ... } while (--h != 0)]: with [h <= 0] it does
    not stop before [h] leaves the range of [int], which is [None]. *)
Definition PrepareLoopRestorationBlock (sizeof_pixel : Z)
  (cdef_mem : Mem) (cdef_buffer cdef_stride : Z)
  (deblock_mem : Mem) (deblock_buffer deblock_stride : Z)
  (m : Mem) (dest dest_stride width height : Z)
  (frame_top_border frame_bottom_border : bool) : option Mem :=
  let cdef_stride := cdef_stride / sizeof_pixel in
  let deblock_stride := deblock_stride / sizeof_pixel in
  let dest_stride := dest_stride / sizeof_pixel in
  let cdef_ptr := cdef_buffer - (kRestorationVerticalBorder - 1) * cdef_stride
                  - kRestorationHorizontalBorder in
  let deblock_ptr := deblock_buffer - kRestorationHorizontalBorder in
  let dst := dest in
  let h := height in
  (* Top 2 rows. *)
  let '(h, m, dst, cdef_ptr, deblock_ptr) :=
    if frame_top_border then
      (h + (kRestorationVerticalBorder - 1), m, dst, cdef_ptr, deblock_ptr)
    else
      let '(m, dst) := CopyTwoRows deblock_mem deblock_ptr deblock_stride m dst
                         dest_stride (width + 2 * kRestorationHorizontalBorder) in
      (h, m, dst, cdef_ptr + (kRestorationVerticalBorder - 1) * cdef_stride,
       deblock_ptr + 4 * deblock_stride) in
  let h := if frame_bottom_border then h + (kRestorationVerticalBorder - 1)
           else h in
  (* Main body. *)
  if h <=? 0 then None else
  let n := Z.to_nat h in
  let m := copy_rows n cdef_mem cdef_ptr cdef_stride m dst dest_stride
             (width + 2 * kRestorationHorizontalBorder) in
  let dst := dst + Z.of_nat n * dest_stride in
  (* Bottom 2 rows. *)
  if negb frame_bottom_border then
    let deblock_ptr :=
      deblock_ptr + (kRestorationVerticalBorder - 1) * deblock_stride in
    Some (fst (CopyTwoRows deblock_mem deblock_ptr deblock_stride m dst
                 dest_stride (width + 2 * kRestorationHorizontalBorder)))
  else Some m.

End WithBorders.

End LoopRestorationBlock.

(** ** Chroma deblocking edges and loop-filter sizes
    (src/post_filter/deblock.cc) *)

Module DeblockChroma.
Import Deblock.

(** [GetLoopFilterSizeY(filter_length)]:
    [MultiplyBy2(filter_length > 4) + (filter_length > 8)], the sizes
    [kLoopFilterSize4, 6, 8, 14] being [0, 1, 2, 3]. *)
Definition GetLoopFilterSizeY (filter_length : Z) : Z :=
  2 * (if filter_length >? 4 then 1 else 0) + (if filter_length >? 8 then 1 else 0).

(** The branching code the comment of [GetLoopFilterSizeY] gives as its
    equivalent: [if (filter_length == 4) return kLoopFilterSize4;
    if (filter_length == 8) return kLoopFilterSize8;
    return kLoopFilterSize14;]. *)
Definition GetLoopFilterSizeY_branching (filter_length : Z) : Z :=
  if filter_length =? 4 then 0 else if filter_length =? 8 then 2 else 3.

(** The frame state the chroma edge decisions read besides that of the
    luma ones: the [uv_transform_size] of each block,
    [frame_header_.loop_filter.level] and the subsampling of the U plane. *)
Record ChromaFrame := mkChromaFrame {
  luma : DeblockFrame;
  uv_transform_size : nat -> nat;
  loop_filter_level : Z -> Z;
  subsampling_x : Z;
  subsampling_y : Z
}.

(** The outputs [*need_filter_u], [*need_filter_v], [*level_u],
    [*level_v], [*step], [*filter_length]; an output the function does
    not write keeps its previous value. *)
Record EdgeInfoUV := mkEdgeInfoUV {
  need_filter_u : bool;
  need_filter_v : bool;
  level_u : Z;
  level_v : Z;
  uv_step : Z;
  uv_filter_length : Z
}.

Section WithTables.
(** [kTransformWidth], [kTransformHeight], [kDeblockFilterLevelIndex],
    [GetDeblockPosition] and the enumerators [kPlaneU], [kPlaneV],
    [kLoopFilterTypeVertical], [kLoopFilterTypeHorizontal] (not among the
    sources) are parameters of the model. *)
Variables kTransformWidth kTransformHeight : nat -> Z.
Variable kDeblockFilterLevelIndex : Z -> Z -> nat.
Variable GetDeblockPosition : Z -> Z -> Z.
Variables kPlaneU kPlaneV kLoopFilterTypeVertical kLoopFilterTypeHorizontal : Z.

(** The [if ( *need_filter_u) { ... }] block (and its [v] twin): the new
    [*need_filter] and [*level]. *)
Definition plane_level (f : ChromaFrame) (need : bool) (filter_id : nat)
  (bp bp_prev : nat) (level0 : Z) : bool * Z :=
  if need then
    let level_this :=
      nth filter_id (deblock_filter_level (block_at (luma f) bp)) 0 in
    if level_this =? 0 then
      let level_prev :=
        nth filter_id (deblock_filter_level (block_at (luma f) bp_prev)) 0 in
      if level_prev =? 0 then (false, level_this) else (true, level_prev)
    else (true, level_this)
  else (false, level0).

(** [PostFilter::GetHorizontalDeblockFilterEdgeInfoUV]. *)
Definition GetHorizontalDeblockFilterEdgeInfoUV (f : ChromaFrame)
  (row4x4 column4x4 : Z) (level_u0 level_v0 filter_length0 : Z) : EdgeInfoUV :=
  let subsampling_x := subsampling_x f in
  let subsampling_y := subsampling_y f in
  let row4x4 := GetDeblockPosition row4x4 subsampling_y in
  let column4x4 := GetDeblockPosition column4x4 subsampling_x in
  let bp := find_block (luma f) row4x4 column4x4 in
  let step := kTransformHeight (uv_transform_size f bp) in
  if row4x4 =? subsampling_y then
    mkEdgeInfoUV false false level_u0 level_v0 step filter_length0 else
  let need_u := negb (loop_filter_level f (kPlaneU + 1) =? 0) in
  let need_v := negb (loop_filter_level f (kPlaneV + 1) =? 0) in
  let filter_id_u := kDeblockFilterLevelIndex kPlaneU kLoopFilterTypeHorizontal in
  let filter_id_v := kDeblockFilterLevelIndex kPlaneV kLoopFilterTypeHorizontal in
  let row4x4_prev := row4x4 - Z.shiftl 1 subsampling_y in
  let bp_prev := find_block (luma f) row4x4_prev column4x4 in
  let '(need_u, level_u) := plane_level f need_u filter_id_u bp bp_prev level_u0 in
  let '(need_v, level_v) := plane_level f need_v filter_id_v bp bp_prev level_v0 in
  if negb need_u && negb need_v then
    mkEdgeInfoUV need_u need_v level_u level_v step filter_length0 else
  if SkipFilter f.(luma) bp bp_prev then
    mkEdgeInfoUV false false level_u level_v step filter_length0 else
  let step_prev := kTransformHeight (uv_transform_size f bp_prev) in
  mkEdgeInfoUV need_u need_v level_u level_v step (Z.min step step_prev).

(** [PostFilter::GetVerticalDeblockFilterEdgeInfoUV]. The caller
    ([VerticalDeblockFilter]) passes [bp_ptr] pointing at the entry of
    [block_parameters_] at the deblock position of [(row4x4, column4x4)],
    so [*bp_ptr] is [Find] of that position and
    [*(bp_ptr - (1 << subsampling_x))] is [Find] of the position
    [1 << subsampling_x] columns to its left. *)
Definition GetVerticalDeblockFilterEdgeInfoUV (f : ChromaFrame)
  (row4x4 column4x4 : Z) (level_u0 level_v0 filter_length0 : Z) : EdgeInfoUV :=
  let subsampling_x := subsampling_x f in
  let subsampling_y := subsampling_y f in
  let row4x4 := GetDeblockPosition row4x4 subsampling_y in
  let column4x4 := GetDeblockPosition column4x4 subsampling_x in
  let bp := find_block (luma f) row4x4 column4x4 in
  let step := kTransformWidth (uv_transform_size f bp) in
  if column4x4 =? subsampling_x then
    mkEdgeInfoUV false false level_u0 level_v0 step filter_length0 else
  let need_u := negb (loop_filter_level f (kPlaneU + 1) =? 0) in
  let need_v := negb (loop_filter_level f (kPlaneV + 1) =? 0) in
  let filter_id_u := kDeblockFilterLevelIndex kPlaneU kLoopFilterTypeVertical in
  let filter_id_v := kDeblockFilterLevelIndex kPlaneV kLoopFilterTypeVertical in
  let bp_prev :=
    find_block (luma f) row4x4 (column4x4 - Z.shiftl 1 subsampling_x) in
  let '(need_u, level_u) := plane_level f need_u filter_id_u bp bp_prev level_u0 in
  let '(need_v, level_v) := plane_level f need_v filter_id_v bp bp_prev level_v0 in
  if negb need_u && negb need_v then
    mkEdgeInfoUV need_u need_v level_u level_v step filter_length0 else
  if SkipFilter f.(luma) bp bp_prev then
    mkEdgeInfoUV false false level_u level_v step filter_length0 else
  let step_prev := kTransformWidth (uv_transform_size f bp_prev) in
  mkEdgeInfoUV need_u need_v level_u level_v step (Z.min step step_prev).

End WithTables.

End DeblockChroma.

(** ** The order of the deblocking passes (src/post_filter/deblock.cc) *)

Module DeblockOrder.

(** The filter calls [ApplyDeblockFilterForOneSuperBlockRow] makes, in
    order: [VerticalDeblockFilter(row4x4, column4x4)] and
    [HorizontalDeblockFilter(row4x4, column4x4)]. *)
Inductive DeblockCall :=
| VerticalDeblockFilterCall (row4x4 column4x4 : Z)
| HorizontalDeblockFilterCall (row4x4 column4x4 : Z).

Section WithUnit.
(** [kNum4x4InLoopFilterUnit] (post_filter.h, not among the sources). *)
Variable kNum4x4InLoopFilterUnit : Z.

(** [for (column4x4 = c; column4x4 < columns4x4;
          column4x4 += kNum4x4InLoopFilterUnit) { ... }]: the calls and the
    final [column4x4]. [fuel] bounds the number of tests of the loop
    condition; [None] is a run out of it. *)
Fixpoint column_loop (fuel : nat) (columns4x4 row4x4 column4x4 : Z)
  : option (list DeblockCall * Z) :=
  match fuel with
  | O => None
  | S fuel =>
    if column4x4 <? columns4x4 then
      (* First apply vertical filtering *)
      let calls :=
        VerticalDeblockFilterCall row4x4 column4x4 ::
        (* Delay one superblock to apply horizontal filtering. *)
        (if negb (column4x4 =? 0)
         then [HorizontalDeblockFilterCall row4x4
                 (column4x4 - kNum4x4InLoopFilterUnit)]
         else []) in
      match column_loop fuel columns4x4 row4x4
              (column4x4 + kNum4x4InLoopFilterUnit) with
      | Some (rest, c) => Some (calls ++ rest, c)
      | None => None
      end
    else Some ([], column4x4)
  end.

(** [for (int y = y0; y < sb4x4; y += 16) { ... }] *)
Fixpoint row_loop (fuel : nat) (rows4x4 columns4x4 row4x4_start sb4x4 y : Z)
  : option (list DeblockCall) :=
  match fuel with
  | O => None
  | S fuel =>
    if y <? sb4x4 then
      let row4x4 := row4x4_start + y in
      if row4x4 >=? rows4x4 then Some [] else
      match column_loop (S (Z.to_nat columns4x4)) columns4x4 row4x4 0 with
      | None => None
      | Some (calls, column4x4) =>
        (* Horizontal filtering for the last 64x64 block. *)
        let calls := calls ++ [HorizontalDeblockFilterCall row4x4
                                 (column4x4 - kNum4x4InLoopFilterUnit)] in
        match row_loop fuel rows4x4 columns4x4 row4x4_start sb4x4 (y + 16) with
        | Some rest => Some (calls ++ rest)
        | None => None
        end
      end
    else Some []
  end.

(** [PostFilter::ApplyDeblockFilterForOneSuperBlockRow(row4x4_start,
    sb4x4)] of deblock.cc, [rows4x4] and [columns4x4] being those of
    [frame_header_]: the filter calls it makes. The column loop tests its
    condition at most [columns4x4 + 1] times and the row loop at most
    [sb4x4 + 1] times when [kNum4x4InLoopFilterUnit >= 1]. *)
Definition ApplyDeblockFilterForOneSuperBlockRow (rows4x4 columns4x4
  row4x4_start sb4x4 : Z) : option (list DeblockCall) :=
  row_loop (S (Z.to_nat sb4x4)) rows4x4 columns4x4 row4x4_start sb4x4 0.

End WithUnit.

End DeblockOrder.

Module FilterSchedule.

(** The [Do*] predicates of [PostFilter] (post_filter.h, not among the
    sources) are fixed for a frame; they are inputs of the model. *)
Record Flags := mkFlags {
  DoDeblock : bool;
  DoCdef : bool;
  DoSuperRes : bool;
  DoRestoration : bool;
  DoBorderExtensionInLoop : bool
}.

(** The members of [PostFilter] that [ExtendBordersForReferenceFrame]
    reads: [frame_header_.refresh_frame_flags], [planes_], [height_],
    [upscaled_width_] and the per-plane [subsampling_x_], [subsampling_y_]. *)
Record FrameInfo := mkFrameInfo {
  refresh_frame_flags : Z;
  planes_ : Z;
  height_ : Z;
  upscaled_width_ : Z;
  subsampling_x_ : Z -> Z;
  subsampling_y_ : Z -> Z
}.

(** The calls [PostFilter::ApplyFilteringForOneSuperBlockRow] makes, with
    their arguments. *)
Inductive FilterCall :=
| ApplyDeblockFilterForOneSuperBlockRow (row4x4 sb4x4 : Z)
| SetupDeblockBuffer (row4x4 sb4x4 : Z)
| ApplyCdefForOneSuperBlockRow (row4x4 sb4x4 : Z)
| ApplySuperResForOneSuperBlockRow (row4x4 sb4x4 : Z)
| CopyBorderForRestoration (row4x4 sb4x4 : Z)
| ApplyLoopRestorationForOneSuperBlockRow (row4x4 sb4x4 : Z)
| ExtendBordersForReferenceFrameRows (row4x4 sb4x4 : Z)
| ExtendBordersForReferenceFrameAll.

(** One [ExtendFrame] call of [ExtendBordersForReferenceFrame(row4x4,
    sb4x4)]: the plane, its first row, the width and number of rows, and
    whether the top and bottom borders are extended. *)
Record ExtendFrameCall := mkExtendFrameCall {
  ext_plane : Z;
  ext_row : Z;
  ext_width : Z;
  ext_num_rows : Z;
  ext_top : bool;
  ext_bottom : bool
}.

Section WithHelpers.
(** [RightShiftWithRounding] (utils/common.h, not among the sources) is a
    parameter of the model. *)
Variable RightShiftWithRounding : Z -> Z -> Z.

(** The plane loop of [ExtendBordersForReferenceFrame(row4x4, sb4x4)],
    from [plane] on, threading [progress_row_]; [kPlaneY] is plane 0. *)
Fixpoint extend_planes (fuel : nat) (fi : FrameInfo)
  (row_offset height_offset row4x4 sb4x4 plane progress_row : Z)
  : list ExtendFrameCall * Z :=
  match fuel with
  | O => ([], progress_row)
  | S fuel' =>
      if plane <? planes_ fi then
        let plane_width :=
          RightShiftWithRounding (upscaled_width_ fi) (subsampling_x_ fi plane) in
        let plane_height :=
          RightShiftWithRounding (height_ fi) (subsampling_y_ fi plane) in
        let row := Z.shiftr (4 * row4x4 - row_offset) (subsampling_y_ fi plane) in
        if row >=? plane_height then ([], progress_row)
        else
          let num_rows :=
            Z.min (RightShiftWithRounding (4 * sb4x4 - height_offset)
                     (subsampling_y_ fi plane))
                  (plane_height - row) in
          let progress_row :=
            if plane =? 0 then row + num_rows else progress_row in
          let copy_bottom := row + num_rows =? plane_height in
          let '(rest, p) :=
            extend_planes fuel' fi row_offset height_offset row4x4 sb4x4
              (plane + 1) progress_row in
          (mkExtendFrameCall plane row plane_width num_rows (row =? 0)
             copy_bottom :: rest, p)
      else ([], progress_row)
  end.

(** [PostFilter::ExtendBordersForReferenceFrame(row4x4, sb4x4)]: the
    [ExtendFrame] calls and the new [progress_row_]. *)
Definition ExtendBordersForReferenceFrame (fl : Flags) (fi : FrameInfo)
  (row4x4 sb4x4 progress_row : Z) : list ExtendFrameCall * Z :=
  if (refresh_frame_flags fi =? 0) || negb (DoBorderExtensionInLoop fl) then
    ([], progress_row)
  else
    let loop_restoration_row_offset :=
      if DoRestoration fl then (if row4x4 =? 0 then 0 else 8) else 0 in
    let loop_restoration_height_offset :=
      if DoRestoration fl && (row4x4 =? 0) then 8 else 0 in
    extend_planes (Z.to_nat (planes_ fi)) fi loop_restoration_row_offset
      loop_restoration_height_offset row4x4 sb4x4 0 progress_row.

(** The calls of [ApplyFilteringForOneSuperBlockRow] for the superblock
    row before [row4x4], the body of [if (previous_row4x4 >= 0)]. *)
Definition previous_row_calls (fl : Flags) (previous_row4x4 sb4x4 : Z)
  : list FilterCall :=
  (if DoRestoration fl && DoCdef fl then
     [SetupDeblockBuffer previous_row4x4 sb4x4] else [])
  ++ (if DoCdef fl then [ApplyCdefForOneSuperBlockRow previous_row4x4 sb4x4]
      else [])
  ++ (if DoSuperRes fl then
        [ApplySuperResForOneSuperBlockRow previous_row4x4 sb4x4] else [])
  ++ (if DoRestoration fl then
        [CopyBorderForRestoration previous_row4x4 sb4x4;
         ApplyLoopRestorationForOneSuperBlockRow previous_row4x4 sb4x4]
      else [])
  ++ [ExtendBordersForReferenceFrameRows previous_row4x4 sb4x4].

(** The calls of [ApplyFilteringForOneSuperBlockRow] for the last
    superblock row, the body of [if (is_last_row)]. *)
Definition last_row_calls (fl : Flags) (row4x4 sb4x4 : Z) : list FilterCall :=
  (if DoRestoration fl && DoCdef fl then [SetupDeblockBuffer row4x4 sb4x4]
   else [])
  ++ (if DoCdef fl then [ApplyCdefForOneSuperBlockRow row4x4 sb4x4] else [])
  ++ (if DoSuperRes fl then [ApplySuperResForOneSuperBlockRow row4x4 sb4x4]
      else [])
  ++ (if DoRestoration fl then
        [CopyBorderForRestoration row4x4 sb4x4;
         ApplyLoopRestorationForOneSuperBlockRow row4x4 sb4x4;
         ApplyLoopRestorationForOneSuperBlockRow (row4x4 + sb4x4) 16]
      else [])
  ++ [ExtendBordersForReferenceFrameRows row4x4 sb4x4]
  ++ (if DoRestoration fl then
        [ExtendBordersForReferenceFrameRows (row4x4 + sb4x4) 16] else [])
  ++ (if negb (DoBorderExtensionInLoop fl) then
        [ExtendBordersForReferenceFrameAll] else []).

(** [PostFilter::ApplyFilteringForOneSuperBlockRow(row4x4, sb4x4,
    is_last_row)] from [progress_row_]: the calls made, the new
    [progress_row_] and the return value. *)
Definition ApplyFilteringForOneSuperBlockRow (fl : Flags) (fi : FrameInfo)
  (progress_row row4x4 sb4x4 : Z) (is_last_row : bool)
  : list FilterCall * Z * Z :=
  if row4x4 <? 0 then ([], progress_row, -1)
  else
    let c1 :=
      if DoDeblock fl then [ApplyDeblockFilterForOneSuperBlockRow row4x4 sb4x4]
      else [] in
    let previous_row4x4 := row4x4 - sb4x4 in
    let '(c2, p2) :=
      if previous_row4x4 >=? 0 then
        (previous_row_calls fl previous_row4x4 sb4x4,
         snd (ExtendBordersForReferenceFrame fl fi previous_row4x4 sb4x4
                progress_row))
      else ([], progress_row) in
    let '(c3, p3) :=
      if is_last_row then
        let p := snd (ExtendBordersForReferenceFrame fl fi row4x4 sb4x4 p2) in
        (last_row_calls fl row4x4 sb4x4,
         if DoRestoration fl then
           snd (ExtendBordersForReferenceFrame fl fi (row4x4 + sb4x4) 16 p)
         else p)
      else ([], p2) in
    (c1 ++ c2 ++ c3, p3, if is_last_row then height_ fi else p3).

(** A sequence of [ApplyFilteringForOneSuperBlockRow] calls on one
    [PostFilter], each given as [(row4x4, is_last_row)]: all the calls
    made, and the return values. *)
Fixpoint run_rows (fl : Flags) (fi : FrameInfo) (progress_row sb4x4 : Z)
  (rows : list (Z * bool)) : list FilterCall * list Z :=
  match rows with
  | [] => ([], [])
  | (r, last) :: rest =>
      let '(c, p, ret) :=
        ApplyFilteringForOneSuperBlockRow fl fi progress_row r sb4x4 last in
      let '(c', rets) := run_rows fl fi p sb4x4 rest in
      (c ++ c', ret :: rets)
  end.

(** The [ExtendFrame] calls made by the
    [ExtendBordersForReferenceFrame(row4x4, sb4x4)] calls of a list. *)
Fixpoint extend_frame_calls (fl : Flags) (fi : FrameInfo) (progress_row : Z)
  (calls : list FilterCall) : list ExtendFrameCall :=
  match calls with
  | [] => []
  | ExtendBordersForReferenceFrameRows r s :: rest =>
      let '(e, p) := ExtendBordersForReferenceFrame fl fi r s progress_row in
      e ++ extend_frame_calls fl fi p rest
  | _ :: rest => extend_frame_calls fl fi progress_row rest
  end.

End WithHelpers.

(** The rows of [plane] that a list of [ExtendFrame] calls extends, in the
    order of the calls. *)
Definition extended_rows (plane : Z) (calls : list ExtendFrameCall) : list Z :=
  flat_map (fun e => SuperRes.seqZ (ext_row e) (ext_num_rows e))
    (filter (fun e => ext_plane e =? plane) calls).

(** The calls of one kind in a list of calls. *)
Definition is_deblock_call (c : FilterCall) : bool :=
  match c with ApplyDeblockFilterForOneSuperBlockRow _ _ => true | _ => false end.
Definition is_cdef_call (c : FilterCall) : bool :=
  match c with ApplyCdefForOneSuperBlockRow _ _ => true | _ => false end.
Definition is_superres_call (c : FilterCall) : bool :=
  match c with ApplySuperResForOneSuperBlockRow _ _ => true | _ => false end.
Definition is_loop_restoration_call (c : FilterCall) : bool :=
  match c with ApplyLoopRestorationForOneSuperBlockRow _ _ => true | _ => false end.

End FilterSchedule.

Module MvScan.

(** [GetMinimumStep] (motion_vector.cc). *)
Definition GetMinimumStep (block_width_or_height4x4 delta_row_or_column : Z)
  : Z :=
  if 16 <=? block_width_or_height4x4 then 4
  else if delta_row_or_column <? -1 then 2
  else 0.

(** The [do ... while (bps < end_bps)] loop of [ScanRow] and [ScanColumn],
    with [bps] as an offset [pos] from its start and [unit] the pointer
    increment per 4x4 step ([1] in [ScanRow], the stride in [ScanColumn]).
    [num4x4_at pos] is [kNum4x4BlocksWide[mv_bp.size]] (resp.
    [kNum4x4BlocksHigh]) of the block whose parameters [bps] points to.
    The result lists the [AddReferenceMvCandidate] calls as
    [(offset, weight)], the weight being [MultiplyBy2(step)]. *)
Fixpoint scan_loop (fuel : nat) (extent4x4 min_step unit : Z)
  (num4x4_at : Z -> Z) (pos end_bps : Z) : option (list (Z * Z)) :=
  match fuel with
  | O => None
  | S fuel' =>
      let step := Z.max (Z.min extent4x4 (num4x4_at pos)) min_step in
      let pos' := pos + step * unit in
      let rest :=
        if pos' <? end_bps then
          scan_loop fuel' extent4x4 min_step unit num4x4_at pos' end_bps
        else Some [] in
      option_map (cons (pos, 2 * step)) rest
  end.

(** [ScanRow]: [top_inside] is [block.tile.IsTopInside(mv_row + 1)]; the
    offsets are counted from [BlockParametersAddress(mv_row, mv_column)]. *)
Definition ScanRow (top_inside : bool)
  (width4x4 column4x4 columns4x4 delta_row : Z) (num4x4_at : Z -> Z)
  : option (list (Z * Z)) :=
  if negb top_inside then Some []
  else
    let min_step := GetMinimumStep width4x4 delta_row in
    let len := Z.min (Z.min width4x4 (columns4x4 - column4x4)) 16 in
    scan_loop (S (Z.to_nat len)) width4x4 min_step 1 num4x4_at 0 len.

(** [ScanColumn]: [left_inside] is [block.tile.IsLeftInside(mv_column + 1)],
    [stride] is [block.tile.BlockParametersStride()]; the offsets are
    counted from [BlockParametersAddress(mv_row, mv_column)]. *)
Definition ScanColumn (left_inside : bool)
  (height4x4 row4x4 rows4x4 delta_column stride : Z) (num4x4_at : Z -> Z)
  : option (list (Z * Z)) :=
  if negb left_inside then Some []
  else
    let min_step := GetMinimumStep height4x4 delta_column in
    let len := Z.min (Z.min height4x4 (rows4x4 - row4x4)) 16 in
    scan_loop (S (Z.to_nat len)) height4x4 min_step stride num4x4_at 0
      (stride * len).

(** [IsWithinTheSame64x64Block] (motion_vector.cc). *)
Definition IsWithinTheSame64x64Block (row4x4 column4x4 delta_row delta_column : Z)
  : bool :=
  let row := Z.land row4x4 15 + delta_row in
  let column := Z.land column4x4 15 + delta_column in
  (0 <=? row) && (row <? 16) && (0 <=? column) && (column <? 16).

(** [ComputeContexts] (motion_vector.cc): [(new_mv_context,
    reference_mv_context)]. *)
Definition ComputeContexts (found_new_mv : bool) (nearest_matches total_matches : Z)
  : Z * Z :=
  if nearest_matches =? 0 then (Z.min total_matches 1, total_matches)
  else if nearest_matches =? 1 then (3 - Z.b2z found_new_mv, 2 + total_matches)
  else (5 - Z.b2z found_new_mv, 5).

End MvScan.

Module LoopRestorationRows.

(** The members of [PostFilter] that
    [ApplyLoopRestorationForOneSuperBlockRow] reads: [planes_],
    [frame_header_.height], [frame_header_.upscaled_width], the per-plane
    [subsampling_x_] and [subsampling_y_],
    [frame_header_.loop_restoration.type] and [.unit_size], and
    [restoration_info_->num_vertical_units]. *)
Record LrFrame := mkLrFrame {
  lr_planes : Z;
  lr_height : Z;
  lr_upscaled_width : Z;
  lr_subsampling_x : Z -> Z;
  lr_subsampling_y : Z -> Z;
  lr_type : Z -> Z;
  lr_unit_size : Z -> Z;
  lr_num_vertical_units : Z -> Z
}.

(** One [ApplyLoopRestorationForSuperBlock(plane, x, y, unit_row,
    current_process_unit_height, process_unit_width)] call. *)
Record LrUnit := mkLrUnit {
  unit_plane : Z;
  unit_x : Z;
  unit_y : Z;
  unit_row : Z;
  unit_height : Z;
  unit_width : Z
}.

Section WithConstants.
(** [kLoopRestorationTypeNone], [kRestorationUnitOffset],
    [kRestorationProcessingUnitSize] (utils/constants.h) and
    [RightShiftWithRounding] (utils/common.h), not among the sources, are
    parameters of the model. *)
Variables kLoopRestorationTypeNone kRestorationUnitOffset
  kRestorationProcessingUnitSize : Z.
Variable RightShiftWithRounding : Z -> Z -> Z.

(** The arrays [plane_process_unit_width] and [plane_process_unit_height]
    ([kPlaneU] is 1, [kPlaneV] is 2); an index past [kMaxPlanes] reads 0. *)
Definition plane_process_unit_width (f : LrFrame) (plane : Z) : Z :=
  nth (Z.to_nat plane)
    [kRestorationProcessingUnitSize;
     Z.shiftr kRestorationProcessingUnitSize (lr_subsampling_x f 1);
     Z.shiftr kRestorationProcessingUnitSize (lr_subsampling_x f 2)] 0.
Definition plane_process_unit_height (f : LrFrame) (plane : Z) : Z :=
  nth (Z.to_nat plane)
    [kRestorationProcessingUnitSize;
     Z.shiftr kRestorationProcessingUnitSize (lr_subsampling_y f 1);
     Z.shiftr kRestorationProcessingUnitSize (lr_subsampling_y f 2)] 0.

(** [for (int column4x4 = 0;; column4x4 += 16)], from [column4x4] on,
    with its [break] when [x >= plane_width]. *)
Fixpoint lr_column_loop (fuel : nat) (plane column4x4 subsampling_x y
  unit_row current_process_unit_height process_unit_width plane_width : Z)
  : option (list LrUnit) :=
  match fuel with
  | O => None
  | S fuel' =>
      let x := Z.shiftr (4 * column4x4) subsampling_x in
      if x >=? plane_width then Some []
      else
        option_map
          (cons (mkLrUnit plane x y unit_row current_process_unit_height
                   process_unit_width))
          (lr_column_loop fuel' plane (column4x4 + 16) subsampling_x y
             unit_row current_process_unit_height process_unit_width
             plane_width)
  end.

(** [for (int sb_y = 0; sb_y < sb4x4; sb_y += 16)], from [sb_y] on, with
    its [break] when [y >= plane_height]. *)
Fixpoint lr_sb_y_loop (fuel : nat) (f : LrFrame) (plane row4x4_start sb4x4
  sb_y unit_height_offset plane_height plane_width num_vertical_units
  process_unit_width : Z) : option (list LrUnit) :=
  match fuel with
  | O => None
  | S fuel' =>
      if sb_y <? sb4x4 then
        let row4x4 := row4x4_start + sb_y in
        let y := Z.shiftr (4 * row4x4 - (if row4x4 =? 0 then 0 else 8))
                   (lr_subsampling_y f plane) in
        if y >=? plane_height then Some []
        else
          let plane_unit_size := lr_unit_size f plane in
          let unit_row :=
            Z.min (Z.quot (y + unit_height_offset) plane_unit_size)
              (num_vertical_units - 1) in
          let expected_height :=
            plane_process_unit_height f plane
            + (if y =? 0 then - unit_height_offset else 0) in
          let current_process_unit_height :=
            if y + expected_height <=? plane_height then expected_height
            else plane_height - y in
          match lr_column_loop (S (Z.to_nat plane_width)) plane 0
                  (lr_subsampling_x f plane) y unit_row
                  current_process_unit_height process_unit_width
                  plane_width with
          | None => None
          | Some units =>
              match lr_sb_y_loop fuel' f plane row4x4_start sb4x4 (sb_y + 16)
                      unit_height_offset plane_height plane_width
                      num_vertical_units process_unit_width with
              | None => None
              | Some rest => Some (units ++ rest)
              end
          end
      else Some []
  end.

(** [for (int plane = 0; plane < planes_; ++plane)], from [plane] on. *)
Fixpoint lr_plane_loop (fuel : nat) (f : LrFrame) (row4x4_start sb4x4 plane : Z)
  : option (list LrUnit) :=
  match fuel with
  | O => None
  | S fuel' =>
      if plane <? lr_planes f then
        if lr_type f plane =? kLoopRestorationTypeNone then
          lr_plane_loop fuel' f row4x4_start sb4x4 (plane + 1)
        else
          let unit_height_offset :=
            Z.shiftr kRestorationUnitOffset (lr_subsampling_y f plane) in
          let plane_height :=
            RightShiftWithRounding (lr_height f) (lr_subsampling_y f plane) in
          let plane_width :=
            RightShiftWithRounding (lr_upscaled_width f)
              (lr_subsampling_x f plane) in
          let num_vertical_units := lr_num_vertical_units f plane in
          let process_unit_width := plane_process_unit_width f plane in
          match lr_sb_y_loop (S (Z.to_nat sb4x4)) f plane row4x4_start sb4x4 0
                  unit_height_offset plane_height plane_width
                  num_vertical_units process_unit_width with
          | None => None
          | Some units =>
              option_map (app units)
                (lr_plane_loop fuel' f row4x4_start sb4x4 (plane + 1))
          end
      else Some []
  end.

(** [PostFilter::ApplyLoopRestorationForOneSuperBlockRow(row4x4_start,
    sb4x4)] (post_filter.cc): its [ApplyLoopRestorationForSuperBlock]
    calls, in order. *)
Definition ApplyLoopRestorationForOneSuperBlockRow (f : LrFrame)
  (row4x4_start sb4x4 : Z) : option (list LrUnit) :=
  lr_plane_loop (S (Z.to_nat (lr_planes f))) f row4x4_start sb4x4 0.

(** The [ApplyLoopRestorationForSuperBlock] calls made by the
    [ApplyLoopRestorationForOneSuperBlockRow] calls of a list of
    [ApplyFilteringForOneSuperBlockRow] calls. *)
Fixpoint loop_restoration_units (f : LrFrame)
  (calls : list FilterSchedule.FilterCall) : option (list LrUnit) :=
  match calls with
  | [] => Some []
  | FilterSchedule.ApplyLoopRestorationForOneSuperBlockRow r s :: rest =>
      match ApplyLoopRestorationForOneSuperBlockRow f r s with
      | None => None
      | Some units => option_map (app units) (loop_restoration_units f rest)
      end
  | _ :: rest => loop_restoration_units f rest
  end.

End WithConstants.

(** For a 4:x:x frame with [kRestorationUnitOffset = 8] and
    [kRestorationProcessingUnitSize = 64]: the first row [y] and the
    [current_process_unit_height] of the luma band that
    [ApplyLoopRestorationForOneSuperBlockRow] restores at 4x4 row
    [16 * t] of a frame of height [H], and its
    [ApplyLoopRestorationForSuperBlock] calls. *)
Definition ystart (t : nat) : Z :=
  64 * Z.of_nat t - (if Nat.eqb t 0 then 0 else 8).
Definition bandh (H : Z) (t : nat) : Z :=
  let e := 64 - (if Nat.eqb t 0 then 8 else 0) in
  if ystart t + e <=? H then e else H - ystart t.

Definition luma_band_units (f : LrFrame) (t : nat) : list LrUnit :=
  map (fun j => mkLrUnit 0 (64 * Z.of_nat j) (ystart t)
                  (Z.min (Z.quot (ystart t + 8) (lr_unit_size f 0))
                     (lr_num_vertical_units f 0 - 1))
                  (bandh (lr_height f) t) 64)
    (seq 0 (Z.to_nat ((lr_upscaled_width f + 63) / 64))).

End LoopRestorationRows.

Module CdefRows.

(** The members of [PostFilter] that [ApplyCdefForOneSuperBlockRow]
    reads: [frame_header_.rows4x4], [frame_header_.columns4x4] and the
    table [cdef_index_]. *)
Record CdefFrame := mkCdefFrame {
  cdef_rows4x4 : Z;
  cdef_columns4x4 : Z;
  cdef_index_ : Z -> Z -> Z
}.

(** One [ApplyCdefForOneUnit(cdef_block_, index, block_width4x4,
    block_height4x4, row4x4, column4x4)] call. *)
Record CdefUnit := mkCdefUnit {
  cu_index : Z;
  cu_width4x4 : Z;
  cu_height4x4 : Z;
  cu_row4x4 : Z;
  cu_column4x4 : Z
}.

(** [step_64x64] of [ApplyCdefForOneSuperBlockRow]. *)
Definition step_64x64 : Z := 16.

(** [for (int column4x4 = 0; column4x4 < frame_header_.columns4x4;
    column4x4 += step_64x64)], from [column4x4] on. [DivideBy16]
    (utils/common.h, not among the sources) is taken to be [x >> 4], the
    shift its name stands for. *)
Fixpoint cdef_column_loop (fuel : nat) (f : CdefFrame) (row4x4 column4x4 : Z)
  : option (list CdefUnit) :=
  match fuel with
  | O => None
  | S fuel' =>
      if column4x4 <? cdef_columns4x4 f then
        let index := cdef_index_ f (Z.shiftr row4x4 4) (Z.shiftr column4x4 4) in
        let block_width4x4 :=
          Z.min step_64x64 (cdef_columns4x4 f - column4x4) in
        let block_height4x4 := Z.min step_64x64 (cdef_rows4x4 f - row4x4) in
        option_map
          (cons (mkCdefUnit index block_width4x4 block_height4x4 row4x4
                   column4x4))
          (cdef_column_loop fuel' f row4x4 (column4x4 + step_64x64))
      else Some []
  end.

(** [for (int y = 0; y < sb4x4; y += step_64x64)], from [y] on, with its
    [break] when [row4x4 >= frame_header_.rows4x4]. *)
Fixpoint cdef_y_loop (fuel : nat) (f : CdefFrame) (row4x4_start sb4x4 y : Z)
  : option (list CdefUnit) :=
  match fuel with
  | O => None
  | S fuel' =>
      if y <? sb4x4 then
        let row4x4 := row4x4_start + y in
        if row4x4 >=? cdef_rows4x4 f then Some []
        else
          match cdef_column_loop (S (Z.to_nat (cdef_columns4x4 f))) f row4x4 0
          with
          | None => None
          | Some units =>
              option_map (app units)
                (cdef_y_loop fuel' f row4x4_start sb4x4 (y + step_64x64))
          end
      else Some []
  end.

(** [PostFilter::ApplyCdefForOneSuperBlockRow(row4x4_start, sb4x4)]: its
    [ApplyCdefForOneUnit] calls, in order. *)
Definition ApplyCdefForOneSuperBlockRow (f : CdefFrame) (row4x4_start sb4x4 : Z)
  : option (list CdefUnit) :=
  cdef_y_loop (S (Z.to_nat sb4x4)) f row4x4_start sb4x4 0.

(** The [ApplyCdefForOneUnit] calls made by the
    [ApplyCdefForOneSuperBlockRow] calls of a list of
    [ApplyFilteringForOneSuperBlockRow] calls. *)
Fixpoint cdef_units (f : CdefFrame) (calls : list FilterSchedule.FilterCall)
  : option (list CdefUnit) :=
  match calls with
  | [] => Some []
  | FilterSchedule.ApplyCdefForOneSuperBlockRow r s :: rest =>
      match ApplyCdefForOneSuperBlockRow f r s with
      | None => None
      | Some units => option_map (app units) (cdef_units f rest)
      end
  | _ :: rest => cdef_units f rest
  end.

(** The [ApplyCdefForOneUnit] call for the 64x64 block at row [t] and
    column [c] of the 64x64 grid of a frame. *)
Definition cdef_grid_unit (f : CdefFrame) (t c : nat) : CdefUnit :=
  mkCdefUnit (cdef_index_ f (Z.of_nat t) (Z.of_nat c))
    (Z.min 16 (cdef_columns4x4 f - 16 * Z.of_nat c))
    (Z.min 16 (cdef_rows4x4 f - 16 * Z.of_nat t))
    (16 * Z.of_nat t) (16 * Z.of_nat c).

(** The number of 64x64 blocks across [n] 4x4 units, rounded up. *)
Definition num64 (n : Z) : nat := Z.to_nat ((n + 15) / 16).

End CdefRows.

Module SuperResRows.

(** The members of [PostFilter] that [ApplySuperResForOneSuperBlockRow] and
    [ApplySuperRes] read: [planes_], [frame_header_.rows4x4],
    [frame_header_.columns4x4], [subsampling_x_] and [subsampling_y_]. *)
Record SrFrame := mkSrFrame {
  sr_planes : Z;
  sr_rows4x4 : Z;
  sr_columns4x4 : Z;
  sr_subsampling_x : Z -> Z;
  sr_subsampling_y : Z -> Z
}.

(** One [dsp_.super_res_row(line_buffer_start, ..., input)] call: the plane,
    the row of the plane's [cdef_buffer_] that [input] points to (and that
    the call reads through the line buffer and writes back), and the
    [plane_width] copied into the line buffer. *)
Record SuperResRowCall := mkSuperResRowCall {
  srr_plane : Z;
  srr_row : Z;
  srr_width : Z
}.

(** [for (int y = 0; y < plane_height; ++y, input += input_stride)], from
    [y] on, with [input] the row [input_row] of the plane. *)
Fixpoint superres_y_loop (fuel : nat) (plane plane_width plane_height
  input_row y : Z) : list SuperResRowCall :=
  match fuel with
  | O => []
  | S fuel' =>
      if y <? plane_height then
        mkSuperResRowCall plane input_row plane_width
        :: superres_y_loop fuel' plane plane_width plane_height
             (input_row + 1) (y + 1)
      else []
  end.

(** [for (int plane = kPlaneY; plane < planes_; ++plane)] of
    [ApplySuperRes], from [plane] on; [buffers plane] is the row of the
    plane that [buffers[plane]] points to, and [MultiplyBy4(x)] is
    [4 * x]. Both bit-depth branches make the same calls. *)
Fixpoint superres_plane_loop (fuel : nat) (f : SrFrame) (buffers : Z -> Z)
  (rows4x4 chroma_subsampling_y plane : Z) : list SuperResRowCall :=
  match fuel with
  | O => []
  | S fuel' =>
      if plane <? sr_planes f then
        let subsampling_x := sr_subsampling_x f plane in
        let subsampling_y := if plane =? 0 then 0 else chroma_subsampling_y in
        let plane_width := Z.shiftr (4 * sr_columns4x4 f) subsampling_x in
        let plane_height := Z.shiftr (4 * rows4x4) subsampling_y in
        superres_y_loop (S (Z.to_nat plane_height)) plane plane_width
          plane_height (buffers plane) 0
        ++ superres_plane_loop fuel' f buffers rows4x4 chroma_subsampling_y
             (plane + 1)
      else []
  end.

(** [PostFilter::ApplySuperRes(buffers, strides, rows4x4,
    chroma_subsampling_y, line_buffer_offset)]: its [super_res_row]
    calls. *)
Definition ApplySuperRes (f : SrFrame) (buffers : Z -> Z)
  (rows4x4 chroma_subsampling_y : Z) : list SuperResRowCall :=
  superres_plane_loop (S (Z.to_nat (sr_planes f))) f buffers rows4x4
    chroma_subsampling_y 0.

(** [PostFilter::ApplySuperResForOneSuperBlockRow(row4x4_start, sb4x4)]:
    [buffers[plane]] is [cdef_buffer_[plane]] advanced by
    [MultiplyBy4(row4x4_start) >> subsampling_y_[plane]] rows, and
    [kPlaneU] is plane 1. *)
Definition ApplySuperResForOneSuperBlockRow (f : SrFrame)
  (row4x4_start sb4x4 : Z) : list SuperResRowCall :=
  let buffers plane :=
    Z.shiftr (4 * row4x4_start) (sr_subsampling_y f plane) in
  let num_rows4x4 := Z.min sb4x4 (sr_rows4x4 f - row4x4_start) in
  ApplySuperRes f buffers num_rows4x4 (sr_subsampling_y f 1).

(** The [super_res_row] calls made by the
    [ApplySuperResForOneSuperBlockRow] calls of a list of
    [ApplyFilteringForOneSuperBlockRow] calls. *)
Fixpoint superres_row_calls (f : SrFrame)
  (calls : list FilterSchedule.FilterCall) : list SuperResRowCall :=
  match calls with
  | [] => []
  | FilterSchedule.ApplySuperResForOneSuperBlockRow r s :: rest =>
      ApplySuperResForOneSuperBlockRow f r s ++ superres_row_calls f rest
  | _ :: rest => superres_row_calls f rest
  end.

End SuperResRows.

Module CopyBorderRows.
Import FilterSchedule.

(** One [ExtendFrame(start, plane_width, plane_height, stride,
    kRestorationBorder, kRestorationBorder, top, bottom)] call of
    [CopyBorderForRestoration]: the plane, the [row4x4] that
    [GetBufferOffset(cdef_buffer_[plane], stride, plane, row4x4, 0)] is
    given for [start], the width and height, and whether the top and
    bottom borders are [kRestorationBorder] rather than 0. *)
Record CopyBorderCall := mkCopyBorderCall {
  cb_plane : Z;
  cb_row4x4 : Z;
  cb_width : Z;
  cb_height : Z;
  cb_top : bool;
  cb_bottom : bool
}.

Section WithHelpers.
(** [RightShiftWithRounding] (utils/common.h, not among the sources) is a
    parameter of the model. *)
Variable RightShiftWithRounding : Z -> Z -> Z.

(** The plane loop of [CopyBorderForRestoration(row4x4, sb4x4)], from
    [plane] on; [rows4x4] is [frame_header_.rows4x4] and
    [MultiplyBy4(x)] is [4 * x]. Both bit-depth branches make the same
    call. *)
Fixpoint copy_border_planes (fuel : nat) (fi : FrameInfo)
  (rows4x4 row4x4 sb4x4 plane : Z) : list CopyBorderCall :=
  match fuel with
  | O => []
  | S fuel' =>
      if plane <? planes_ fi then
        let row := Z.shiftr (4 * row4x4) (subsampling_y_ fi plane) in
        let plane_width :=
          RightShiftWithRounding (upscaled_width_ fi) (subsampling_x_ fi plane) in
        let plane_height :=
          RightShiftWithRounding (Z.min (4 * sb4x4) (height_ fi - 4 * row4x4))
            (subsampling_y_ fi plane) in
        let copy_bottom := row4x4 + sb4x4 >=? rows4x4 in
        mkCopyBorderCall plane row4x4 plane_width plane_height (row =? 0)
          copy_bottom
        :: copy_border_planes fuel' fi rows4x4 row4x4 sb4x4 (plane + 1)
      else []
  end.

(** [PostFilter::CopyBorderForRestoration(row4x4, sb4x4)]: its
    [ExtendFrame] calls. *)
Definition CopyBorderForRestoration (fi : FrameInfo) (rows4x4 row4x4 sb4x4 : Z)
  : list CopyBorderCall :=
  copy_border_planes (S (Z.to_nat (planes_ fi))) fi rows4x4 row4x4 sb4x4 0.

(** The [ExtendFrame] calls made by the [CopyBorderForRestoration] calls of
    a list of [ApplyFilteringForOneSuperBlockRow] calls. *)
Fixpoint copy_border_calls (fi : FrameInfo) (rows4x4 : Z)
  (calls : list FilterCall) : list CopyBorderCall :=
  match calls with
  | [] => []
  | FilterSchedule.CopyBorderForRestoration r s :: rest =>
      CopyBorderForRestoration fi rows4x4 r s
      ++ copy_border_calls fi rows4x4 rest
  | _ :: rest => copy_border_calls fi rows4x4 rest
  end.

End WithHelpers.

Definition is_copy_border_call (c : FilterCall) : bool :=
  match c with FilterSchedule.CopyBorderForRestoration _ _ => true | _ => false end.

End CopyBorderRows.

Module DeblockThreaded.

(** [LoopFilterType]: the two passes of the deblocking filter. *)
Inductive LoopFilterType := kLoopFilterTypeVertical | kLoopFilterTypeHorizontal.

(** The members of [PostFilter] that [ApplyDeblockFilterThreaded] reads:
    [frame_header_.rows4x4], [frame_header_.columns4x4], [planes_] and
    [frame_header_.loop_filter.level]. *)
Record DtFrame := mkDtFrame {
  dt_rows4x4 : Z;
  dt_columns4x4 : Z;
  dt_planes : Z;
  dt_loop_filter_level : Z -> Z
}.

(** One [(this->*deblock_filter)(plane, row4x4, column4x4, unit_id)] call;
    [deblock_filter] is [deblock_filter_type_table_[kDeblockFilterBitMask]
    [type]], named by its [type]. *)
Record DeblockCall := mkDeblockCall {
  dc_type : LoopFilterType;
  dc_plane : Z;
  dc_row4x4 : Z;
  dc_column4x4 : Z;
  dc_unit_id : Z
}.

(** Where a thread running [DeblockFilterWorker] is: about to
    [fetch_add] the job counter in the [while] condition, in the column
    loop of a job (with the locals [plane], [row_unit], [row4x4],
    [column4x4] and [column_unit]), or returned. *)
Inductive WorkerState :=
| WorkerIdle
| WorkerInJob (plane row_unit row4x4 column4x4 column_unit : Z)
| WorkerExited.

(** The shared state of one pass: [job_counter], the threads, and the
    filter calls made so far, in order. *)
Record Shared := mkShared {
  job_counter : Z;
  workers : list WorkerState;
  calls_log : list DeblockCall
}.

Fixpoint set_worker (ws : list WorkerState) (w : nat) (x : WorkerState)
  : list WorkerState :=
  match ws, w with
  | [], _ => []
  | _ :: ws', O => x :: ws'
  | y :: ws', S w' => y :: set_worker ws' w' x
  end.

Definition all_exited (ws : list WorkerState) : bool :=
  forallb (fun x => match x with WorkerExited => true | _ => false end) ws.

Section WithConstants.
(** [kNum4x4InLoopFilterMaskUnit] and [GetDeblockUnitId] (post_filter.h,
    not among the sources) are parameters of the model. *)
Variable kNum4x4InLoopFilterMaskUnit : Z.
Variable GetDeblockUnitId : Z -> Z -> Z.

(** [for (int plane = kPlaneU; plane < planes_; ++plane)] of
    [ApplyDeblockFilterThreaded], from [plane] on: the planes it appends to
    [planes]. *)
Fixpoint chroma_planes (fuel : nat) (f : DtFrame) (plane : Z) : list Z :=
  match fuel with
  | O => []
  | S fuel' =>
      if plane <? dt_planes f then
        (if negb (dt_loop_filter_level f (plane + 1) =? 0) then [plane] else [])
        ++ chroma_planes fuel' f (plane + 1)
      else []
  end.

(** [planes[0 .. num_planes - 1]]: [kPlaneY], then the chroma planes with a
    non-zero loop filter level. *)
Definition deblock_planes (f : DtFrame) : list Z :=
  0 :: chroma_planes (Z.to_nat (dt_planes f)) f 1.

(** One atomic step of thread [w] in [DeblockFilterWorker(jobs_per_plane,
    planes, num_planes, &job_counter, deblock_filter)]: the [fetch_add] of
    the [while] condition, or one iteration (or the exit) of the column
    loop. C's [/] and [%] truncate ([Z.quot], [Z.rem]). *)
Definition worker_step (type : LoopFilterType) (f : DtFrame) (planes : list Z)
  (jobs_per_plane : Z) (w : nat) (s : Shared) : Shared :=
  let num_planes := Z.of_nat (length planes) in
  let total_jobs := jobs_per_plane * num_planes in
  match nth_error (workers s) w with
  | Some WorkerIdle =>
      let job_index := job_counter s in
      if job_index <? total_jobs then
        let plane := nth (Z.to_nat (Z.quot job_index jobs_per_plane)) planes 0 in
        let row_unit := Z.rem job_index jobs_per_plane in
        let row4x4 := row_unit * kNum4x4InLoopFilterMaskUnit in
        mkShared (job_index + 1)
          (set_worker (workers s) w (WorkerInJob plane row_unit row4x4 0 0))
          (calls_log s)
      else
        mkShared (job_index + 1) (set_worker (workers s) w WorkerExited)
          (calls_log s)
  | Some (WorkerInJob plane row_unit row4x4 column4x4 column_unit) =>
      if column4x4 <? dt_columns4x4 f then
        let unit_id := GetDeblockUnitId row_unit column_unit in
        mkShared (job_counter s)
          (set_worker (workers s) w
             (WorkerInJob plane row_unit row4x4
                (column4x4 + kNum4x4InLoopFilterMaskUnit) (column_unit + 1)))
          (calls_log s ++ [mkDeblockCall type plane row4x4 column4x4 unit_id])
      else
        mkShared (job_counter s) (set_worker (workers s) w WorkerIdle)
          (calls_log s)
  | _ => s
  end.

(** The steps of an interleaving: [schedule] lists, in order, the thread
    that takes each step. *)
Definition run_schedule (type : LoopFilterType) (f : DtFrame)
  (planes : list Z) (jobs_per_plane : Z) (schedule : list nat) (s : Shared)
  : Shared :=
  fold_left (fun s w => worker_step type f planes jobs_per_plane w s)
    schedule s.

(** One pass of [ApplyDeblockFilterThreaded]: [num_workers] pool threads
    and the current thread run [DeblockFilterWorker] on a fresh
    [job_counter(0)]; [pending_workers.Wait()] returns once every thread has
    returned, so an interleaving that leaves one running is not a complete
    run ([None]). *)
Definition deblock_pass (type : LoopFilterType) (f : DtFrame)
  (num_workers : Z) (schedule : list nat) : option (list DeblockCall) :=
  let planes := deblock_planes f in
  let jobs_per_plane := Z.shiftr (dt_rows4x4 f + 15) 4 in
  let s := run_schedule type f planes jobs_per_plane schedule
             (mkShared 0 (repeat WorkerIdle (S (Z.to_nat num_workers))) []) in
  if all_exited (workers s) then Some (calls_log s) else None.

(** [PostFilter::ApplyDeblockFilterThreaded()], for the interleavings
    [schedule_vertical] and [schedule_horizontal] of its two passes: the
    filter calls, in order. [DivideBy16(x)] is [x >> 4]. *)
Definition ApplyDeblockFilterThreaded (f : DtFrame) (num_workers : Z)
  (schedule_vertical schedule_horizontal : list nat)
  : option (list DeblockCall) :=
  match deblock_pass kLoopFilterTypeVertical f num_workers schedule_vertical with
  | None => None
  | Some calls =>
      option_map (app calls)
        (deblock_pass kLoopFilterTypeHorizontal f num_workers
           schedule_horizontal)
  end.

(** The number of column iterations of the loop
    [for (column4x4 = 0; column4x4 < columns4x4; column4x4 += K)]. *)
Definition num_column_units (f : DtFrame) : nat :=
  Z.to_nat ((dt_columns4x4 f + kNum4x4InLoopFilterMaskUnit - 1)
            / kNum4x4InLoopFilterMaskUnit).

(** The filter calls a thread still has to make in its current job. *)
Definition pending_calls (type : LoopFilterType) (f : DtFrame)
  (x : WorkerState) : list DeblockCall :=
  match x with
  | WorkerInJob plane row_unit row4x4 _ column_unit =>
      map (fun c => mkDeblockCall type plane row4x4
                      (Z.of_nat c * kNum4x4InLoopFilterMaskUnit)
                      (GetDeblockUnitId row_unit (Z.of_nat c)))
        (seq (Z.to_nat column_unit) (num_column_units f - Z.to_nat column_unit))
  | _ => []
  end.

(** The filter calls of one pass, one per plane of [deblock_planes], row
    unit and column unit. *)
Definition deblock_calls (type : LoopFilterType) (f : DtFrame)
  : list DeblockCall :=
  flat_map (fun plane =>
    flat_map (fun u =>
      map (fun c => mkDeblockCall type plane
                      (Z.of_nat u * kNum4x4InLoopFilterMaskUnit)
                      (Z.of_nat c * kNum4x4InLoopFilterMaskUnit)
                      (GetDeblockUnitId (Z.of_nat u) (Z.of_nat c)))
        (seq 0 (num_column_units f)))
      (seq 0 (Z.to_nat (Z.shiftr (dt_rows4x4 f + 15) 4))))
    (deblock_planes f).

(** The calls of job [job_index]: those of a thread that has just taken it. *)
Definition job_calls (type : LoopFilterType) (f : DtFrame) (planes : list Z)
  (jobs_per_plane job_index : Z) : list DeblockCall :=
  pending_calls type f
    (WorkerInJob (nth (Z.to_nat (Z.quot job_index jobs_per_plane)) planes 0)
       (Z.rem job_index jobs_per_plane)
       (Z.rem job_index jobs_per_plane * kNum4x4InLoopFilterMaskUnit) 0 0).

(** What a pass keeps: the counter is non-negative, each thread's locals
    agree with its column unit, a returned thread has seen the counter
    reach [total_jobs], and the calls made plus those the threads still
    owe are those of the jobs taken so far. *)
Definition pass_invariant (type : LoopFilterType) (f : DtFrame)
  (planes : list Z) (jobs_per_plane : Z) (s : Shared) : Prop :=
  0 <= job_counter s
  /\ Forall (fun x => match x with
                      | WorkerInJob _ row_unit row4x4 column4x4 column_unit =>
                          row4x4 = row_unit * kNum4x4InLoopFilterMaskUnit
                          /\ column4x4 = column_unit * kNum4x4InLoopFilterMaskUnit
                          /\ 0 <= column_unit
                      | _ => True
                      end) (workers s)
  /\ (In WorkerExited (workers s) ->
      jobs_per_plane * Z.of_nat (length planes) <= job_counter s)
  /\ Permutation (calls_log s ++ flat_map (pending_calls type f) (workers s))
       (flat_map (fun j => job_calls type f planes jobs_per_plane (Z.of_nat j))
          (seq 0 (Z.to_nat (Z.min (job_counter s)
                                  (jobs_per_plane * Z.of_nat (length planes)))))).

End WithConstants.

End DeblockThreaded.

(** * Proofs *)

Lemma all_from_spec (f : Z -> bool) (n : nat) :
  forall lo, all_from f lo n = true ->
  forall z, lo <= z < lo + Z.of_nat n -> f z = true.
Proof.
  induction n as [|n IH]; intros lo H z Hz; simpl in *; [lia|].
  apply andb_true_iff in H as [H0 H1].
  destruct (Z.eq_dec z lo) as [->|Hne]; [exact H0|].
  apply (IH (lo + 1)); [exact H1|lia].
Qed.

Lemma all_int16_spec (f : Z -> bool) :
  all_int16 f = true -> forall z, is_int16 z = true -> f z = true.
Proof.
  intros H z Hz. unfold is_int16 in Hz.
  apply andb_true_iff in Hz as [Hlo Hhi].
  apply Z.leb_le in Hlo; apply Z.leb_le in Hhi.
  assert (Hn : Z.of_nat (Z.to_nat 65536) = 65536)
    by (rewrite (Z2Nat.id 65536) by lia; reflexivity).
  exact (all_from_spec f (Z.to_nat 65536) (-32768) H z
           (ltac:(rewrite Hn; lia))).
Qed.

Module MotionVectorPredictionProofs.
Import MotionVectorPrediction.

Lemma lower_integer_stable_all :
  all_int16 (lower_stable lower_integer_component) = true.
Proof. vm_compute. reflexivity. Qed.

Lemma lower_odd_stable_all :
  all_int16 (lower_stable lower_odd_component) = true.
Proof. vm_compute. reflexivity. Qed.

Lemma LowerMvPrecisionComponent_idempotent (fh : FrameHeader) (z : Z) :
  is_int16 z = true ->
  LowerMvPrecisionComponent fh (LowerMvPrecisionComponent fh z)
  = LowerMvPrecisionComponent fh z.
Proof.
  intros Hz. unfold LowerMvPrecisionComponent.
  destruct (allow_high_precision_mv fh); [reflexivity|].
  destruct (negb (force_integer_mv fh =? 0)).
  - pose proof (all_int16_spec _ lower_integer_stable_all z Hz) as H.
    unfold lower_stable in H. apply andb_true_iff in H as [H _].
    apply Z.eqb_eq in H. exact H.
  - pose proof (all_int16_spec _ lower_odd_stable_all z Hz) as H.
    unfold lower_stable in H. apply andb_true_iff in H as [H _].
    apply Z.eqb_eq in H. exact H.
Qed.

(** Claim C3: for every motion vector with signed 16-bit components and
    every precision mode (high precision allowed, integer MV forced, or
    neither), applying [LowerMvPrecision] to an already lowered vector
    changes nothing: the reduction is idempotent. *)
Theorem LowerMvPrecision_idempotent (fh : FrameHeader) (m : MotionVector)
  (Hm : is_int16_mv m = true) :
  LowerMvPrecision fh (LowerMvPrecision fh m) = LowerMvPrecision fh m.
Proof.
  unfold is_int16_mv in Hm. apply andb_true_iff in Hm as [Hr Hc].
  unfold LowerMvPrecision; simpl.
  rewrite (LowerMvPrecisionComponent_idempotent fh _ Hr).
  rewrite (LowerMvPrecisionComponent_idempotent fh _ Hc).
  reflexivity.
Qed.

Lemma LowerMvPrecision_idempotent_witness :
  is_int16_mv (mkMv (-32767) 32767) = true /\
  LowerMvPrecision (mkFrameHeader false 1)
    (LowerMvPrecision (mkFrameHeader false 1) (mkMv (-32767) 32767))
  = LowerMvPrecision (mkFrameHeader false 1) (mkMv (-32767) 32767).
Proof.
  split; [reflexivity|].
  apply LowerMvPrecision_idempotent. reflexivity.
Defined.


Lemma Z_ge_transitive : Relations_1.Transitive Z.ge.
Proof. intros x y z; lia. Qed.

Lemma insert_by_perm (comp : Z -> Z -> bool) (x : Z) (l : list Z) :
  Permutation (x :: l) (insert_by comp x l).
Proof.
  induction l as [|y l IH]; simpl; [reflexivity|].
  destruct (comp x y); [reflexivity|].
  rewrite perm_swap. constructor. exact IH.
Qed.

Lemma sort_by_perm (comp : Z -> Z -> bool) (l : list Z) :
  Permutation l (sort_by comp l).
Proof.
  induction l as [|x l IH]; simpl; [reflexivity|].
  rewrite <- insert_by_perm. constructor. exact IH.
Qed.

Lemma insert_by_hdrel (x y : Z) (l : list Z) :
  y >= x -> HdRel Z.ge y l ->
  HdRel Z.ge y (insert_by CompareCandidateMotionVectors x l).
Proof.
  intros Hyx Hhd. destruct l as [|z l]; simpl.
  - constructor. exact Hyx.
  - destruct (CompareCandidateMotionVectors x z); constructor; [exact Hyx|].
    inversion Hhd; assumption.
Qed.

Lemma insert_by_sorted (x : Z) (l : list Z) :
  Sorted Z.ge l -> Sorted Z.ge (insert_by CompareCandidateMotionVectors x l).
Proof.
  induction l as [|y l IH]; intros Hs; simpl.
  - repeat constructor.
  - unfold CompareCandidateMotionVectors at 1.
    destruct (Z.gtb_spec x y) as [Hxy|Hxy].
    + constructor; [exact Hs|]. constructor. lia.
    + apply Sorted_inv in Hs as [Hs Hhd].
      constructor; [exact (IH Hs)|].
      apply insert_by_hdrel; [lia|exact Hhd].
Qed.

Lemma sort_by_sorted (l : list Z) :
  Sorted Z.ge (sort_by CompareCandidateMotionVectors l).
Proof.
  induction l as [|x l IH]; simpl; [constructor|].
  apply insert_by_sorted. exact IH.
Qed.

(** Two non-increasing arrangements of the same multiset are equal. *)
Lemma sorted_perm_unique (l1 l2 : list Z) :
  Sorted Z.ge l1 -> Sorted Z.ge l2 -> Permutation l1 l2 -> l1 = l2.
Proof.
  intros H1 H2 Hp.
  apply (Sorted_StronglySorted Z_ge_transitive) in H1.
  apply (Sorted_StronglySorted Z_ge_transitive) in H2.
  revert l2 H2 Hp. induction l1 as [|a l1 IH]; intros l2 H2 Hp.
  - symmetry. apply Permutation_nil. exact Hp.
  - destruct l2 as [|b l2].
    + apply Permutation_sym, Permutation_nil in Hp. discriminate.
    + apply StronglySorted_inv in H1 as [H1 F1].
      apply StronglySorted_inv in H2 as [H2 F2].
      assert (Hab : a = b).
      { assert (Ha : In a (b :: l2))
          by (apply (Permutation_in a Hp); left; reflexivity).
        assert (Hb : In b (a :: l1))
          by (apply (Permutation_in b (Permutation_sym Hp)); left; reflexivity).
        destruct Ha as [Ha|Ha]; [congruence|].
        destruct Hb as [Hb|Hb]; [congruence|].
        rewrite Forall_forall in F1, F2.
        specialize (F1 b Hb). specialize (F2 a Ha). lia. }
      subst b. f_equal. apply IH; [exact H1|exact H2|].
      apply Permutation_cons_inv with (a := a). exact Hp.
Qed.

(** Case analysis on every comparison left in the goal. *)
Ltac decide_comparisons :=
  repeat (cbn; match goal with
          | |- context [Z.ltb ?x ?y] => destruct (Z.ltb_spec x y)
          | |- context [Z.gtb ?x ?y] => destruct (Z.gtb_spec x y)
          end).

Lemma SortWeightIndexStack_small_generic (size : Z) (stack : list Z) :
  size <= 3 -> size <= Z.of_nat (length stack) ->
  SortWeightIndexStack size stack = sort_generic size stack.
Proof.
  intros Hs Hl. unfold SortWeightIndexStack, sort_generic.
  destruct (Z.leb_spec size 1) as [H1|H1].
  - assert (Hn : (Z.to_nat size = 0 \/ Z.to_nat size = 1)%nat) by lia.
    destruct Hn as [Hn|Hn]; rewrite Hn.
    + reflexivity.
    + destruct stack as [|a rest]; [reflexivity|]. reflexivity.
  - destruct (Z.leb_spec size 3) as [_|H3]; [|lia].
    destruct stack as [|a [|b rest]]; simpl length in Hl; [lia|lia|].
    unfold sort_small.
    destruct (Z.eqb_spec size 3) as [->|H3'].
    + destruct rest as [|c rest]; simpl length in Hl; [lia|].
      simpl. unfold DescendingOrderTwo, CompareCandidateMotionVectors.
      decide_comparisons; try lia; simpl app; repeat f_equal; lia.
    + assert (Hn : Z.to_nat size = 2%nat) by lia. rewrite Hn.
      simpl. unfold DescendingOrderTwo, CompareCandidateMotionVectors.
      decide_comparisons; try lia; simpl app; repeat f_equal; lia.
Qed.

(** Claim C4: for a weight-index stack of at most 3 entries to sort (any
    values, duplicates allowed, any order), the comparison network of
    [SortWeightIndexStack] yields exactly the array that the generic path
    yields: the range sorted into the (unique) non-increasing order that
    [std::sort] with [CompareCandidateMotionVectors] must produce, the rest
    of the array untouched. [s] is any result such a sort may return. *)
Theorem SortWeightIndexStack_small_equals_generic
  (size : Z) (stack s : list Z)
  (Hsize : size <= 3) (Hlen : size <= Z.of_nat (length stack))
  (Hsorted : Sorted Z.ge s)
  (Hperm : Permutation s (firstn (Z.to_nat size) stack)) :
  SortWeightIndexStack size stack = s ++ skipn (Z.to_nat size) stack
  /\ SortWeightIndexStack size stack = sort_generic size stack.
Proof.
  rewrite (SortWeightIndexStack_small_generic size stack Hsize Hlen).
  split; [|reflexivity].
  unfold sort_generic. f_equal.
  apply sorted_perm_unique; [apply sort_by_sorted|exact Hsorted|].
  rewrite <- sort_by_perm. symmetry. exact Hperm.
Qed.

Lemma SortWeightIndexStack_small_equals_generic_witness :
  SortWeightIndexStack 3 [4; 9; 9; 1] = [9; 9; 4] ++ [1]
  /\ SortWeightIndexStack 3 [4; 9; 9; 1] = sort_generic 3 [4; 9; 9; 1].
Proof.
  apply (SortWeightIndexStack_small_equals_generic 3 [4; 9; 9; 1] [9; 9; 4]).
  - lia.
  - simpl. lia.
  - repeat constructor; lia.
  - simpl. apply (Permutation_trans (perm_swap 9 9 [4])).
    apply (Permutation_trans (l' := 9 :: 4 :: 9 :: [])).
    + constructor. apply perm_swap.
    + apply perm_swap.
Defined.

End MotionVectorPredictionProofs.

Lemma to_int16_id (z : Z) : is_int16 z = true -> to_int16 z = z.
Proof.
  unfold is_int16, to_int16. intros H.
  apply andb_true_iff in H as [H1 H2].
  apply Z.leb_le in H1; apply Z.leb_le in H2.
  rewrite Z.mod_small by lia. lia.
Qed.

Module SelfGuidedProofs.
Import SelfGuided.

(** Claim C5: in [BoxFilterProcess] (both radii active), the weights
    [w0], [w1] read from [sgr_proj_info.multiplier] and the derived
    [w2 = (1 << kSgrProjPrecisionBits) - w0 - w1] sum to exactly
    [1 << kSgrProjPrecisionBits], for all multipliers for which the
    [int16_t] [w2] holds the difference (every multiplier pair of the AV1
    ranges, where [w2] lies in [2, 256]). *)
Theorem box_filter_weights_sum (multiplier0 multiplier1 : Z)
  (H0 : is_int16 multiplier0 = true) (H1 : is_int16 multiplier1 = true)
  (H2 : is_int16 (Z.shiftl 1 kSgrProjPrecisionBits
                  - multiplier0 - multiplier1) = true) :
  let '(w0, w1, w2) := box_filter_weights multiplier0 multiplier1 in
  w0 + w1 + w2 = Z.shiftl 1 kSgrProjPrecisionBits.
Proof.
  unfold box_filter_weights.
  rewrite (to_int16_id multiplier0 H0), (to_int16_id multiplier1 H1).
  rewrite (to_int16_id _ H2). lia.
Qed.

Lemma box_filter_weights_sum_witness :
  is_int16 (-96) = true /\ is_int16 95 = true /\
  is_int16 (Z.shiftl 1 kSgrProjPrecisionBits - (-96) - 95) = true /\
  (let '(w0, w1, w2) := box_filter_weights (-96) 95 in
   w0 + w1 + w2 = Z.shiftl 1 kSgrProjPrecisionBits).
Proof.
  split; [reflexivity|]. split; [reflexivity|]. split; [reflexivity|].
  apply box_filter_weights_sum; reflexivity.
Defined.

End SelfGuidedProofs.

Module MvStackProofs.
Import MotionVectorPrediction MvStack.

Section WithWeights.
Variable SW : list Z -> Z -> Z -> list Z.
Variable IW : list Z -> Z -> Z -> list Z.

Lemma store_candidate_num (st : MvState) (i : Z) (c : CandidateMotionVector) :
  num_mv_found (store_candidate st i c) = num_mv_found st.
Proof. unfold store_candidate. destruct (_ && _); reflexivity. Qed.

Lemma store_candidate_ok (st : MvState) (i : Z) (c : CandidateMotionVector) :
  0 <= i < Z.of_nat (length (ref_mv_stack st)) ->
  length (ref_mv_stack (store_candidate st i c)) = length (ref_mv_stack st)
  /\ stack_oob (store_candidate st i c) = stack_oob st.
Proof.
  intros Hi. unfold store_candidate.
  replace ((0 <=? i) && (i <? Z.of_nat (length (ref_mv_stack st)))) with true
    by (symmetry; apply andb_true_iff; split; [apply Z.leb_le|apply Z.ltb_lt]; lia).
  cbn [ref_mv_stack stack_oob]. split; [|reflexivity].
  rewrite length_app. cbn [length]. rewrite length_firstn, length_skipn. lia.
Qed.

Lemma store_candidate_at (st : MvState) (i : Z) (c : CandidateMotionVector) :
  0 <= i < Z.of_nat (length (ref_mv_stack st)) ->
  stack_at (store_candidate st i c) i = c.
Proof.
  intros Hi. unfold store_candidate, stack_at.
  replace ((0 <=? i) && (i <? Z.of_nat (length (ref_mv_stack st)))) with true
    by (symmetry; apply andb_true_iff; split; [apply Z.leb_le|apply Z.ltb_lt]; lia).
  cbn [ref_mv_stack]. rewrite app_nth2; rewrite length_firstn; [|lia].
  replace (Z.to_nat i - Init.Nat.min (Z.to_nat i) (length (ref_mv_stack st)))%nat
    with 0%nat by lia. reflexivity.
Qed.

Lemma store_candidate_other (st : MvState) (i j : Z) (c : CandidateMotionVector) :
  0 <= i < Z.of_nat (length (ref_mv_stack st)) -> 0 <= j -> i <> j ->
  stack_at (store_candidate st i c) j = stack_at st j.
Proof.
  intros Hi Hj Hij. unfold store_candidate, stack_at.
  replace ((0 <=? i) && (i <? Z.of_nat (length (ref_mv_stack st)))) with true
    by (symmetry; apply andb_true_iff; split; [apply Z.leb_le|apply Z.ltb_lt]; lia).
  cbn [ref_mv_stack].
  destruct (Z.lt_ge_cases j i) as [Hlt|Hge].
  - rewrite app_nth1 by (rewrite length_firstn; lia).
    rewrite nth_firstn. replace (Z.to_nat j <? Z.to_nat i)%nat with true
      by (symmetry; apply Nat.ltb_lt; lia). reflexivity.
  - rewrite app_nth2 by (rewrite length_firstn; lia).
    rewrite length_firstn.
    replace (Z.to_nat j - Init.Nat.min (Z.to_nat i) (length (ref_mv_stack st)))%nat
      with (S (Z.to_nat j - S (Z.to_nat i))) by lia.
    cbn [nth]. rewrite nth_skipn. f_equal. lia.
Qed.

(** The stack invariant: count within [lo, hi], 8 entries, no write out of
    bounds. *)
Lemma add_ref_mv_candidate_ok (ic : bool) (c : CandidateMotionVector) (w : Z)
  (st : MvState) :
  0 <= num_mv_found st <= kMaxRefMvStackSize ->
  length (ref_mv_stack st) = Z.to_nat kMaxRefMvStackSize ->
  stack_oob st = false ->
  let st' := add_ref_mv_candidate SW IW ic c w st in
  num_mv_found st <= num_mv_found st' <= kMaxRefMvStackSize
  /\ length (ref_mv_stack st') = Z.to_nat kMaxRefMvStackSize
  /\ stack_oob st' = false.
Proof.
  intros Hn Hl Ho. unfold add_ref_mv_candidate.
  destruct (negb (Z.of_nat _ =? num_mv_found st)).
  - simpl. auto with zarith.
  - destruct (Z.geb_spec (num_mv_found st) kMaxRefMvStackSize) as [Hge|Hlt].
    + auto with zarith.
    + unfold set_num_mv_found, set_weight; simpl.
      pose proof (store_candidate_num st (num_mv_found st) c) as Hn'.
      destruct (store_candidate_ok st (num_mv_found st) c) as [Hl' Ho'].
      { rewrite Hl. unfold kMaxRefMvStackSize in *. lia. }
      rewrite Hl', Ho', Hl, Ho. repeat split; lia.
Qed.

Lemma add_ref_mv_candidates_ok (ic : bool) (cands : list (CandidateMotionVector * Z)) :
  forall st : MvState,
  0 <= num_mv_found st <= kMaxRefMvStackSize ->
  length (ref_mv_stack st) = Z.to_nat kMaxRefMvStackSize ->
  stack_oob st = false ->
  let st' := add_ref_mv_candidates SW IW ic cands st in
  num_mv_found st <= num_mv_found st' <= kMaxRefMvStackSize
  /\ length (ref_mv_stack st') = Z.to_nat kMaxRefMvStackSize
  /\ stack_oob st' = false.
Proof.
  induction cands as [|[c w] rest IH]; intros st Hn Hl Ho; simpl.
  - repeat split; lia || assumption.
  - destruct (add_ref_mv_candidate_ok ic c w st Hn Hl Ho) as [Hn1 [Hl1 Ho1]].
    destruct (IH _ (conj (Z.le_trans _ _ _ (proj1 Hn) (proj1 Hn1)) (proj2 Hn1)) Hl1 Ho1)
      as [Hn2 [Hl2 Ho2]].
    repeat split; lia || assumption.
Qed.


Lemma extra_single_step_ok (ctx : ExtraContext) (nb : ExtraNeighbor) (i : nat)
  (st : MvState) :
  0 <= num_mv_found st <= 2 ->
  length (ref_mv_stack st) = Z.to_nat kMaxRefMvStackSize ->
  stack_oob st = false ->
  let st' := extra_single_step SW ctx nb i st in
  num_mv_found st <= num_mv_found st' <= num_mv_found st + 1
  /\ length (ref_mv_stack st') = Z.to_nat kMaxRefMvStackSize
  /\ stack_oob st' = false.
Proof.
  intros Hn Hl Ho. unfold extra_single_step.
  destruct (nb_ref nb i <=? kReferenceFrameIntra); [repeat split; lia || assumption|].
  destruct (_ || _); [repeat split; lia || assumption|].
  unfold set_num_mv_found, set_weight; cbn [num_mv_found ref_mv_stack stack_oob].
  destruct (store_candidate_ok st (num_mv_found st)
              (mkCand (if Bool.eqb (sign_bias ctx (nb_ref nb i))
                                   (sign_bias ctx (block_ref0 ctx))
                       then nb_mv nb i else negate_mv (nb_mv nb i)) zero_mv))
    as [Hl' Ho'].
  { rewrite Hl. unfold kMaxRefMvStackSize. lia. }
  rewrite Hl', Ho', Hl, Ho. repeat split; lia.
Qed.

Lemma AddExtraSingleMvCandidate_ok (ctx : ExtraContext) (nb : ExtraNeighbor)
  (st : MvState) :
  0 <= num_mv_found st <= 1 ->
  length (ref_mv_stack st) = Z.to_nat kMaxRefMvStackSize ->
  stack_oob st = false ->
  let st' := AddExtraSingleMvCandidate SW ctx nb st in
  num_mv_found st <= num_mv_found st' <= 3
  /\ length (ref_mv_stack st') = Z.to_nat kMaxRefMvStackSize
  /\ stack_oob st' = false.
Proof.
  intros Hn Hl Ho. unfold AddExtraSingleMvCandidate.
  destruct (extra_single_step_ok ctx nb 0 st ltac:(lia) Hl Ho) as [Hn1 [Hl1 Ho1]].
  destruct (extra_single_step_ok ctx nb 1 (extra_single_step SW ctx nb 0 st)
              ltac:(lia) Hl1 Ho1) as [Hn2 [Hl2 Ho2]].
  repeat split; lia || assumption.
Qed.

Lemma extra_single_pass_ok (ctx : ExtraContext) (nbs : list ExtraNeighbor) :
  forall st : MvState,
  0 <= num_mv_found st <= 1 ->
  length (ref_mv_stack st) = Z.to_nat kMaxRefMvStackSize ->
  stack_oob st = false ->
  let st' := extra_single_pass SW ctx nbs st in
  num_mv_found st <= num_mv_found st' <= 3
  /\ length (ref_mv_stack st') = Z.to_nat kMaxRefMvStackSize
  /\ stack_oob st' = false.
Proof.
  induction nbs as [|nb rest IH]; intros st Hn Hl Ho; simpl.
  - repeat split; lia || assumption.
  - destruct (AddExtraSingleMvCandidate_ok ctx nb st Hn Hl Ho) as [Hn1 [Hl1 Ho1]].
    destruct (Z.geb_spec (num_mv_found (AddExtraSingleMvCandidate SW ctx nb st)) 2).
    + repeat split; lia || assumption.
    + destruct (IH (AddExtraSingleMvCandidate SW ctx nb st) ltac:(lia) Hl1 Ho1)
        as [Hn2 [Hl2 Ho2]].
      repeat split; lia || assumption.
Qed.

Lemma fill_global_entry_ok (ctx : ExtraContext) (i : Z) (st : MvState) :
  0 <= i < Z.of_nat (length (ref_mv_stack st)) ->
  let st' := fill_global_entry SW ctx i st in
  num_mv_found st' = num_mv_found st
  /\ length (ref_mv_stack st') = length (ref_mv_stack st)
  /\ stack_oob st' = stack_oob st
  /\ cand0 (stack_at st' i) = global_mv0 ctx
  /\ (forall j, 0 <= j -> j <> i -> stack_at st' j = stack_at st j).
Proof.
  intros Hi. unfold fill_global_entry, set_weight.
  set (c := mkCand _ _).
  destruct (store_candidate_ok st i c Hi) as [Hl Ho].
  cbn [num_mv_found ref_mv_stack stack_oob].
  rewrite store_candidate_num, Hl, Ho.
  repeat split.
  - change (cand0 (stack_at (store_candidate st i c) i) = global_mv0 ctx).
    rewrite store_candidate_at by exact Hi. reflexivity.
  - intros j Hj Hji.
    change (stack_at (store_candidate st i c) j = stack_at st j).
    apply store_candidate_other; [exact Hi|exact Hj|congruence].
Qed.

Lemma fill_global_single_ok (ctx : ExtraContext) (st : MvState) :
  0 <= num_mv_found st ->
  length (ref_mv_stack st) = Z.to_nat kMaxRefMvStackSize ->
  stack_oob st = false ->
  let st' := fill_global_single SW ctx st in
  num_mv_found st' = num_mv_found st
  /\ length (ref_mv_stack st') = Z.to_nat kMaxRefMvStackSize
  /\ stack_oob st' = false
  /\ (forall i, num_mv_found st <= i < 2 ->
        cand0 (stack_at st' i) = global_mv0 ctx).
Proof.
  intros Hn Hl Ho. unfold fill_global_single.
  assert (H8 : Z.of_nat (Z.to_nat kMaxRefMvStackSize) = 8) by reflexivity.
  destruct (Z.leb_spec (num_mv_found st) 0) as [H0|H0].
  - destruct (fill_global_entry_ok ctx 0 st ltac:(rewrite Hl, H8; lia))
      as [Hn1 [Hl1 [Ho1 [Hg1 Hj1]]]].
    destruct (fill_global_entry_ok ctx 1 (fill_global_entry SW ctx 0 st)
                ltac:(rewrite Hl1, Hl, H8; lia))
      as [Hn2 [Hl2 [Ho2 [Hg2 Hj2]]]].
    rewrite Hn2, Hl2, Ho2, Hn1, Hl1, Ho1, Hl, Ho.
    split; [reflexivity|split; [reflexivity|split; [reflexivity|]]]. intros i Hi.
    destruct (Z.eq_dec i 1) as [->|Hi1]; [exact Hg2|].
    assert (i = 0) as -> by lia.
    rewrite Hj2 by lia. exact Hg1.
  - destruct (Z.leb_spec (num_mv_found st) 1) as [H1|H1].
    + destruct (fill_global_entry_ok ctx 1 st ltac:(rewrite Hl, H8; lia))
        as [Hn1 [Hl1 [Ho1 [Hg1 Hj1]]]].
      rewrite Hn1, Hl1, Ho1, Hl, Ho.
      split; [reflexivity|split; [reflexivity|split; [reflexivity|]]]. intros i Hi. assert (i = 1) as -> by lia. exact Hg1.
    + repeat split; try assumption. intros i Hi; lia.
Qed.

Lemma set_weight_fields (st : MvState) (i w : Z) :
  num_mv_found (set_weight SW st i w) = num_mv_found st
  /\ ref_mv_stack (set_weight SW st i w) = ref_mv_stack st
  /\ stack_oob (set_weight SW st i w) = stack_oob st.
Proof. repeat split. Qed.

Lemma set_num_mv_found_fields (st : MvState) (n : Z) :
  num_mv_found (set_num_mv_found st n) = n
  /\ ref_mv_stack (set_num_mv_found st n) = ref_mv_stack st
  /\ stack_oob (set_num_mv_found st n) = stack_oob st.
Proof. repeat split. Qed.

Lemma merge_compound_ok (ctx : ExtraContext) (a : CompoundAcc) (st : MvState) :
  length (ref_mv_stack st) = Z.to_nat kMaxRefMvStackSize ->
  stack_oob st = false ->
  let st' := merge_compound SW ctx a st in
  num_mv_found st' = 2
  /\ length (ref_mv_stack st') = Z.to_nat kMaxRefMvStackSize
  /\ stack_oob st' = false.
Proof.
  intros Hl Ho. unfold merge_compound.
  assert (H8 : Z.of_nat (Z.to_nat kMaxRefMvStackSize) = 8) by reflexivity.
  destruct (combined_mvs ctx a) as [c0 c1].
  match goal with |- context [set_num_mv_found ?x 2] => set (st' := x) end.
  destruct (set_num_mv_found_fields st' 2) as [-> [-> ->]].
  assert (Hst' : length (ref_mv_stack st') = Z.to_nat kMaxRefMvStackSize
                 /\ stack_oob st' = false).
  { unfold st'. destruct (num_mv_found st =? 1).
    - set (c := if cand_eqb c0 (stack_at st 0) then c1 else c0).
      destruct (store_candidate_ok st 1 c ltac:(rewrite Hl, H8; lia)) as [Hl1 Ho1].
      destruct (set_weight_fields (store_candidate st 1 c) 1 0) as [_ [-> ->]].
      rewrite Hl1, Ho1, Hl, Ho. auto.
    - destruct (store_candidate_ok st 0 c0 ltac:(rewrite Hl, H8; lia)) as [Hl1 Ho1].
      set (s1 := set_weight SW (store_candidate st 0 c0) 0 0).
      destruct (set_weight_fields (store_candidate st 0 c0) 0 0) as [_ [Hs1 Hs1']].
      fold s1 in Hs1, Hs1'.
      destruct (store_candidate_ok s1 1 c1 ltac:(rewrite Hs1, Hl1, Hl, H8; lia))
        as [Hl2 Ho2].
      destruct (set_weight_fields (store_candidate s1 1 c1) 1 0) as [_ [-> ->]].
      rewrite Hl2, Ho2, Hs1, Hs1', Hl1, Ho1, Hl, Ho. auto. }
  destruct Hst' as [-> ->]. auto.
Qed.

Lemma ExtraSearch_ok (ic : bool) (ctx : ExtraContext)
  (pass0 pass1 : list ExtraNeighbor) (st : MvState) :
  0 <= num_mv_found st <= 1 ->
  length (ref_mv_stack st) = Z.to_nat kMaxRefMvStackSize ->
  stack_oob st = false ->
  let st' := ExtraSearch SW ic ctx pass0 pass1 st in
  num_mv_found st <= num_mv_found st' <= 3
  /\ length (ref_mv_stack st') = Z.to_nat kMaxRefMvStackSize
  /\ stack_oob st' = false
  /\ (ic = true -> num_mv_found st' = 2).
Proof.
  intros Hn Hl Ho. unfold ExtraSearch. destruct ic.
  - destruct (merge_compound_ok ctx
      (if num_mv_found st <? 2
       then extra_compound_pass ctx pass1
              (if num_mv_found st <? 2
               then extra_compound_pass ctx pass0 (mkAcc [] [] [] [])
               else mkAcc [] [] [] [])
       else if num_mv_found st <? 2
            then extra_compound_pass ctx pass0 (mkAcc [] [] [] [])
            else mkAcc [] [] [] []) st Hl Ho) as [Hn' [Hl' Ho']].
    repeat split; try lia; auto.
  - destruct (extra_single_pass_ok ctx pass0 st Hn Hl Ho) as [Hn1 [Hl1 Ho1]].
    set (st1 := if num_mv_found st <? 2 then extra_single_pass SW ctx pass0 st else st).
    assert (H1 : num_mv_found st <= num_mv_found st1 <= 3
                 /\ length (ref_mv_stack st1) = Z.to_nat kMaxRefMvStackSize
                 /\ stack_oob st1 = false).
    { unfold st1. destruct (num_mv_found st <? 2); auto with zarith. }
    destruct H1 as [Hn1' [Hl1' Ho1']].
    set (st2 := if num_mv_found st1 <? 2 then extra_single_pass SW ctx pass1 st1 else st1).
    assert (H2 : num_mv_found st1 <= num_mv_found st2 <= 3
                 /\ length (ref_mv_stack st2) = Z.to_nat kMaxRefMvStackSize
                 /\ stack_oob st2 = false).
    { unfold st2. destruct (Z.ltb_spec (num_mv_found st1) 2).
      - apply extra_single_pass_ok; [lia|exact Hl1'|exact Ho1'].
      - repeat split; lia || assumption. }
    destruct H2 as [Hn2 [Hl2 Ho2]].
    destruct (fill_global_single_ok ctx st2 ltac:(lia) Hl2 Ho2)
      as [Hn3 [Hl3 [Ho3 _]]].
    rewrite Hn3. repeat split; try lia; try assumption; discriminate.
Qed.

(** Claim C2: for every block and every sequence of candidates the scans
    offer, [FindMvStack] never writes [ref_mv_stack] outside its 8 entries,
    and on return [nearest_mv_count <= ref_mv_count <= 8] (both counts
    non-negative). *)
Theorem FindMvStack_stack_bound (ic : bool) (inp : MvSearchInput)
  (stack0 : list CandidateMotionVector) (weights0 : list Z)
  (Hstack : length stack0 = Z.to_nat kMaxRefMvStackSize) :
  let r := FindMvStack SW IW ic inp stack0 weights0 in
  0 <= nearest_mv_count r <= ref_mv_count r
  /\ ref_mv_count r <= kMaxRefMvStackSize
  /\ length (ref_mv_stack (res_state r)) = Z.to_nat kMaxRefMvStackSize
  /\ stack_oob (res_state r) = false.
Proof.
  unfold FindMvStack. cbn zeta.
  set (st0 := mkMvState 0 stack0 weights0 false).
  assert (H0 : 0 <= num_mv_found st0 <= kMaxRefMvStackSize)
    by (unfold st0, kMaxRefMvStackSize; simpl; lia).
  destruct (add_ref_mv_candidates_ok ic (nearest_candidates inp) st0 H0 Hstack
              eq_refl) as [Hn1 [Hl1 Ho1]].
  set (st1 := add_ref_mv_candidates SW IW ic (nearest_candidates inp) st0) in *.
  destruct (add_ref_mv_candidates_ok ic (other_candidates inp) st1
              ltac:(unfold st0 in Hn1; simpl in Hn1; lia) Hl1 Ho1)
    as [Hn2 [Hl2 Ho2]].
  set (st2 := add_ref_mv_candidates SW IW ic (other_candidates inp) st1) in *.
  unfold st0 in Hn1; simpl in Hn1.
  cbn [nearest_mv_count ref_mv_count res_state].
  destruct (Z.ltb_spec (num_mv_found st2) 2) as [Hlt|Hge].
  - destruct (ExtraSearch_ok ic (extra_context inp) (extra_pass0 inp)
                (extra_pass1 inp) st2 ltac:(lia) Hl2 Ho2) as [Hn3 [Hl3 [Ho3 _]]].
    unfold kMaxRefMvStackSize in *. repeat split; lia || assumption.
  - cbn [num_mv_found ref_mv_stack stack_oob].
    repeat split; lia || assumption.
Qed.


(** Claim C10 (as amended): in single-prediction mode [ExtraSearch] first
    scans the neighbours, where [AddExtraSingleMvCandidate] may append
    candidates and so raise [*num_mv_found] (to at most 3); its final step
    then writes [global_mv[0]] into [mv[0]] of the entries from
    [*num_mv_found] up to index 1 and leaves [*num_mv_found] unchanged. In
    compound mode [ExtraSearch] always sets [*num_mv_found] to 2. So
    [FindMvStack] can return [ref_mv_count = 0] (no candidate found
    anywhere) while entries 0 and 1 hold the global motion vector. *)
Theorem ExtraSearch_num_mv_found (ctx : ExtraContext)
  (pass0 pass1 : list ExtraNeighbor) (st : MvState)
  (Hn : 0 <= num_mv_found st <= 1)
  (Hl : length (ref_mv_stack st) = Z.to_nat kMaxRefMvStackSize)
  (Ho : stack_oob st = false) :
  (exists st2 : MvState,
      num_mv_found st <= num_mv_found st2 <= 3
      /\ ExtraSearch SW false ctx pass0 pass1 st = fill_global_single SW ctx st2
      /\ num_mv_found (ExtraSearch SW false ctx pass0 pass1 st) = num_mv_found st2
      /\ (forall i, num_mv_found st2 <= i < 2 ->
            cand0 (stack_at (ExtraSearch SW false ctx pass0 pass1 st) i)
            = global_mv0 ctx))
  /\ num_mv_found (ExtraSearch SW true ctx pass0 pass1 st) = 2
  /\ (forall stack0 weights0,
        length stack0 = Z.to_nat kMaxRefMvStackSize ->
        let r := FindMvStack SW IW false (mkMvSearchInput [] [] ctx [] [])
                   stack0 weights0 in
        ref_mv_count r = 0
        /\ cand0 (stack_at (res_state r) 0) = global_mv0 ctx
        /\ cand0 (stack_at (res_state r) 1) = global_mv0 ctx).
Proof.
  split; [|split].
  - set (st1 := if num_mv_found st <? 2 then extra_single_pass SW ctx pass0 st else st).
    set (st2 := if num_mv_found st1 <? 2 then extra_single_pass SW ctx pass1 st1 else st1).
    assert (H1 : num_mv_found st <= num_mv_found st1 <= 3
                 /\ length (ref_mv_stack st1) = Z.to_nat kMaxRefMvStackSize
                 /\ stack_oob st1 = false).
    { unfold st1. destruct (num_mv_found st <? 2);
        [apply extra_single_pass_ok; assumption|repeat split; lia || assumption]. }
    destruct H1 as [Hn1 [Hl1 Ho1]].
    assert (H2 : num_mv_found st1 <= num_mv_found st2 <= 3
                 /\ length (ref_mv_stack st2) = Z.to_nat kMaxRefMvStackSize
                 /\ stack_oob st2 = false).
    { unfold st2. destruct (Z.ltb_spec (num_mv_found st1) 2).
      - apply extra_single_pass_ok; [lia|exact Hl1|exact Ho1].
      - repeat split; lia || assumption. }
    destruct H2 as [Hn2 [Hl2 Ho2]].
    exists st2.
    assert (He : ExtraSearch SW false ctx pass0 pass1 st = fill_global_single SW ctx st2)
      by reflexivity.
    rewrite He.
    destruct (fill_global_single_ok ctx st2 ltac:(lia) Hl2 Ho2)
      as [Hn3 [_ [_ Hg]]].
    repeat split; try lia; assumption.
  - destruct (ExtraSearch_ok true ctx pass0 pass1 st Hn Hl Ho) as [_ [_ [_ H2]]].
    apply H2. reflexivity.
  - intros stack0 weights0 Hs. cbn zeta.
    unfold FindMvStack. cbn [add_ref_mv_candidates nearest_candidates
                             other_candidates num_mv_found].
    assert (Hfill := fill_global_single_ok ctx (mkMvState 0 stack0 weights0 false)
                       ltac:(simpl; lia) Hs eq_refl).
    destruct Hfill as [Hn' [_ [_ Hg]]].
    cbn [ref_mv_count res_state num_mv_found extra_context extra_pass0
         extra_pass1 Z.ltb Z.compare].
    unfold ExtraSearch. cbn [num_mv_found extra_single_pass Z.ltb Z.compare].
    repeat split.
    + exact Hn'.
    + apply Hg. simpl. lia.
    + apply Hg. simpl. lia.
Qed.

End WithWeights.

Lemma FindMvStack_stack_bound_witness :
  let stack0 := repeat (mkCand zero_mv zero_mv) 8 in
  let ctx := mkExtraContext 1 kReferenceFrameNone (fun _ => false) zero_mv zero_mv in
  let inp := mkMvSearchInput
               [(mkCand (mkMv 1 0) zero_mv, 2); (mkCand (mkMv 1 0) zero_mv, 4)]
               (map (fun k => (mkCand (mkMv k 0) zero_mv, 2)) [2; 3; 4; 5; 6; 7; 8; 9; 10])
               ctx [] [] in
  length stack0 = Z.to_nat kMaxRefMvStackSize
  /\ (let r := FindMvStack (fun w _ _ => w) (fun w _ _ => w) false inp stack0
                 (repeat 0 8) in
      0 <= nearest_mv_count r <= ref_mv_count r
      /\ ref_mv_count r <= kMaxRefMvStackSize
      /\ length (ref_mv_stack (res_state r)) = Z.to_nat kMaxRefMvStackSize
      /\ stack_oob (res_state r) = false).
Proof.
  cbn zeta. split; [reflexivity|].
  apply FindMvStack_stack_bound. reflexivity.
Defined.

Lemma ExtraSearch_num_mv_found_witness :
  let ctx := mkExtraContext 1 kReferenceFrameNone (fun _ => false) (mkMv 8 (-8)) zero_mv in
  let st := mkMvState 0 (repeat (mkCand zero_mv zero_mv) 8) (repeat 0 8) false in
  let nb := mkNeighbor 1 kReferenceFrameNone (mkMv 4 4) zero_mv in
  (0 <= num_mv_found st <= 1
   /\ length (ref_mv_stack st) = Z.to_nat kMaxRefMvStackSize
   /\ stack_oob st = false)
  /\ num_mv_found (ExtraSearch (fun w _ _ => w) true ctx [nb] [] st) = 2.
Proof.
  cbn zeta. split; [split; [simpl; lia|split; reflexivity]|].
  apply (ExtraSearch_num_mv_found (fun w _ _ => w) (fun w _ _ => w)); simpl; lia || reflexivity.
Defined.

(** Claim C10 as stated fails: in single-prediction mode [ExtraSearch]
    does change [*num_mv_found] when a neighbour offers a candidate (here
    from 0 to 1). *)
Lemma ExtraSearch_single_changes_num_mv_found :
  let ctx := mkExtraContext 1 kReferenceFrameNone (fun _ => false) (mkMv 8 (-8)) zero_mv in
  let st := mkMvState 0 (repeat (mkCand zero_mv zero_mv) 8) (repeat 0 8) false in
  let nb := mkNeighbor 1 kReferenceFrameNone (mkMv 4 4) zero_mv in
  num_mv_found st = 0
  /\ num_mv_found (ExtraSearch (fun w _ _ => w) false ctx [nb] [] st) = 1.
Proof. split; reflexivity. Qed.

Example FindMvStack_full_stack :
  let ctx := mkExtraContext 1 kReferenceFrameNone (fun _ => false) zero_mv zero_mv in
  let inp := mkMvSearchInput
               [(mkCand (mkMv 1 0) zero_mv, 2); (mkCand (mkMv 1 0) zero_mv, 4)]
               (map (fun k => (mkCand (mkMv k 0) zero_mv, 2)) [2; 3; 4; 5; 6; 7; 8; 9; 10])
               ctx [] [] in
  let r := FindMvStack (fun w _ _ => w) (fun w _ _ => w) false inp
             (repeat (mkCand zero_mv zero_mv) 8) (repeat 0 8) in
  (nearest_mv_count r, ref_mv_count r) = (1, 8).
Proof. reflexivity. Qed.

End MvStackProofs.

Module WarpSamplesProofs.
Import MotionVectorPrediction WarpSamples.

Section WithMax.
Variable K : Z.

Lemma store_sample_ok (st : WarpState) (i : Z) (row : list Z) :
  0 <= i < Z.of_nat (length (candidates st)) ->
  num_warp_samples (store_sample st i row) = num_warp_samples st
  /\ num_samples_scanned (store_sample st i row) = num_samples_scanned st
  /\ length (candidates (store_sample st i row)) = length (candidates st)
  /\ warp_oob (store_sample st i row) = warp_oob st.
Proof.
  intros Hi. unfold store_sample.
  replace ((0 <=? i) && (i <? Z.of_nat (length (candidates st)))) with true
    by (symmetry; apply andb_true_iff; split; [apply Z.leb_le|apply Z.ltb_lt]; lia).
  cbn [num_warp_samples num_samples_scanned candidates warp_oob].
  repeat split. rewrite length_app. cbn [length].
  rewrite length_firstn, length_skipn. lia.
Qed.

Lemma AddSample_ok (b : WarpBlock) (site : SampleSite) (st : WarpState) :
  0 <= num_warp_samples st <= num_samples_scanned st ->
  num_samples_scanned st <= K ->
  length (candidates st) = Z.to_nat K ->
  warp_oob st = false ->
  let st' := AddSample K b site st in
  0 <= num_warp_samples st' <= num_samples_scanned st'
  /\ num_samples_scanned st <= num_samples_scanned st' <= K
  /\ length (candidates st') = Z.to_nat K
  /\ warp_oob st' = false.
Proof.
  intros Hw Hs Hl Ho. unfold AddSample.
  destruct (Z.geb_spec (num_samples_scanned st) K) as [Hge|Hlt];
    [repeat split; lia || assumption|].
  destruct (negb (site_available site)); [repeat split; lia || assumption|].
  destruct (_ || _); [repeat split; lia || assumption|].
  cbv zeta.
  destruct (negb _ && _) eqn:Hv.
  - cbn [num_warp_samples num_samples_scanned candidates warp_oob].
    repeat split; lia || assumption.
  - match goal with |- context [store_sample ?s ?i ?r] =>
      destruct (store_sample_ok s i r) as [Hw2 [Hs2 [Hl2 Ho2]]];
      [cbn [num_warp_samples candidates]; rewrite Hl; lia|] end.
    cbn [num_warp_samples num_samples_scanned candidates warp_oob] in Hw2, Hs2, Hl2, Ho2.
    apply andb_false_iff in Hv.
    destruct (_ <=? _) eqn:Hvalid; cbn [negb] in Hv;
      cbn [num_warp_samples num_samples_scanned candidates warp_oob];
      rewrite ?Hw2, ?Hs2, ?Hl2, ?Ho2; repeat split; try lia; try assumption.
Qed.

Lemma add_samples_ok (b : WarpBlock) (sites : list SampleSite) :
  forall st : WarpState,
  0 <= num_warp_samples st <= num_samples_scanned st ->
  num_samples_scanned st <= K ->
  length (candidates st) = Z.to_nat K ->
  warp_oob st = false ->
  let st' := add_samples K b sites st in
  0 <= num_warp_samples st' <= num_samples_scanned st'
  /\ num_samples_scanned st <= num_samples_scanned st' <= K
  /\ length (candidates st') = Z.to_nat K
  /\ warp_oob st' = false.
Proof.
  induction sites as [|site rest IH]; intros st Hw Hs Hl Ho; simpl.
  - repeat split; lia || assumption.
  - destruct (AddSample_ok b site st Hw Hs Hl Ho) as [Hw1 [Hs1 [Hl1 Ho1]]].
    destruct (IH (AddSample K b site st) Hw1 ltac:(lia) Hl1 Ho1)
      as [Hw2 [Hs2 [Hl2 Ho2]]].
    repeat split; lia || assumption.
Qed.

(** Claim C8: after the [AddSample] calls of [FindWarpSamples], if no
    valid sample was collected ([num_warp_samples == 0]) but at least one
    was scanned, [num_warp_samples] is set to 1, and otherwise left as it
    is; starting from counts within bounds (as the caller's zeros are), at
    most [kMaxLeastSquaresSamples] samples are scanned, at most that many
    are stored (never more than were scanned), and no sample is written
    past the [kMaxLeastSquaresSamples] rows of [candidates]. *)
Theorem FindWarpSamples_counts (b : WarpBlock) (sites : list SampleSite)
  (st : WarpState)
  (Hw : 0 <= num_warp_samples st <= num_samples_scanned st)
  (Hs : num_samples_scanned st <= K)
  (Hl : length (candidates st) = Z.to_nat K)
  (Ho : warp_oob st = false) :
  let scan := add_samples K b sites st in
  let st' := FindWarpSamples K b sites st in
  num_warp_samples st'
    = (if (num_warp_samples scan =? 0) && (num_samples_scanned scan >? 0)
       then 1 else num_warp_samples scan)
  /\ num_samples_scanned st' = num_samples_scanned scan
  /\ 0 <= num_warp_samples st' <= num_samples_scanned st'
  /\ num_samples_scanned st' <= K
  /\ warp_oob st' = false.
Proof.
  destruct (add_samples_ok b sites st Hw Hs Hl Ho) as [Hw1 [Hs1 [_ Ho1]]].
  cbn zeta. unfold FindWarpSamples.
  destruct (Z.eqb_spec (num_warp_samples (add_samples K b sites st)) 0);
    destruct (Z.gtb_spec (num_samples_scanned (add_samples K b sites st)) 0);
    cbn [andb num_warp_samples num_samples_scanned warp_oob];
    repeat split; lia || assumption.
Qed.

End WithMax.

Lemma FindWarpSamples_counts_witness :
  let b := mkWarpBlock 0 1 (mkMv 0 0) 8 8 in
  let far := mkSite (-1) 0 true 1 kReferenceFrameNone 1 1 (mkMv 100 100) in
  let st := mkWarpState 0 0 (repeat [0; 0; 0; 0] 8) false in
  (0 <= num_warp_samples st <= num_samples_scanned st
   /\ num_samples_scanned st <= 8
   /\ length (candidates st) = Z.to_nat 8
   /\ warp_oob st = false)
  /\ num_warp_samples (FindWarpSamples 8 b [far; far] st) = 1
  /\ (let scan := add_samples 8 b [far; far] st in
      let st' := FindWarpSamples 8 b [far; far] st in
      num_warp_samples st'
        = (if (num_warp_samples scan =? 0) && (num_samples_scanned scan >? 0)
           then 1 else num_warp_samples scan)
      /\ num_samples_scanned st' = num_samples_scanned scan
      /\ 0 <= num_warp_samples st' <= num_samples_scanned st'
      /\ num_samples_scanned st' <= 8
      /\ warp_oob st' = false).
Proof.
  cbn zeta. split; [repeat split; simpl; lia || reflexivity|].
  split; [reflexivity|].
  apply FindWarpSamples_counts; simpl; lia || reflexivity.
Defined.

End WarpSamplesProofs.

Module DeblockProofs.
Import Deblock.

Section WithTables.
Variables kTransformWidth kTransformHeight : nat -> Z.

(** Claim C7: the horizontal and the vertical edge decisions. An edge is
    filtered (the function returns true) unless it lies on the frame
    boundary ([row4x4 == 0], resp. [column4x4 == 0]), both sides' filter
    levels are zero, or [SkipFilter] holds (the block is skip-coded and
    inter-coded and the neighbour across the edge is the same block); when
    it is filtered, [*filter_length] is the minimum of the transform sizes,
    in the filtering direction, of the blocks on the two sides. *)
Theorem DeblockFilterEdgeInfo_decision (f : DeblockFrame)
  (row4x4 column4x4 level0 filter_length0 : Z) :
  (let e := GetHorizontalDeblockFilterEdgeInfo kTransformHeight f
              row4x4 column4x4 level0 filter_length0 in
   let bp := find_block f row4x4 column4x4 in
   let bp_prev := find_block f (row4x4 - 1) column4x4 in
   let level_this := nth 1 (deblock_filter_level (block_at f bp)) 0 in
   let level_prev := nth 1 (deblock_filter_level (block_at f bp_prev)) 0 in
   (edge_filter e = false <->
      row4x4 = 0 \/ (level_this = 0 /\ level_prev = 0)
      \/ SkipFilter f bp bp_prev = true)
   /\ (edge_filter e = true ->
       edge_filter_length e
       = Z.min (kTransformHeight (inter_transform_sizes f row4x4 column4x4))
               (kTransformHeight
                  (inter_transform_sizes f (row4x4 - 1) column4x4))))
  /\
  (let e := GetVerticalDeblockFilterEdgeInfo kTransformWidth f
              row4x4 column4x4 level0 filter_length0 in
   let bp := find_block f row4x4 column4x4 in
   let bp_prev := find_block f row4x4 (column4x4 - 1) in
   let level_this := nth 0 (deblock_filter_level (block_at f bp)) 0 in
   let level_prev := nth 0 (deblock_filter_level (block_at f bp_prev)) 0 in
   (edge_filter e = false <->
      column4x4 = 0 \/ (level_this = 0 /\ level_prev = 0)
      \/ SkipFilter f bp bp_prev = true)
   /\ (edge_filter e = true ->
       edge_filter_length e
       = Z.min (kTransformWidth (inter_transform_sizes f row4x4 column4x4))
               (kTransformWidth
                  (inter_transform_sizes f row4x4 (column4x4 - 1))))).
Proof.
  cbv zeta. unfold GetHorizontalDeblockFilterEdgeInfo,
    GetVerticalDeblockFilterEdgeInfo.
  split.
  - destruct (Z.eqb_spec row4x4 0) as [H0|H0];
      [cbn; split; [tauto|discriminate]|].
    destruct (Z.eqb_spec (nth 1 (deblock_filter_level
                (block_at f (find_block f row4x4 column4x4))) 0) 0) as [Ht|Ht];
    destruct (Z.eqb_spec (nth 1 (deblock_filter_level
                (block_at f (find_block f (row4x4 - 1) column4x4))) 0) 0)
      as [Hp|Hp]; cbn [andb];
    try (cbn; split; [tauto|discriminate]);
    destruct (SkipFilter f _ _) eqn:Hs; cbn;
    (split; [split; [intros; try discriminate; tauto
                    |intros [?|[[? ?]|?]]; try discriminate; lia]
            |intros; try discriminate; reflexivity]).
  - destruct (Z.eqb_spec column4x4 0) as [H0|H0];
      [cbn; split; [tauto|discriminate]|].
    destruct (Z.eqb_spec (nth 0 (deblock_filter_level
                (block_at f (find_block f row4x4 column4x4))) 0) 0) as [Ht|Ht];
    destruct (Z.eqb_spec (nth 0 (deblock_filter_level
                (block_at f (find_block f row4x4 (column4x4 - 1)))) 0) 0)
      as [Hp|Hp]; cbn [andb];
    try (cbn; split; [tauto|discriminate]);
    destruct (SkipFilter f _ _) eqn:Hs; cbn;
    (split; [split; [intros; try discriminate; tauto
                    |intros [?|[[? ?]|?]]; try discriminate; lia]
            |intros; try discriminate; reflexivity]).
Qed.

End WithTables.

End DeblockProofs.

Module SuperResProofs.
Import SuperRes.

Lemma seqZ_shift (a n : Z) (m s : nat) :
  0 <= n ->
  map (fun k => a + Z.of_nat k) (seq (s + Z.to_nat n) m)
  = map (fun k => (a + n) + Z.of_nat k) (seq s m).
Proof.
  intros Hn. revert s. induction m as [|m IH]; intros s; [reflexivity|].
  cbn [seq map]. rewrite <- IH. f_equal. lia.
Qed.

Lemma seqZ_app (a n m : Z) :
  0 <= n -> 0 <= m -> seqZ a n ++ seqZ (a + n) m = seqZ a (n + m).
Proof.
  intros Hn Hm. unfold seqZ.
  rewrite Z2Nat.inj_add by assumption.
  rewrite seq_app, map_app. f_equal.
  rewrite <- (seqZ_shift a n _ 0 Hn). reflexivity.
Qed.

Section Loop.
Variables num_threads q cur : Z.
Hypothesis Hq : 0 <= q.
Hypothesis Hcur : 0 <= cur.

Lemma superres_loop_length (k : nat) (i start : Z) :
  length (superres_loop k i start num_threads q cur) = k.
Proof.
  revert i start. induction k as [|k IH]; intros i start; simpl; [|rewrite IH]; reflexivity.
Qed.

Lemma superres_loop_nth (k : nat) :
  forall (i start : Z) (j : nat), (j < k)%nat ->
  nth_error (superres_loop k i start num_threads q cur) j
  = Some (if i + Z.of_nat j <? num_threads - 1
          then mkSuperResJob (start + Z.of_nat j * q) q true
          else mkSuperResJob (start + Z.of_nat j * q) cur false).
Proof.
  induction k as [|k IH]; intros i start j Hj; [lia|].
  destruct j as [|j]; cbn [superres_loop nth_error].
  - replace (i + Z.of_nat 0) with i by lia.
    replace (start + Z.of_nat 0 * q) with start by lia. reflexivity.
  - rewrite IH by lia.
    replace (i + 1 + Z.of_nat j) with (i + Z.of_nat (S j)) by lia.
    replace (start + q + Z.of_nat j * q) with (start + Z.of_nat (S j) * q)
      by lia.
    reflexivity.
Qed.

Lemma superres_loop_rows (k : nat) :
  forall (i start : Z), (1 <= k)%nat -> i + Z.of_nat k = num_threads ->
  flat_map job_rows (superres_loop k i start num_threads q cur)
  = seqZ start (q * (Z.of_nat k - 1) + cur).
Proof.
  induction k as [|k IH]; intros i start Hk Hi; [lia|].
  cbn [superres_loop flat_map].
  destruct k as [|k].
  - destruct (Z.ltb_spec i (num_threads - 1)); [lia|].
    cbn [superres_loop flat_map]. unfold job_rows; cbn.
    rewrite app_nil_r. f_equal. lia.
  - destruct (Z.ltb_spec i (num_threads - 1)); [|lia].
    rewrite (IH (i + 1) (start + q)) by lia.
    unfold job_rows; cbn [job_row4x4_start job_rows4x4].
    rewrite seqZ_app by lia. f_equal. lia.
Qed.

End Loop.

(** Claim C9: with [thread_count] pool threads, [ApplySuperResThreaded]
    starts [thread_count + 1] jobs: job [i < thread_count] runs on the pool
    and processes the [floor(rows4x4 / (thread_count + 1))] rows starting
    at [i] times that number; the last job runs on the calling thread and
    processes the remaining [rows4x4 - floor(..) * thread_count] rows,
    which is at least the pool share; and the jobs' rows, in order, are
    exactly [0, 1, ..., rows4x4 - 1], so the shares are consecutive,
    disjoint and cover every row once. *)
Theorem ApplySuperResThreaded_partition (thread_count rows4x4 : Z)
  (Ht : 0 <= thread_count) (Hr : 0 <= rows4x4) :
  let q := rows4x4 / (thread_count + 1) in
  let jobs := ApplySuperResThreaded thread_count rows4x4 in
  length jobs = Z.to_nat (thread_count + 1)
  /\ (forall i : nat, (i < Z.to_nat thread_count)%nat ->
      nth_error jobs i = Some (mkSuperResJob (Z.of_nat i * q) q true))
  /\ nth_error jobs (Z.to_nat thread_count)
     = Some (mkSuperResJob (q * thread_count) (rows4x4 - q * thread_count)
               false)
  /\ 0 <= q <= rows4x4 - q * thread_count
  /\ flat_map job_rows jobs = seqZ 0 rows4x4.
Proof.
  cbv zeta. unfold ApplySuperResThreaded.
  rewrite Z.quot_div_nonneg by lia.
  set (q := rows4x4 / (thread_count + 1)).
  assert (Hq : 0 <= q) by (apply Z.div_pos; lia).
  assert (Hqm : (thread_count + 1) * q <= rows4x4)
    by (apply Z.mul_div_le; lia).
  assert (Hcur : 0 <= rows4x4 - q * (thread_count + 1 - 1)) by nia.
  split; [apply superres_loop_length|].
  split.
  - intros i Hi. rewrite superres_loop_nth by lia.
    destruct (Z.ltb_spec (0 + Z.of_nat i) (thread_count + 1 - 1)); [|lia].
    replace (0 + Z.of_nat i * q) with (Z.of_nat i * q) by lia. reflexivity.
  - split.
    + rewrite superres_loop_nth by lia.
      destruct (Z.ltb_spec (0 + Z.of_nat (Z.to_nat thread_count))
                  (thread_count + 1 - 1)); [lia|].
      rewrite Z2Nat.id by lia.
      replace (0 + thread_count * q) with (q * thread_count) by lia.
      replace (rows4x4 - q * (thread_count + 1 - 1))
        with (rows4x4 - q * thread_count) by lia.
      reflexivity.
    + split; [nia|].
      rewrite superres_loop_rows by lia.
      f_equal. lia.
Qed.

End SuperResProofs.

Lemma ApplySuperResThreaded_partition_witness :
  (0 <= 3 /\ 0 <= 10) /\
  (let q := 10 / (3 + 1) in
   let jobs := SuperRes.ApplySuperResThreaded 3 10 in
   length jobs = Z.to_nat (3 + 1)
   /\ (forall i : nat, (i < Z.to_nat 3)%nat ->
       nth_error jobs i = Some (SuperRes.mkSuperResJob (Z.of_nat i * q) q true))
   /\ nth_error jobs (Z.to_nat 3)
      = Some (SuperRes.mkSuperResJob (q * 3) (10 - q * 3) false)
   /\ 0 <= q <= 10 - q * 3
   /\ flat_map SuperRes.job_rows jobs = SuperRes.seqZ 0 10).
Proof.
  split; [lia|].
  apply SuperResProofs.ApplySuperResThreaded_partition; lia.
Defined.

Module OutputLayersProofs.
Import OutputLayers.

Lemma firstn_S_nth {A : Type} (n : nat) (l : list A) (d : A) :
  (n < length l)%nat -> firstn (S n) l = firstn n l ++ [nth n l d].
Proof.
  revert n. induction l as [|a l IH]; intros n Hn; cbn [length] in Hn; [lia|].
  destruct n as [|n]; [reflexivity|].
  cbn [firstn nth app]. rewrite <- IH by lia. reflexivity.
Qed.

(** [n] calls on a unit holding [n] layers return them from index [n - 1]
    down to index 0. *)
Lemma dequeue_all_rev (l : list OutputLayer) (n : nat) :
  (n <= length l)%nat ->
  dequeue_all n (mkTemporalUnitLayers l (Z.of_nat n)) = rev (firstn n l).
Proof.
  induction n as [|n IH]; intros Hn; [reflexivity|].
  cbn [dequeue_all]. unfold DequeueFrame.
  cbn [output_layer_count output_layers].
  destruct (Z.gtb_spec (Z.of_nat (S n)) 0) as [_|H]; [|lia].
  replace (Z.of_nat (S n) - 1) with (Z.of_nat n) by lia.
  rewrite Nat2Z.id, IH by lia.
  rewrite (firstn_S_nth n l (mkOutputLayer 0 0)) by lia.
  rewrite rev_app_distr. reflexivity.
Qed.

(** An array sorted with [operator<] (no element is [<] its predecessor)
    has non-increasing positions. *)
Lemma sorted_positions (l : list OutputLayer) :
  Sorted (fun a b => OutputLayer_lt b a = false) l ->
  Sorted Z.ge (map position_in_temporal_unit l).
Proof.
  induction 1 as [|a l Hs IH Hhd]; cbn [map]; constructor; [exact IH|].
  destruct Hhd as [|b l' Hab]; cbn [map]; constructor.
  unfold OutputLayer_lt in Hab.
  destruct (Z.gtb_spec (position_in_temporal_unit b)
              (position_in_temporal_unit a)); [discriminate|lia].
Qed.

(** Claim C1 (as the code behaves): for the temporal unit with output layers
    at positions 2, 0 and 1, whatever array [std::sort] leaves (any
    arrangement of the three layers sorted with [operator<], i.e. by
    descending position), the monotonically decreasing index scan of
    [DequeueFrame] returns the array back to front, so successive calls
    return the layers at positions 0, 1, 2: ascending position, the
    display order. *)
Theorem DequeueFrame_layers_ascending (l : list OutputLayer)
  (Hperm : Permutation layers_201 l)
  (Hsorted : Sorted (fun a b => OutputLayer_lt b a = false) l) :
  dequeue_all 3 (mkTemporalUnitLayers l 3) = rev l
  /\ map position_in_temporal_unit (dequeue_all 3 (mkTemporalUnitLayers l 3))
     = [0; 1; 2].
Proof.
  assert (Hlen : length l = 3%nat)
    by (rewrite <- (Permutation_length Hperm); reflexivity).
  assert (Hdq : dequeue_all 3 (mkTemporalUnitLayers l 3) = rev l).
  { rewrite <- (firstn_all l) at 2. rewrite Hlen.
    apply (dequeue_all_rev l 3). lia. }
  split; [exact Hdq|].
  rewrite Hdq, map_rev.
  assert (Hpos : map position_in_temporal_unit l = [2; 1; 0]).
  { apply MotionVectorPredictionProofs.sorted_perm_unique.
    - apply sorted_positions. exact Hsorted.
    - repeat constructor; lia.
    - apply Permutation_sym.
      apply (Permutation_trans (l' := map position_in_temporal_unit layers_201)).
      + cbn. apply perm_skip, perm_swap.
      + apply Permutation_map. exact Hperm. }
  rewrite Hpos. reflexivity.
Qed.

(** The scenario of claim C1 as written: the layers finished at positions
    2, 0, 1 are sorted to positions [2; 1; 0], and three [DequeueFrame]
    calls return positions [0; 1; 2], not [2; 1; 0]. *)
Lemma DequeueFrame_order_not_descending :
  map position_in_temporal_unit
    (output_layers (finish_temporal_unit layers_201)) = [2; 1; 0]
  /\ map position_in_temporal_unit
       (dequeue_all 3 (finish_temporal_unit layers_201)) = [0; 1; 2]
  /\ map position_in_temporal_unit
       (dequeue_all 3 (finish_temporal_unit layers_201)) <> [2; 1; 0].
Proof.
  split; [reflexivity|]. split; [reflexivity|]. cbn. discriminate.
Qed.

Lemma DequeueFrame_layers_ascending_witness :
  let l := sort_output_layers layers_201 in
  (Permutation layers_201 l
   /\ Sorted (fun a b => OutputLayer_lt b a = false) l)
  /\ dequeue_all 3 (mkTemporalUnitLayers l 3) = rev l
  /\ map position_in_temporal_unit (dequeue_all 3 (mkTemporalUnitLayers l 3))
     = [0; 1; 2].
Proof.
  cbv zeta.
  assert (Hp : Permutation layers_201 (sort_output_layers layers_201)).
  { cbn. apply perm_skip, perm_swap. }
  assert (Hs : Sorted (fun a b => OutputLayer_lt b a = false)
                 (sort_output_layers layers_201)).
  { cbn. repeat constructor. }
  split; [split; assumption|].
  apply DequeueFrame_layers_ascending; assumption.
Defined.

End OutputLayersProofs.

Module CdefProofs.
Import Cdef.

(** Case analysis on the comparisons of the goal, closing the cases
    [lia] refutes as it goes. *)
Ltac split_comparisons :=
  repeat (cbn [andb orb negb];
          match goal with
          | |- context [Z.eqb ?x ?y] => destruct (Z.eqb_spec x y)
          | |- context [Z.leb ?x ?y] => destruct (Z.leb_spec x y)
          | |- context [Z.ltb ?x ?y] => destruct (Z.ltb_spec x y)
          end; try lia).

Section Loops.
Variables (r c : Z) (val : Z -> Z) (rds : Z -> Reads).
Variable body : Z -> Buffer * Reads -> Buffer * Reads.
Hypothesis Hbody : forall x acc,
  fst (body x acc) = upd (fst acc) r (c + x) (val x)
  /\ snd (body x acc) = snd acc ++ rds x.

Lemma for_x_cells (n : nat) : forall (x0 : Z) (acc : Buffer * Reads) (r' c' : Z),
  fst (for_x x0 n body acc) r' c'
  = if (r' =? r) && (c + x0 <=? c') && (c' <? c + x0 + Z.of_nat n)
    then val (c' - c) else fst acc r' c'.
Proof.
  induction n as [|n IH]; intros x0 acc r' c'; cbn [for_x].
  - split_comparisons; reflexivity.
  - rewrite IH. destruct (Hbody x0 acc) as [Hf _]. rewrite Hf. unfold upd.
    split_comparisons; try reflexivity; subst; f_equal; lia.
Qed.

Lemma for_x_reads (P : Z * Z -> Prop) (n : nat) :
  forall (x0 : Z) (acc : Buffer * Reads),
  Forall P (snd acc) ->
  (forall x, x0 <= x < x0 + Z.of_nat n -> Forall P (rds x)) ->
  Forall P (snd (for_x x0 n body acc)).
Proof.
  induction n as [|n IH]; intros x0 acc Hacc Hx; cbn [for_x]; [exact Hacc|].
  apply IH.
  - destruct (Hbody x0 acc) as [_ Hs]. rewrite Hs.
    apply Forall_app. split; [exact Hacc|]. apply Hx. lia.
  - intros x Hx'. apply Hx. lia.
Qed.

End Loops.

Section Rows.
Variable dr : Z.
Variable row : Z -> Buffer * Reads -> Buffer * Reads.
Variable G : Z -> Z -> Z -> Z.
Hypothesis Hrow : forall y acc r c,
  fst (row y acc) r c = if r =? dr + y then G y c (fst acc r c) else fst acc r c.

Lemma for_rows_cells (n : nat) : forall (y0 : Z) (acc : Buffer * Reads) (r c : Z),
  fst (for_rows y0 n row acc) r c
  = if (dr + y0 <=? r) && (r <? dr + y0 + Z.of_nat n)
    then G (r - dr) c (fst acc r c) else fst acc r c.
Proof.
  induction n as [|n IH]; intros y0 acc r c; cbn [for_rows].
  - split_comparisons; reflexivity.
  - rewrite IH, !Hrow.
    split_comparisons; try reflexivity; subst; f_equal; lia.
Qed.

Lemma for_rows_reads (P : Z * Z -> Prop) (n : nat) :
  forall (y0 : Z) (acc : Buffer * Reads),
  Forall P (snd acc) ->
  (forall y acc', y0 <= y < y0 + Z.of_nat n -> Forall P (snd acc') ->
     Forall P (snd (row y acc'))) ->
  Forall P (snd (for_rows y0 n row acc)).
Proof.
  induction n as [|n IH]; intros y0 acc Hacc Hy; cbn [for_rows]; [exact Hacc|].
  apply IH.
  - apply Hy; [lia|exact Hacc].
  - intros y acc' Hy' H. apply Hy; [lia|exact H].
Qed.

End Rows.

Section WithConstants.
Variables kCdefBorder kCdefLargeValue : Z.
Hypothesis Hborder : 0 <= kCdefBorder.

Lemma copy_cell_spec (src : Buffer) (sr sc dr dc : Z) (large : bool) :
  forall x acc,
  fst (copy_cell kCdefLargeValue src sr sc dr dc large x acc)
  = upd (fst acc) dr (dc + x)
      (if large then kCdefLargeValue else src sr (sc + x))
  /\ snd (copy_cell kCdefLargeValue src sr sc dr dc large x acc)
     = snd acc ++ (if large then [] else [(sr, sc + x)]).
Proof.
  intros x [b rd]. destruct large; cbn; [rewrite app_nil_r|]; split; reflexivity.
Qed.

Lemma memset_cell_spec (dr dc : Z) :
  forall x acc,
  fst (memset_cell kCdefLargeValue dr dc x acc)
  = upd (fst acc) dr (dc + x) kCdefLargeValue
  /\ snd (memset_cell kCdefLargeValue dr dc x acc) = snd acc ++ [].
Proof. intros x [b rd]. cbn. rewrite app_nil_r. split; reflexivity. Qed.

(** A copied row: columns [dc - kCdefBorder .. dc + unit_width +
    kCdefBorder - 1] of row [dr] get the sentinel left of the block at the
    left frame edge and right of it at the right frame edge, and the source
    sample at the same offset from [(sr, sc)] everywhere else. *)
Lemma copy_row_cells (src : Buffer) (sr sc dr dc bw uw : Z)
  (left right : bool) (acc : Buffer * Reads) (r c : Z) :
  0 <= bw <= uw + kCdefBorder ->
  fst (copy_row kCdefBorder kCdefLargeValue src sr sc dr dc bw uw left right
         acc) r c
  = if (r =? dr) && (dc - kCdefBorder <=? c) && (c <? dc + uw + kCdefBorder)
    then (if (left && (c - dc <? 0)) || (right && (bw <=? c - dc))
          then kCdefLargeValue else src sr (sc + (c - dc)))
    else fst acc r c.
Proof.
  intros Hbw. unfold copy_row.
  rewrite (for_x_cells dr dc _ _ _ (copy_cell_spec src sr sc dr dc right)).
  rewrite (for_x_cells dr dc _ _ _ (copy_cell_spec src sr sc dr dc false)).
  rewrite (for_x_cells dr dc _ _ _ (copy_cell_spec src sr sc dr dc left)).
  rewrite !Z2Nat.id by lia.
  destruct left, right; split_comparisons; reflexivity.
Qed.

Lemma copy_row_reads (P : Z * Z -> Prop) (src : Buffer) (sr sc dr dc bw uw : Z)
  (left right : bool) (acc : Buffer * Reads) :
  0 <= bw <= uw + kCdefBorder ->
  Forall P (snd acc) ->
  (forall x, - kCdefBorder <= x < uw + kCdefBorder ->
     (left = true -> 0 <= x) -> (right = true -> x < bw) -> P (sr, sc + x)) ->
  Forall P (snd (copy_row kCdefBorder kCdefLargeValue src sr sc dr dc bw uw
                   left right acc)).
Proof.
  intros Hbw Hacc Hx. unfold copy_row.
  apply (for_x_reads dr dc _ _ _ (copy_cell_spec src sr sc dr dc right)).
  - apply (for_x_reads dr dc _ _ _ (copy_cell_spec src sr sc dr dc false)).
    + apply (for_x_reads dr dc _ _ _ (copy_cell_spec src sr sc dr dc left)).
      * exact Hacc.
      * intros x Hr. destruct left; [constructor|].
        repeat constructor. apply Hx; [lia|discriminate|lia].
    + intros x Hr. repeat constructor. apply Hx; lia.
  - intros x Hr. destruct right; [constructor|].
    repeat constructor. apply Hx; [lia|lia|discriminate].
Qed.

Lemma fill_row_cells (dr dc uw : Z) (acc : Buffer * Reads) (r c : Z) :
  0 <= uw ->
  fst (fill_row kCdefBorder kCdefLargeValue dr dc uw acc) r c
  = if (r =? dr) && (dc <=? c) && (c <? dc + uw + 2 * kCdefBorder)
    then kCdefLargeValue else fst acc r c.
Proof.
  intros Huw. unfold fill_row.
  rewrite (for_x_cells dr dc _ _ _ (memset_cell_spec dr dc)).
  rewrite Z2Nat.id by lia. split_comparisons; reflexivity.
Qed.

Lemma fill_row_reads (dr dc uw : Z) (acc : Buffer * Reads) :
  snd (fill_row kCdefBorder kCdefLargeValue dr dc uw acc) = snd acc.
Proof.
  unfold fill_row. generalize 0 as x0. revert acc.
  induction (Z.to_nat (uw + 2 * kCdefBorder)) as [|n IH]; intros acc x0;
    cbn [for_x]; [reflexivity|].
  rewrite IH. destruct acc as [b rd]. reflexivity.
Qed.

Lemma CopyRows_fill_cells (src : Buffer) (sr sc bw uw : Z)
  (top bottom left right copy_top : bool) (n dr dc : Z)
  (acc : Buffer * Reads) (r c : Z) :
  (top || bottom) = true -> 0 <= uw -> 0 <= n ->
  fst (CopyRows kCdefBorder kCdefLargeValue src sr sc bw uw top bottom left
         right copy_top n dr dc acc) r c
  = if (dr <=? r) && (r <? dr + n)
       && ((if bottom then dc - kCdefBorder else dc) <=? c)
       && (c <? (if bottom then dc - kCdefBorder else dc)
                + uw + 2 * kCdefBorder)
    then kCdefLargeValue else fst acc r c.
Proof.
  intros Htb Huw Hn. set (dc' := if bottom then dc - kCdefBorder else dc).
  unfold CopyRows. rewrite Htb.
  rewrite (for_rows_cells dr _
             (fun _ c old => if (dc' <=? c) && (c <? dc' + uw + 2 * kCdefBorder)
                             then kCdefLargeValue else old)).
  - rewrite Z2Nat.id by lia. split_comparisons; reflexivity.
  - intros y acc' r' c'. rewrite fill_row_cells by lia.
    fold dc'. split_comparisons; reflexivity.
Qed.

Lemma CopyRows_copy_cells (src : Buffer) (sr sc bw uw : Z)
  (top bottom left right copy_top : bool) (n dr dc : Z)
  (acc : Buffer * Reads) (r c : Z) :
  (top || bottom) = false -> 0 <= bw <= uw + kCdefBorder -> 0 <= n ->
  fst (CopyRows kCdefBorder kCdefLargeValue src sr sc bw uw top bottom left
         right copy_top n dr dc acc) r c
  = if (dr <=? r) && (r <? dr + n)
       && ((if copy_top then dc + kCdefBorder else dc) - kCdefBorder <=? c)
       && (c <? (if copy_top then dc + kCdefBorder else dc) + uw + kCdefBorder)
    then (if (left && (c - (if copy_top then dc + kCdefBorder else dc) <? 0))
             || (right
                 && (bw <=? c - (if copy_top then dc + kCdefBorder else dc)))
          then kCdefLargeValue
          else src ((if copy_top then sr - kCdefBorder else sr) + (r - dr))
                   (sc + (c - (if copy_top then dc + kCdefBorder else dc))))
    else fst acc r c.
Proof.
  intros Htb Hbw Hn.
  set (sr' := if copy_top then sr - kCdefBorder else sr).
  set (dc' := if copy_top then dc + kCdefBorder else dc).
  unfold CopyRows. rewrite Htb.
  rewrite (for_rows_cells dr _
             (fun y c old =>
                if (dc' - kCdefBorder <=? c) && (c <? dc' + uw + kCdefBorder)
                then (if (left && (c - dc' <? 0)) || (right && (bw <=? c - dc'))
                      then kCdefLargeValue else src (sr' + y) (sc + (c - dc')))
                else old)).
  - rewrite Z2Nat.id by lia. split_comparisons; reflexivity.
  - intros y acc' r' c'. rewrite copy_row_cells by lia.
    fold sr' dc'. split_comparisons; reflexivity.
Qed.

Lemma CopyRows_fill_reads (P : Z * Z -> Prop) (src : Buffer) (sr sc bw uw : Z)
  (top bottom left right copy_top : bool) (n dr dc : Z)
  (acc : Buffer * Reads) :
  (top || bottom) = true ->
  Forall P (snd acc) ->
  Forall P (snd (CopyRows kCdefBorder kCdefLargeValue src sr sc bw uw top
                   bottom left right copy_top n dr dc acc)).
Proof.
  intros Htb Hacc. unfold CopyRows. rewrite Htb.
  apply for_rows_reads; [exact Hacc|].
  intros y acc' _ H. rewrite fill_row_reads. exact H.
Qed.

Lemma CopyRows_copy_reads (P : Z * Z -> Prop) (src : Buffer) (sr sc bw uw : Z)
  (top bottom left right copy_top : bool) (n dr dc : Z)
  (acc : Buffer * Reads) :
  (top || bottom) = false -> 0 <= bw <= uw + kCdefBorder ->
  let sr' := if copy_top then sr - kCdefBorder else sr in
  Forall P (snd acc) ->
  (forall y x, 0 <= y < Z.of_nat (Z.to_nat n) ->
     - kCdefBorder <= x < uw + kCdefBorder ->
     (left = true -> 0 <= x) -> (right = true -> x < bw) ->
     P (sr' + y, sc + x)) ->
  Forall P (snd (CopyRows kCdefBorder kCdefLargeValue src sr sc bw uw top
                   bottom left right copy_top n dr dc acc)).
Proof.
  intros Htb Hbw sr' Hacc Hyx. unfold CopyRows. rewrite Htb.
  apply for_rows_reads; [exact Hacc|].
  intros y acc' Hy H. apply copy_row_reads; [lia|exact H|].
  intros x Hx Hl Hr. apply Hyx; [lia|lia|exact Hl|exact Hr].
Qed.

Variables Align RightShiftWithRounding : Z -> Z -> Z.

Ltac rewrite_CopyRows :=
  repeat first
    [ rewrite CopyRows_fill_cells by (reflexivity || lia)
    | rewrite CopyRows_copy_cells by (reflexivity || lia) ].

Ltac reads_CopyRows :=
  repeat first
    [ apply CopyRows_fill_reads; [reflexivity|]
    | apply CopyRows_copy_reads; [reflexivity|lia| |]
    | match goal with |- Forall _ (snd (_, [])) => constructor end ].

(** Claim C6: the bordered working copy [PrepareCdefBlock] builds for a
    plane, rows [0 .. unit_height + 2 * kCdefBorder - 1] by columns
    [0 .. unit_width + 2 * kCdefBorder - 1], with cell [(i, j)] standing for
    the sample at offset [(i - kCdefBorder, j - kCdefBorder)] from the
    block's top-left sample [(start_y, start_x)]: a cell above the block at
    the top frame edge, below it at the bottom frame edge, left of it at
    the left frame edge or right of it at the right frame edge holds
    exactly [kCdefLargeValue]; every other cell (the block and the borders
    towards neighbouring blocks inside the frame) holds the source sample
    at that very offset. Every source sample read lies within
    [kCdefBorder] of the unit, and none lies beyond a frame edge of the
    block: above it at the top edge, below it at the bottom edge, left of
    it at the left edge or right of it at the right edge. *)
Theorem PrepareCdefPlane_border (src buf0 : Buffer)
  (width height subsampling_x subsampling_y : Z)
  (block_width4x4 block_height4x4 row_64x64 column_64x64 : Z) :
  let g := cdef_plane_geometry Align RightShiftWithRounding width height
             subsampling_x subsampling_y block_width4x4 block_height4x4
             row_64x64 column_64x64 in
  0 <= block_width g <= unit_width g ->
  0 <= block_height g <= unit_height g ->
  let out := PrepareCdefPlane kCdefBorder kCdefLargeValue src g (buf0, []) in
  (forall i j,
     0 <= i < unit_height g + 2 * kCdefBorder ->
     0 <= j < unit_width g + 2 * kCdefBorder ->
     fst out i j
     = if (is_frame_top g && (i <? kCdefBorder))
          || (is_frame_bottom g && (kCdefBorder + block_height g <=? i))
          || (is_frame_left g && (j <? kCdefBorder))
          || (is_frame_right g && (kCdefBorder + block_width g <=? j))
       then kCdefLargeValue
       else src (start_y g + (i - kCdefBorder)) (start_x g + (j - kCdefBorder)))
  /\ Forall (fun p : Z * Z =>
       let '(r, c) := p in
       start_y g - kCdefBorder <= r < start_y g + unit_height g + kCdefBorder
       /\ start_x g - kCdefBorder <= c < start_x g + unit_width g + kCdefBorder
       /\ (is_frame_top g = true -> start_y g <= r)
       /\ (is_frame_bottom g = true -> r < start_y g + block_height g)
       /\ (is_frame_left g = true -> start_x g <= c)
       /\ (is_frame_right g = true -> c < start_x g + block_width g))
     (snd out).
Proof.
  intros g Hw Hh out. subst out. clearbody g. unfold PrepareCdefPlane.
  split.
  - intros i j Hi Hj.
    destruct (is_frame_top g), (is_frame_bottom g), (is_frame_left g),
      (is_frame_right g); rewrite_CopyRows; cbn [orb andb];
      split_comparisons; cbn [orb andb]; try reflexivity; f_equal; lia.
  - destruct (is_frame_top g), (is_frame_bottom g), (is_frame_left g),
      (is_frame_right g); reads_CopyRows;
      intros y x Hy Hx Hl Hr; rewrite Z2Nat.id in Hy by lia; cbn iota beta;
      repeat split; intros; try discriminate;
      repeat match goal with
             | H : ?a = ?a -> _ |- _ => specialize (H eq_refl)
             | H : ?a = ?b -> _ |- _ => clear H
             end; lia.
Qed.

End WithConstants.

End CdefProofs.

Lemma PrepareCdefPlane_border_witness :
  let Align := fun x a => (x + a - 1) / a * a in
  let RightShiftWithRounding :=
    fun x s => Z.shiftr (x + Z.shiftr (Z.shiftl 1 s) 1) s in
  let g := Cdef.cdef_plane_geometry Align RightShiftWithRounding 100 84 0 0
             5 5 16 0 in
  let src := fun r c => 1000 * r + c in
  let out := Cdef.PrepareCdefPlane 2 30000 src g (fun _ _ => 0, []) in
  (0 <= 2 /\ 0 <= Cdef.block_width g <= Cdef.unit_width g
   /\ 0 <= Cdef.block_height g <= Cdef.unit_height g)
  /\ fst out 0 5 = src 62 3
  /\ fst out 3 0 = 30000
  /\ fst out 24 5 = 30000.
Proof.
  cbv zeta.
  assert (Hg : Cdef.cdef_plane_geometry (fun x a => (x + a - 1) / a * a)
                 (fun x s => Z.shiftr (x + Z.shiftr (Z.shiftl 1 s) 1) s)
                 100 84 0 0 5 5 16 0
               = Cdef.mkCdefPlaneGeometry 0 64 100 84 20 20 24 24
                   true false false true) by reflexivity.
  pose proof (CdefProofs.PrepareCdefPlane_border 2 30000 ltac:(lia)
                (fun x a => (x + a - 1) / a * a)
                (fun x s => Z.shiftr (x + Z.shiftr (Z.shiftl 1 s) 1) s)
                (fun r c => 1000 * r + c) (fun _ _ => 0)
                100 84 0 0 5 5 16 0) as Hthm.
  cbv zeta in Hthm. rewrite Hg in Hthm |- *. cbn in Hthm |- *.
  destruct (Hthm ltac:(lia) ltac:(lia)) as [Hcells _].
  split; [lia|].
  rewrite !Hcells by lia. split; [reflexivity|split; reflexivity].
Defined.

Module FrameBordersProofs.
Import FrameBorders.

Ltac cmp_cases :=
  repeat (cbn [andb orb negb];
          match goal with
          | |- context [Z.eqb ?x ?y] => destruct (Z.eqb_spec x y)
          | |- context [Z.leb ?x ?y] => destruct (Z.leb_spec x y)
          | |- context [Z.ltb ?x ?y] => destruct (Z.ltb_spec x y)
          end; try lia); cbn [andb orb negb]; try reflexivity.

Lemma Memset_n_spec : forall n m dst v q,
  Memset_n m dst v n q =
  if (dst <=? q) && (q <? dst + Z.of_nat n) then v else m q.
Proof.
  induction n as [|n IH]; intros m dst v q; cbn [Memset_n].
  - cmp_cases.
  - rewrite IH. unfold store. cmp_cases; reflexivity.
Qed.

Lemma Memset_spec m dst v count q : 0 <= count ->
  Memset m dst v count q =
  if (dst <=? q) && (q <? dst + count) then v else m q.
Proof.
  intros H. unfold Memset. rewrite Memset_n_spec, Z2Nat.id by lia. reflexivity.
Qed.

Lemma memcpy_n_spec : forall n m dst src q,
  src + Z.of_nat n <= dst \/ dst + Z.of_nat n <= src ->
  memcpy_n m dst src n q =
  if (dst <=? q) && (q <? dst + Z.of_nat n) then m (src + (q - dst)) else m q.
Proof.
  induction n as [|n IH]; intros m dst src q Hd; cbn [memcpy_n].
  - cmp_cases.
  - rewrite IH by lia. unfold store. cmp_cases; try reflexivity.
    + replace (src + (q - dst)) with src by lia; reflexivity.
    + f_equal; lia.
Qed.

Lemma memcpy_spec m dst src count q : 0 <= count ->
  src + count <= dst \/ dst + count <= src ->
  memcpy m dst src count q =
  if (dst <=? q) && (q <? dst + count) then m (src + (q - dst)) else m q.
Proof.
  intros H Hd. unfold memcpy. rewrite memcpy_n_spec, Z2Nat.id by lia.
  reflexivity.
Qed.

Lemma memcpy_from_n_spec : forall n m dst src_mem src q,
  memcpy_from_n m dst src_mem src n q =
  if (dst <=? q) && (q <? dst + Z.of_nat n) then src_mem (src + (q - dst))
  else m q.
Proof.
  induction n as [|n IH]; intros m dst src_mem src q; cbn [memcpy_from_n].
  - cmp_cases.
  - rewrite IH. unfold store. cmp_cases; try reflexivity.
    + replace (src + (q - dst)) with src by lia; reflexivity.
    + f_equal; lia.
Qed.

Lemma memcpy_from_spec m dst src_mem src count q : 0 <= count ->
  memcpy_from m dst src_mem src count q =
  if (dst <=? q) && (q <? dst + count) then src_mem (src + (q - dst)) else m q.
Proof.
  intros H. unfold memcpy_from. rewrite memcpy_from_n_spec, Z2Nat.id by lia.
  reflexivity.
Qed.

(** Two cells at offsets [0 <= k < stride] of different rows are at
    least a row apart. *)
Lemma row_apart (stride Y y k : Z) : Y <> y -> 0 <= k < stride ->
  Y * stride + k < y * stride \/ y * stride + stride <= Y * stride + k.
Proof.
  intros Hne Hk. destruct (Z.lt_total Y y) as [Hlt|[Heq|Hgt]].
  - left. assert (Y * stride + stride <= y * stride) by nia. lia.
  - contradiction.
  - right. assert (y * stride + stride <= Y * stride) by nia. lia.
Qed.

Lemma for_y_frame : forall n y0 body m q,
  (forall y m, y0 <= y < y0 + Z.of_nat n -> body y m q = m q) ->
  for_y y0 n body m q = m q.
Proof.
  induction n as [|n IH]; intros y0 body m q Hb; cbn [for_y]; [reflexivity|].
  rewrite IH by (intros; apply Hb; lia). apply Hb. lia.
Qed.

(** Rows [y0 .. y0 + n - 1] of [stride] cells from [base], each a copy
    of the [stride] cells at [src], outside them. *)
Lemma copy_rows_spec : forall n y0 m base src stride Y k,
  0 <= y0 -> 0 <= k < stride ->
  src + stride <= base \/ base + (y0 + Z.of_nat n) * stride <= src ->
  for_y y0 n (fun y m => memcpy m (base + y * stride) src stride) m
    (base + Y * stride + k) =
  if (y0 <=? Y) && (Y <? y0 + Z.of_nat n) then m (src + k)
  else m (base + Y * stride + k).
Proof.
  induction n as [|n IH]; intros y0 m base src stride Y k Hy0 Hk Hd;
    cbn [for_y].
  - cmp_cases.
  - rewrite Nat2Z.inj_succ in *. rewrite IH by lia.
    assert (0 <= y0 * stride) by nia.
    assert (0 <= Z.of_nat n * stride) by nia.
    destruct (Z.eq_dec Y y0) as [->|Hne].
    + rewrite !memcpy_spec by lia. cmp_cases.
      replace (src + (base + y0 * stride + k - (base + y0 * stride)))
        with (src + k) by lia. reflexivity.
    + pose proof (row_apart stride Y y0 k Hne Hk).
      rewrite !memcpy_spec by lia; cmp_cases; reflexivity.
Qed.

Lemma copy_rows_outside : forall n y0 m base src stride q,
  0 < stride ->
  q < base + y0 * stride \/ base + (y0 + Z.of_nat n) * stride <= q ->
  src + stride <= base + y0 * stride \/ base + (y0 + Z.of_nat n) * stride <= src ->
  for_y y0 n (fun y m => memcpy m (base + y * stride) src stride) m q = m q.
Proof.
  induction n as [|n IH]; intros y0 m base src stride q Hs Hq Hd;
    cbn [for_y]; [reflexivity|].
  rewrite Nat2Z.inj_succ in *. rewrite IH by lia.
  assert (0 <= Z.of_nat n * stride) by nia. rewrite memcpy_spec by lia. cmp_cases; reflexivity.
Qed.

Section Extend.
Variables start width stride left right : Z.
Hypothesis Hw : 1 <= width.
Hypothesis Hl : 0 <= left.
Hypothesis Hr : 0 <= right.
Hypothesis Hs : left + width + right <= stride.

Lemma extend_row_spec y m Y X : -left <= X < stride - left ->
  extend_row start width stride left right y m (start + Y * stride + X) =
  m (start + Y * stride + (if Y =? y then extend_col width right X else X)).
Proof.
  intros HX. unfold extend_row, extend_col.
  rewrite !Memset_spec by lia.
  destruct (Z.eq_dec Y y) as [->|Hne].
  - cmp_cases; f_equal; lia.
  - pose proof (row_apart stride Y y (X + left) Hne ltac:(lia)).
    cmp_cases; f_equal; lia.
Qed.

Lemma extend_rows_spec : forall n y0 m Y X, -left <= X < stride - left ->
  for_y y0 n (extend_row start width stride left right) m
    (start + Y * stride + X) =
  m (start + Y * stride +
     (if (y0 <=? Y) && (Y <? y0 + Z.of_nat n) then extend_col width right X
      else X)).
Proof.
  induction n as [|n IH]; intros y0 m Y X HX; cbn [for_y].
  - cmp_cases; f_equal; lia.
  - rewrite Nat2Z.inj_succ. rewrite IH by lia.
    assert (Hc : -left <= extend_col width right X < stride - left)
      by (unfold extend_col; cmp_cases).
    destruct ((y0 + 1 <=? Y) && (Y <? y0 + 1 + Z.of_nat n)) eqn:Hin.
    + rewrite extend_row_spec by lia.
      apply andb_true_iff in Hin as [H1 H2]. apply Z.leb_le in H1.
      cmp_cases.
    + rewrite extend_row_spec by lia.
      apply andb_false_iff in Hin.
      destruct Hin as [Hin|Hin]; [apply Z.leb_gt in Hin|apply Z.ltb_ge in Hin];
        cmp_cases; reflexivity.
Qed.

Lemma extend_rows_outside : forall n y0 m q,
  (q < start + y0 * stride - left \/
   start + (y0 + Z.of_nat n - 1) * stride + width + right <= q) ->
  for_y y0 n (extend_row start width stride left right) m q = m q.
Proof.
  intros n y0 m q Hq. apply for_y_frame. intros y m' Hy.
  unfold extend_row. rewrite !Memset_spec by lia.
  assert (y0 * stride <= y * stride) by nia.
  assert (y * stride <= (y0 + Z.of_nat n - 1) * stride) by nia.
  cmp_cases; reflexivity.
Qed.

End Extend.

Lemma extend_col_clamp width right x : 1 <= width -> x < width + right ->
  extend_col width right x = Z.max 0 (Z.min x (width - 1)).
Proof. intros. unfold extend_col. cmp_cases. Qed.

Ltac at_pos p :=
  match goal with |- ?f ?q = _ => replace q with p by lia end.

(** [ExtendFrame] fills every border pixel with the frame pixel nearest to
    it: the pixel of row [y] and column [x] of the extended frame, for
    [-top <= y < height + bottom] and [-left <= x < width + right], is the
    original pixel of row [clamp(y, 0, height - 1)] and column
    [clamp(x, 0, width - 1)]; the pixels of the frame itself keep their
    values. *)
Theorem ExtendFrame_clamp sizeof_pixel m start width height stride left right
  top bottom Y X :
  1 <= width -> 1 <= height -> 0 <= left -> 0 <= right -> 0 <= top ->
  0 <= bottom -> left + width + right <= stride / sizeof_pixel ->
  -top <= Y < height + bottom -> -left <= X < width + right ->
  ExtendFrame sizeof_pixel m start width height stride left right top bottom
    (start + Y * (stride / sizeof_pixel) + X) =
  m (start + Z.max 0 (Z.min Y (height - 1)) * (stride / sizeof_pixel)
     + Z.max 0 (Z.min X (width - 1))).
Proof.
  intros Hw Hh Hl Hr Ht Hb Hs HY HX.
  unfold ExtendFrame. cbv zeta.
  set (s := stride / sizeof_pixel) in *.
  rewrite <- (extend_col_clamp width right X) by lia.
  at_pos ((start - left - top * s) + (Y + top) * s + (X + left)).
  rewrite copy_rows_spec by (rewrite ?Z2Nat.id; lia).
  rewrite Z2Nat.id by lia.
  set (bb := start + height * s + width + right - s).
  destruct (Z_lt_le_dec Y 0) as [Hneg|Hnn].
  - cmp_cases.
    at_pos (bb + (- height) * s + (X - width - right + s)).
    rewrite copy_rows_spec by (rewrite ?Z2Nat.id; lia).
    rewrite Z2Nat.id by lia. cmp_cases.
    at_pos (start + 0 * s + X).
    rewrite extend_rows_spec by lia. cmp_cases.
    f_equal. replace (Z.max 0 (Z.min Y (height - 1))) with 0 by lia. lia.
  - cmp_cases.
    at_pos (bb + (Y - height) * s + (X - width - right + s)).
    rewrite copy_rows_spec by (rewrite ?Z2Nat.id; lia).
    rewrite Z2Nat.id by lia.
    destruct (Z_lt_le_dec Y height) as [Hin|Hbelow]; cmp_cases.
    + at_pos (start + Y * s + X).
      rewrite extend_rows_spec by lia. cmp_cases.
      f_equal. replace (Z.max 0 (Z.min Y (height - 1))) with Y by lia. lia.
    + at_pos (start + (height - 1) * s + X).
      rewrite extend_rows_spec by lia. cmp_cases.
      f_equal. replace (Z.max 0 (Z.min Y (height - 1))) with (height - 1)
        by lia. lia.
Qed.

(** [ExtendFrame] writes nothing outside the extended frame: every
    position before its top-left border pixel or after its bottom-right
    border pixel keeps its value (the padding of the rows in between is
    the only memory outside the borders it may touch). *)
Theorem ExtendFrame_writes_within sizeof_pixel m start width height stride
  left right top bottom q :
  1 <= width -> 1 <= height -> 0 <= left -> 0 <= right -> 0 <= top ->
  0 <= bottom -> left + width + right <= stride / sizeof_pixel ->
  q < start - left - top * (stride / sizeof_pixel) \/
  start + (height + bottom - 1) * (stride / sizeof_pixel) + width + right <= q ->
  ExtendFrame sizeof_pixel m start width height stride left right top bottom q
  = m q.
Proof.
  intros Hw Hh Hl Hr Ht Hb Hs Hq.
  unfold ExtendFrame. cbv zeta.
  set (s := stride / sizeof_pixel) in *.
  assert (0 <= top * s) by nia. assert (0 <= bottom * s) by nia.
  assert (s <= height * s) by nia.
  rewrite copy_rows_outside by (rewrite ?Z2Nat.id; lia).
  rewrite copy_rows_outside by (rewrite ?Z2Nat.id; lia).
  apply extend_rows_outside; rewrite ?Z2Nat.id; lia.
Qed.

(** [ExtendLine] fills the [left] pixels before the line with its first
    pixel and the [right] pixels after it with its last pixel, and changes
    nothing else. *)
Theorem ExtendLine_spec m start width left right q :
  1 <= width -> 0 <= left -> 0 <= right ->
  ExtendLine m start width left right q =
  if (start - left <=? q) && (q <? start) then m start
  else if (start + width <=? q) && (q <? start + width + right)
  then m (start + width - 1)
  else m q.
Proof.
  intros Hw Hl Hr. unfold ExtendLine. rewrite !Memset_spec by lia.
  cmp_cases; f_equal; lia.
Qed.

Lemma copy_plane_rows : forall n y0 src_mem source ss width m dest ds Y X,
  0 <= width <= ds -> 0 <= X < ds ->
  for_y y0 n (fun y m => memcpy_from m (dest + y * ds) src_mem
                           (source + y * ss) width) m (dest + Y * ds + X) =
  if (y0 <=? Y) && (Y <? y0 + Z.of_nat n) && (X <? width)
  then src_mem (source + Y * ss + X) else m (dest + Y * ds + X).
Proof.
  induction n as [|n IH];
    intros y0 src_mem source ss width m dest ds Y X Hw HX; cbn [for_y].
  - cmp_cases.
  - rewrite Nat2Z.inj_succ. rewrite IH by lia.
    rewrite !memcpy_from_spec by lia.
    destruct (Z.eq_dec Y y0) as [->|Hne].
    + cmp_cases; f_equal; lia.
    + pose proof (row_apart ds Y y0 X Hne HX). cmp_cases.
Qed.

(** [CopyPlane] copies the [width] x [height] block of [source] row by
    row: pixel [x] of destination row [y] becomes pixel [x] of source row
    [y] for [0 <= y < height] and [0 <= x < width], and the other pixels
    of the destination, the padding after each row included, keep their
    values. *)
Theorem CopyPlane_spec sizeof_pixel src_mem source source_stride width height
  m dest dest_stride Y X :
  0 <= width <= dest_stride / sizeof_pixel ->
  0 <= X < dest_stride / sizeof_pixel ->
  CopyPlane sizeof_pixel src_mem source source_stride width height m dest
    dest_stride (dest + Y * (dest_stride / sizeof_pixel) + X) =
  if (0 <=? Y) && (Y <? height) && (X <? width)
  then src_mem (source + Y * (source_stride / sizeof_pixel) + X)
  else m (dest + Y * (dest_stride / sizeof_pixel) + X).
Proof.
  intros Hw HX. unfold CopyPlane. cbv zeta.
  rewrite copy_plane_rows by lia.
  destruct (Z_lt_le_dec height 0) as [Hn|Hp].
  - replace (Z.to_nat height) with 0%nat by lia. cmp_cases.
  - rewrite Z2Nat.id by lia. reflexivity.
Qed.

End FrameBordersProofs.

Lemma ExtendFrame_clamp_witness :
  FrameBorders.ExtendFrame 2 (fun q => q) 100 4 3 20 2 3 2 1
    (100 + (-2) * (20 / 2) + 6) = 103
  /\ FrameBorders.ExtendFrame 2 (fun q => q) 100 4 3 20 2 3 2 1
    (100 + 3 * (20 / 2) + (-2)) = 120.
Proof.
  split.
  - rewrite (FrameBordersProofs.ExtendFrame_clamp 2 (fun q => q) 100 4 3 20
               2 3 2 1 (-2) 6) by (cbn; lia). reflexivity.
  - rewrite (FrameBordersProofs.ExtendFrame_clamp 2 (fun q => q) 100 4 3 20
               2 3 2 1 3 (-2)) by (cbn; lia). reflexivity.
Defined.

Lemma ExtendFrame_writes_within_witness :
  FrameBorders.ExtendFrame 2 (fun q => q) 100 4 3 20 2 3 2 1 77 = 77
  /\ FrameBorders.ExtendFrame 2 (fun q => q) 100 4 3 20 2 3 2 1 137 = 137.
Proof.
  split.
  - apply (FrameBordersProofs.ExtendFrame_writes_within 2 (fun q => q) 100 4 3
             20 2 3 2 1 77); cbn; lia.
  - apply (FrameBordersProofs.ExtendFrame_writes_within 2 (fun q => q) 100 4 3
             20 2 3 2 1 137); cbn; lia.
Defined.

Lemma ExtendLine_spec_witness :
  FrameBorders.ExtendLine (fun q => 10 * q) 50 4 2 3 48 = 500
  /\ FrameBorders.ExtendLine (fun q => 10 * q) 50 4 2 3 56 = 530.
Proof.
  split.
  - rewrite (FrameBordersProofs.ExtendLine_spec (fun q => 10 * q) 50 4 2 3 48)
      by lia. reflexivity.
  - rewrite (FrameBordersProofs.ExtendLine_spec (fun q => 10 * q) 50 4 2 3 56)
      by lia. reflexivity.
Defined.

Lemma CopyPlane_spec_witness :
  FrameBorders.CopyPlane 2 (fun q => 1000 + q) 10 16 3 2 (fun q => q) 200 12
    (200 + 1 * (12 / 2) + 2) = 1000 + (10 + 1 * (16 / 2) + 2)
  /\ FrameBorders.CopyPlane 2 (fun q => 1000 + q) 10 16 3 2 (fun q => q) 200 12
    (200 + 1 * (12 / 2) + 4) = 200 + 1 * (12 / 2) + 4.
Proof.
  split.
  - rewrite (FrameBordersProofs.CopyPlane_spec 2 (fun q => 1000 + q) 10 16 3 2
               (fun q => q) 200 12 1 2) by (cbn; lia). reflexivity.
  - rewrite (FrameBordersProofs.CopyPlane_spec 2 (fun q => 1000 + q) 10 16 3 2
               (fun q => q) 200 12 1 4) by (cbn; lia). reflexivity.
Defined.

Module LoopRestorationBlockProofs.
Import FrameBorders FrameBordersProofs LoopRestorationBlock.

Lemma copy_rows_at n src_mem src src_stride m dst dst_stride width r x q :
  0 <= width <= dst_stride -> 0 <= x < dst_stride ->
  q = dst + r * dst_stride + x ->
  copy_rows n src_mem src src_stride m dst dst_stride width q =
  if (0 <=? r) && (r <? Z.of_nat n) && (x <? width)
  then src_mem (src + r * src_stride + x) else m q.
Proof.
  intros Hw Hx ->. unfold copy_rows. rewrite copy_plane_rows by lia.
  reflexivity.
Qed.

(** [PrepareLoopRestorationBlock] fills the rows [0 .. height + 2 *
    (kRestorationVerticalBorder - 1) - 1] of [dest], [width + 2 *
    kRestorationHorizontalBorder] pixels each, and nothing else: the first
    [kRestorationVerticalBorder - 1] rows come from the deblock buffer,
    or, at the top of the frame, from the CDEF rows above the block; the
    rows of the block come from the CDEF buffer; the last
    [kRestorationVerticalBorder - 1] rows come from the deblock buffer,
    from its row [4 + kRestorationVerticalBorder - 1] on, or from its row
    [kRestorationVerticalBorder - 1] on when [frame_top_border] is set, or,
    at the bottom of the frame, from the CDEF rows below the block. *)
Theorem PrepareLoopRestorationBlock_rows VB HB sizeof_pixel cdef_mem
  cdef_buffer cdef_stride deblock_mem deblock_buffer deblock_stride m dest
  dest_stride width height top bottom :
  1 <= VB -> 1 <= height ->
  0 <= width + 2 * HB <= dest_stride / sizeof_pixel ->
  exists m',
    PrepareLoopRestorationBlock VB HB sizeof_pixel cdef_mem cdef_buffer
      cdef_stride deblock_mem deblock_buffer deblock_stride m dest dest_stride
      width height top bottom = Some m' /\
    forall r x, 0 <= x < dest_stride / sizeof_pixel ->
    let cs := cdef_stride / sizeof_pixel in
    let ds := deblock_stride / sizeof_pixel in
    let q := dest + r * (dest_stride / sizeof_pixel) + x in
    m' q =
    if (0 <=? r) && (r <? height + 2 * (VB - 1)) && (x <? width + 2 * HB) then
      if (r <? VB - 1) && negb top then
        deblock_mem (deblock_buffer - HB + r * ds + x)
      else if (height + (VB - 1) <=? r) && negb bottom then
        deblock_mem (deblock_buffer - HB + (if top then 0 else 4 * ds)
                     + (r - height) * ds + x)
      else cdef_mem (cdef_buffer - HB + (r - (VB - 1)) * cs + x)
    else m q.
Proof.
  intros HVB Hh Hw.
  unfold PrepareLoopRestorationBlock, CopyTwoRows. cbv zeta.
  set (cs := cdef_stride / sizeof_pixel).
  set (ds := deblock_stride / sizeof_pixel).
  set (dss := dest_stride / sizeof_pixel) in *.
  rewrite !Z2Nat.id by lia.
  destruct top, bottom; cbn [negb fst snd];
    (match goal with |- context [if ?h <=? 0 then _ else _] =>
       destruct (Z.leb_spec h 0); [lia|] end);
    eexists; (split; [reflexivity|]); intros r x Hx; cbv zeta.
  - rewrite (copy_rows_at _ _ _ _ _ _ _ _ r x) by lia.
    rewrite Z2Nat.id by lia. cmp_cases; f_equal; lia.
  - rewrite (copy_rows_at _ _ _ _ _ _ _ _ (r - (height + (VB - 1))) x) by lia.
    rewrite (copy_rows_at _ _ _ _ _ _ _ _ r x) by lia.
    rewrite !Z2Nat.id by lia. cmp_cases; f_equal; lia.
  - rewrite (copy_rows_at _ _ _ _ _ _ _ _ (r - (VB - 1)) x) by lia.
    rewrite (copy_rows_at _ _ _ _ _ _ _ _ r x) by lia.
    rewrite !Z2Nat.id by lia. cmp_cases; f_equal; lia.
  - rewrite (copy_rows_at _ _ _ _ _ _ _ _ (r - (height + (VB - 1))) x) by lia.
    rewrite (copy_rows_at _ _ _ _ _ _ _ _ (r - (VB - 1)) x) by lia.
    rewrite (copy_rows_at _ _ _ _ _ _ _ _ r x) by lia.
    rewrite !Z2Nat.id by lia. cmp_cases; f_equal; lia.
Qed.

End LoopRestorationBlockProofs.

Lemma PrepareLoopRestorationBlock_rows_witness :
  match LoopRestorationBlock.PrepareLoopRestorationBlock 3 3 1
          (fun q => 1000 + q) 500 40 (fun q => 2000 + q) 100 40 (fun _ => 0)
          0 20 10 4 false false with
  | Some m' => m' 5 = 2102 /\ m' 45 = 1502 /\ m' 145 = 2382 /\ m' 18 = 0
  | None => False
  end.
Proof.
  destruct (LoopRestorationBlockProofs.PrepareLoopRestorationBlock_rows 3 3 1
              (fun q => 1000 + q) 500 40 (fun q => 2000 + q) 100 40
              (fun _ => 0) 0 20 10 4 false false ltac:(lia) ltac:(lia)
              ltac:(cbn; lia)) as [m' [Heq H]].
  rewrite Heq.
  pose proof (H 0 5 ltac:(cbn; lia)) as H0.
  pose proof (H 2 5 ltac:(cbn; lia)) as H2.
  pose proof (H 7 5 ltac:(cbn; lia)) as H7.
  pose proof (H 0 18 ltac:(cbn; lia)) as H18.
  cbn in H0, H2, H7, H18.
  rewrite H0, H2, H7, H18. repeat split.
Defined.

Module DeblockChromaProofs.
Import Deblock DeblockChroma.

(** For every power of two [filter_length >= 4] (the lengths the
    deblocking filters pass it, [min] of two transform sizes),
    [GetLoopFilterSizeY] picks the same size as the branching code its
    comment gives: [kLoopFilterSize4] for 4, [kLoopFilterSize8] for 8 and
    [kLoopFilterSize14] for the larger ones. *)
Theorem GetLoopFilterSizeY_branch_free k : 2 <= k ->
  GetLoopFilterSizeY (2 ^ k) = GetLoopFilterSizeY_branching (2 ^ k).
Proof.
  intros Hk. unfold GetLoopFilterSizeY, GetLoopFilterSizeY_branching.
  destruct (Z.eq_dec k 2) as [->|H2]; [reflexivity|].
  destruct (Z.eq_dec k 3) as [->|H3]; [reflexivity|].
  assert (16 <= 2 ^ k).
  { replace 16 with (2 ^ 4) by reflexivity. apply Z.pow_le_mono_r; lia. }
  destruct (Z.gtb_spec (2 ^ k) 4), (Z.gtb_spec (2 ^ k) 8),
    (Z.eqb_spec (2 ^ k) 4), (Z.eqb_spec (2 ^ k) 8); lia.
Qed.

Section WithTables.
Variables kTransformWidth kTransformHeight : nat -> Z.
Variable kDeblockFilterLevelIndex : Z -> Z -> nat.
Variable GetDeblockPosition : Z -> Z -> Z.
Variables kPlaneU kPlaneV kLoopFilterTypeVertical kLoopFilterTypeHorizontal : Z.

Lemma plane_level_spec f need fid bp bp_prev level0 :
  let lt := nth fid (deblock_filter_level (block_at (luma f) bp)) 0 in
  let lp := nth fid (deblock_filter_level (block_at (luma f) bp_prev)) 0 in
  fst (plane_level f need fid bp bp_prev level0) =
    need && negb ((lt =? 0) && (lp =? 0)) /\
  (fst (plane_level f need fid bp bp_prev level0) = true ->
   snd (plane_level f need fid bp bp_prev level0) =
     (if lt =? 0 then lp else lt)).
Proof.
  cbv zeta. unfold plane_level.
  destruct need; [|split; [reflexivity|discriminate]].
  destruct (nth fid _ 0 =? 0) eqn:Ht;
    [destruct (nth fid (deblock_filter_level (block_at (luma f) bp_prev)) 0 =? 0)
       eqn:Hp|]; cbn; split; auto; discriminate.
Qed.

Ltac uv_cases :=
  match goal with
  | |- context [plane_level ?f ?need ?fid ?bp ?bpp ?l0] =>
      let Hs := fresh "Hs" in let Ht := fresh "Ht" in let E := fresh "E" in
      destruct (plane_level_spec f need fid bp bpp l0) as [Hs Ht];
      destruct (plane_level f need fid bp bpp l0) as [? ?] eqn:E;
      cbn [fst snd] in Hs, Ht; rewrite <- Hs
  end.

(** [GetHorizontalDeblockFilterEdgeInfoUV] asks to filter the U edge
    exactly when the edge is not the first chroma row, the U loop-filter
    level of the frame is not 0, the U level of the block or of the block
    above is not 0, and the two blocks are not one skipped inter block; the
    V edge likewise. A plane it asks to filter gets the block's level, or
    the level of the block above when the block's is 0 (so never level 0),
    and when it asks to filter either plane the filter length is the
    smaller of the two blocks' chroma transform heights. [*step] is always
    the block's chroma transform height. *)
Theorem HorizontalDeblockFilterEdgeInfoUV_decision f row4x4 column4x4
  level_u0 level_v0 filter_length0 :
  let r := GetDeblockPosition row4x4 (subsampling_y f) in
  let c := GetDeblockPosition column4x4 (subsampling_x f) in
  let bp := find_block (luma f) r c in
  let bp_prev := find_block (luma f) (r - Z.shiftl 1 (subsampling_y f)) c in
  let lvl id b := nth id (deblock_filter_level (block_at (luma f) b)) 0 in
  let id_u := kDeblockFilterLevelIndex kPlaneU kLoopFilterTypeHorizontal in
  let id_v := kDeblockFilterLevelIndex kPlaneV kLoopFilterTypeHorizontal in
  let out := GetHorizontalDeblockFilterEdgeInfoUV kTransformHeight
               kDeblockFilterLevelIndex GetDeblockPosition kPlaneU kPlaneV
               kLoopFilterTypeHorizontal f row4x4 column4x4 level_u0 level_v0
               filter_length0 in
  let edge := negb (r =? subsampling_y f) && negb (SkipFilter (luma f) bp bp_prev) in
  uv_step out = kTransformHeight (uv_transform_size f bp) /\
  need_filter_u out =
    edge && (negb (loop_filter_level f (kPlaneU + 1) =? 0)
             && negb ((lvl id_u bp =? 0) && (lvl id_u bp_prev =? 0))) /\
  need_filter_v out =
    edge && (negb (loop_filter_level f (kPlaneV + 1) =? 0)
             && negb ((lvl id_v bp =? 0) && (lvl id_v bp_prev =? 0))) /\
  (need_filter_u out = true ->
   level_u out = if lvl id_u bp =? 0 then lvl id_u bp_prev else lvl id_u bp) /\
  (need_filter_v out = true ->
   level_v out = if lvl id_v bp =? 0 then lvl id_v bp_prev else lvl id_v bp) /\
  (need_filter_u out || need_filter_v out = true ->
   uv_filter_length out =
     Z.min (uv_step out) (kTransformHeight (uv_transform_size f bp_prev))).
Proof.
  cbv zeta. unfold GetHorizontalDeblockFilterEdgeInfoUV. cbv zeta.
  destruct (_ =? subsampling_y f) eqn:Er;
    [cbn; repeat split; discriminate|].
  uv_cases. uv_cases.
  destruct b, b0, (SkipFilter _ _ _); cbn; repeat split; auto; discriminate.
Qed.

(** [GetVerticalDeblockFilterEdgeInfoUV] decides like its horizontal twin
    with the block to the left ([1 << subsampling_x] columns before) in
    place of the block above and transform widths in place of heights:
    it asks to filter a plane exactly when the edge is not the first chroma
    column, the plane's loop-filter level is not 0, the plane's level of
    the block or of the block to the left is not 0, and the two blocks are
    not one skipped inter block. *)
Theorem VerticalDeblockFilterEdgeInfoUV_decision f row4x4 column4x4
  level_u0 level_v0 filter_length0 :
  let r := GetDeblockPosition row4x4 (subsampling_y f) in
  let c := GetDeblockPosition column4x4 (subsampling_x f) in
  let bp := find_block (luma f) r c in
  let bp_prev := find_block (luma f) r (c - Z.shiftl 1 (subsampling_x f)) in
  let lvl id b := nth id (deblock_filter_level (block_at (luma f) b)) 0 in
  let id_u := kDeblockFilterLevelIndex kPlaneU kLoopFilterTypeVertical in
  let id_v := kDeblockFilterLevelIndex kPlaneV kLoopFilterTypeVertical in
  let out := GetVerticalDeblockFilterEdgeInfoUV kTransformWidth
               kDeblockFilterLevelIndex GetDeblockPosition kPlaneU kPlaneV
               kLoopFilterTypeVertical f row4x4 column4x4 level_u0 level_v0
               filter_length0 in
  let edge := negb (c =? subsampling_x f) && negb (SkipFilter (luma f) bp bp_prev) in
  uv_step out = kTransformWidth (uv_transform_size f bp) /\
  need_filter_u out =
    edge && (negb (loop_filter_level f (kPlaneU + 1) =? 0)
             && negb ((lvl id_u bp =? 0) && (lvl id_u bp_prev =? 0))) /\
  need_filter_v out =
    edge && (negb (loop_filter_level f (kPlaneV + 1) =? 0)
             && negb ((lvl id_v bp =? 0) && (lvl id_v bp_prev =? 0))) /\
  (need_filter_u out = true ->
   level_u out = if lvl id_u bp =? 0 then lvl id_u bp_prev else lvl id_u bp) /\
  (need_filter_v out = true ->
   level_v out = if lvl id_v bp =? 0 then lvl id_v bp_prev else lvl id_v bp) /\
  (need_filter_u out || need_filter_v out = true ->
   uv_filter_length out =
     Z.min (uv_step out) (kTransformWidth (uv_transform_size f bp_prev))).
Proof.
  cbv zeta. unfold GetVerticalDeblockFilterEdgeInfoUV. cbv zeta.
  destruct (_ =? subsampling_x f) eqn:Ec;
    [cbn; repeat split; discriminate|].
  uv_cases. uv_cases.
  destruct b, b0, (SkipFilter _ _ _); cbn; repeat split; auto; discriminate.
Qed.

End WithTables.

End DeblockChromaProofs.

Lemma GetLoopFilterSizeY_branch_free_witness :
  2 <= 5 /\
  DeblockChroma.GetLoopFilterSizeY (2 ^ 5) =
    DeblockChroma.GetLoopFilterSizeY_branching (2 ^ 5).
Proof.
  split; [lia|]. apply (DeblockChromaProofs.GetLoopFilterSizeY_branch_free 5). lia.
Defined.

Module DeblockOrderProofs.
Import DeblockOrder.

Section WithUnit.
Variable U : Z.
Hypothesis HU : 1 <= U.
Variable columns4x4 : Z.

(** A horizontal call is ready when the vertical calls of its unit and of
    the unit to its right (when there is one) are done. *)
Definition call_ready (done : list DeblockCall) (x : DeblockCall) : Prop :=
  match x with
  | VerticalDeblockFilterCall _ _ => True
  | HorizontalDeblockFilterCall r c =>
      In (VerticalDeblockFilterCall r c) done /\
      (c + U < columns4x4 -> In (VerticalDeblockFilterCall r (c + U)) done)
  end.

Fixpoint ordered_from (done : list DeblockCall) (l : list DeblockCall) : Prop :=
  match l with
  | [] => True
  | x :: l' => call_ready done x /\ ordered_from (done ++ [x]) l'
  end.

Lemma call_ready_mono p p' x : incl p p' -> call_ready p x -> call_ready p' x.
Proof.
  destruct x; cbn; [tauto|]. intros Hi [H1 H2]. split; auto.
Qed.

Lemma ordered_mono : forall l p p', incl p p' -> ordered_from p l ->
  ordered_from p' l.
Proof.
  induction l as [|x l IH]; intros p p' Hi; cbn; [tauto|].
  intros [Hx Hl]. split; [eapply call_ready_mono; eauto|].
  eapply IH; [|exact Hl]. intros y Hy. apply in_app_or in Hy as [Hy|Hy];
    apply in_or_app; auto.
Qed.

Lemma ordered_app : forall l1 l2 p,
  ordered_from p l1 -> ordered_from (p ++ l1) l2 -> ordered_from p (l1 ++ l2).
Proof.
  induction l1 as [|x l1 IH]; intros l2 p H1 H2; cbn in *.
  - rewrite app_nil_r in H2. exact H2.
  - destruct H1 as [Hx H1]. split; [exact Hx|]. apply IH; [exact H1|].
    rewrite <- app_assoc. exact H2.
Qed.

Lemma ordered_nth : forall l p i x, ordered_from p l -> nth_error l i = Some x ->
  call_ready (p ++ firstn i l) x.
Proof.
  induction l as [|y l IH]; intros p i x Hl Hi; [destruct i; discriminate|].
  destruct i as [|i]; cbn in Hi, Hl |- *.
  - injection Hi as <-. rewrite app_nil_r. tauto.
  - destruct Hl as [_ Hl].
    replace (p ++ y :: firstn i l) with ((p ++ [y]) ++ firstn i l)
      by (rewrite <- app_assoc; reflexivity).
    exact (IH _ _ _ Hl Hi).
Qed.

Lemma mult_lt_cancel (a b : Z) : a * U < b * U -> a < b.
Proof. intros H. nia. Qed.

Lemma column_loop_ok r : forall fuel (k0 : nat) p,
  (Z.to_nat (columns4x4 - Z.of_nat k0 * U) < fuel)%nat ->
  (0 < Z.of_nat k0 -> In (VerticalDeblockFilterCall r (Z.of_nat k0 * U - U)) p) ->
  exists calls (ke : nat),
    column_loop U fuel columns4x4 r (Z.of_nat k0 * U) =
      Some (calls, Z.of_nat ke * U) /\
    ordered_from p calls /\
    (k0 <= ke)%nat /\ columns4x4 <= Z.of_nat ke * U /\
    (Z.of_nat k0 * U < columns4x4 ->
     Z.of_nat ke * U - U < columns4x4 /\
     In (VerticalDeblockFilterCall r (Z.of_nat ke * U - U)) (p ++ calls)) /\
    (columns4x4 <= Z.of_nat k0 * U -> ke = k0 /\ calls = []) /\
    (forall x, In x calls ->
       exists k : nat, (k0 <= k + 1)%nat /\ Z.of_nat k * U < columns4x4 /\
         (x = VerticalDeblockFilterCall r (Z.of_nat k * U) /\ (k0 <= k)%nat \/
          x = HorizontalDeblockFilterCall r (Z.of_nat k * U))) /\
    (forall k : nat, (k0 <= k)%nat -> Z.of_nat k * U < columns4x4 ->
       In (VerticalDeblockFilterCall r (Z.of_nat k * U)) calls) /\
    (forall k : nat, (k0 <= k + 1)%nat -> Z.of_nat k * U + U < columns4x4 ->
       In (HorizontalDeblockFilterCall r (Z.of_nat k * U)) calls).
Proof.
  induction fuel as [|fuel IH]; intros k0 p Hf Hp; [lia|].
  cbn [column_loop].
  destruct (Z.ltb_spec (Z.of_nat k0 * U) columns4x4) as [Hlt|Hge].
  - set (head := VerticalDeblockFilterCall r (Z.of_nat k0 * U) ::
                 (if negb (Z.of_nat k0 * U =? 0)
                  then [HorizontalDeblockFilterCall r (Z.of_nat k0 * U - U)]
                  else [])).
    assert (HS : Z.of_nat k0 * U + U = Z.of_nat (S k0) * U)
      by (rewrite Nat2Z.inj_succ; lia).
    destruct (IH (S k0) (p ++ head)) as
        [calls [ke [Heq [Hord [Hle [HC [Hlast [Hstop [Hsound [HcovV HcovH]]]]]]]]]].
    { rewrite <- HS. lia. }
    { intros _. apply in_or_app. right. left. f_equal. lia. }
    rewrite HS, Heq. exists (head ++ calls), ke.
    assert (Hhead : ordered_from p head).
    { unfold head. cbn. split; [exact I|].
      destruct (Z.eqb_spec (Z.of_nat k0 * U) 0) as [H0|H0]; cbn; [exact I|].
      split; [|exact I]. split.
      - apply in_or_app. left. apply Hp. nia.
      - intros _. apply in_or_app. right. left. f_equal. lia. }
    split; [reflexivity|].
    split; [apply ordered_app; [exact Hhead|exact Hord]|].
    split; [lia|]. split; [exact HC|].
    split.
    { intros _. destruct (Z_lt_le_dec (Z.of_nat (S k0) * U) columns4x4) as [H1|H1].
      - destruct (Hlast H1) as [Ha Hb]. split; [exact Ha|].
        rewrite app_assoc. exact Hb.
      - destruct (Hstop H1) as [-> ->]. rewrite <- HS.
        split; [lia|]. apply in_or_app. right. apply in_or_app. left.
        left. f_equal. lia. }
    split; [intros; lia|].
    split.
    { intros x Hx. apply in_app_or in Hx as [Hx|Hx].
      - unfold head in Hx. destruct Hx as [<-|Hx].
        + exists k0. split; [lia|]. split; [exact Hlt|]. left. split; [reflexivity|lia].
        + destruct (Z.eqb_spec (Z.of_nat k0 * U) 0) as [H0|H0]; cbn in Hx;
            [contradiction|].
          destruct Hx as [<-|[]].
          destruct k0 as [|k]; [cbn in H0; lia|].
          exists k. rewrite Nat2Z.inj_succ in Hlt |- *. split; [lia|].
          split; [nia|]. right. f_equal. lia.
      - destruct (Hsound x Hx) as [k [Hk1 [Hk2 Hk3]]]. exists k.
        split; [lia|]. split; [exact Hk2|].
        destruct Hk3 as [[Hk3 Hk4]|Hk3]; [left; split; [exact Hk3|lia]|right; exact Hk3]. }
    split.
    { intros k Hk Hkc. apply in_or_app.
      destruct (Nat.eq_dec k k0) as [->|Hne].
      - left. left. reflexivity.
      - right. apply HcovV; [lia|exact Hkc]. }
    { intros k Hk Hkc. apply in_or_app.
      destruct (Nat.eq_dec (k + 1) k0) as [<-|Hne].
      - left. right.
        rewrite Nat2Z.inj_add. cbn [Z.of_nat Pos.of_succ_nat].
        destruct (Z.eqb_spec ((Z.of_nat k + 1) * U) 0) as [H0|H0]; [nia|].
        cbn. left. f_equal. lia.
      - right. apply HcovH; [lia|exact Hkc]. }
  - exists [], k0. split; [reflexivity|].
    split; [exact I|]. split; [lia|]. split; [exact Hge|].
    split; [intros; lia|]. split; [auto|].
    split; [intros x []|].
    split.
    { intros k Hk Hkc. exfalso.
      assert (Z.of_nat k * U < Z.of_nat k0 * U) by lia.
      apply mult_lt_cancel in H. lia. }
    { intros k Hk Hkc. exfalso.
      assert ((Z.of_nat k + 1) * U < Z.of_nat k0 * U) by lia.
      apply mult_lt_cancel in H. lia. }
Qed.

Lemma row_loop_ok rows4x4 row4x4_start sb4x4 : 1 <= columns4x4 ->
  forall fuel (j0 : nat) p,
  (Z.to_nat (sb4x4 - 16 * Z.of_nat j0) < fuel)%nat ->
  exists t,
    row_loop U fuel rows4x4 columns4x4 row4x4_start sb4x4 (16 * Z.of_nat j0)
      = Some t /\
    ordered_from p t /\
    (forall x, In x t -> exists j k : nat,
       (j0 <= j)%nat /\ 16 * Z.of_nat j < sb4x4 /\
       row4x4_start + 16 * Z.of_nat j < rows4x4 /\ Z.of_nat k * U < columns4x4 /\
       (x = VerticalDeblockFilterCall (row4x4_start + 16 * Z.of_nat j) (Z.of_nat k * U) \/
        x = HorizontalDeblockFilterCall (row4x4_start + 16 * Z.of_nat j) (Z.of_nat k * U))) /\
    (forall j k : nat, (j0 <= j)%nat -> 16 * Z.of_nat j < sb4x4 ->
       row4x4_start + 16 * Z.of_nat j < rows4x4 -> Z.of_nat k * U < columns4x4 ->
       In (VerticalDeblockFilterCall (row4x4_start + 16 * Z.of_nat j) (Z.of_nat k * U)) t /\
       In (HorizontalDeblockFilterCall (row4x4_start + 16 * Z.of_nat j) (Z.of_nat k * U)) t).
Proof.
  intros HC fuel. induction fuel as [|fuel IH]; intros j0 p Hf; [lia|].
  cbn [row_loop].
  destruct (Z.ltb_spec (16 * Z.of_nat j0) sb4x4) as [Hy|Hy].
  2:{ exists []. split; [reflexivity|]. split; [exact I|].
      split; [intros x []|]. intros j k Hj Hjs. lia. }
  destruct (Z.geb_spec (row4x4_start + 16 * Z.of_nat j0) rows4x4) as [Hr|Hr].
  { exists []. split; [reflexivity|]. split; [exact I|].
    split; [intros x []|]. intros j k Hj Hjs Hjr. lia. }
  set (r := row4x4_start + 16 * Z.of_nat j0).
  destruct (column_loop_ok r (S (Z.to_nat columns4x4)) 0 p) as
      [calls [ke [Heq [Hord [_ [HCe [Hlast [_ [Hsound [HcovV HcovH]]]]]]]]]];
    [cbn; lia|cbn; lia|].
  cbn [Z.of_nat Z.mul] in Heq, Hlast. rewrite Heq.
  destruct (Hlast ltac:(lia)) as [Hke HinV].
  set (last := HorizontalDeblockFilterCall r (Z.of_nat ke * U - U)).
  destruct (IH (S j0) (p ++ calls ++ [last])) as [t [Heqt [Hordt [Hsoundt Hcovt]]]].
  { rewrite Nat2Z.inj_succ. lia. }
  replace (16 * Z.of_nat j0 + 16) with (16 * Z.of_nat (S j0))
    by (rewrite Nat2Z.inj_succ; lia).
  rewrite Heqt. exists ((calls ++ [last]) ++ t).
  assert (Hke1 : (1 <= ke)%nat) by (destruct ke; [cbn in HCe; lia|lia]).
  split; [reflexivity|].
  split.
  { apply ordered_app; [apply ordered_app; [exact Hord|]|].
    - cbn. split; [|exact I]. split; [exact HinV|]. intros. lia.
    - exact Hordt. }
  split.
  { intros x Hx. apply in_app_or in Hx as [Hx|Hx]; [apply in_app_or in Hx as [Hx|Hx]|].
    - destruct (Hsound x Hx) as [k [_ [Hk Hx']]]. exists j0, k.
      split; [lia|]. split; [exact Hy|]. split; [lia|]. split; [exact Hk|].
      destruct Hx' as [[Hx' _]|Hx']; [left|right]; exact Hx'.
    - destruct Hx as [<-|[]]. exists j0, (ke - 1)%nat.
      split; [lia|]. split; [exact Hy|]. split; [lia|].
      rewrite Nat2Z.inj_sub by lia. split; [lia|]. right. unfold last. f_equal. lia.
    - destruct (Hsoundt x Hx) as [j [k [Hj Hrest]]]. exists j, k. split; [lia|].
      exact Hrest. }
  { intros j k Hj Hjs Hjr Hkc. destruct (Nat.eq_dec j j0) as [->|Hne].
    - split.
      + apply in_or_app. left. apply in_or_app. left. apply HcovV; [lia|exact Hkc].
      + apply in_or_app. left. apply in_or_app.
        destruct (Z_lt_le_dec (Z.of_nat k * U + U) columns4x4) as [Hk|Hk].
        * left. apply HcovH; [lia|exact Hk].
        * right. left. unfold last. f_equal.
          assert (Z.of_nat k < Z.of_nat ke) by (apply mult_lt_cancel; lia).
          assert (Z.of_nat ke - 1 < Z.of_nat k + 1)
            by (apply mult_lt_cancel; lia).
          assert (Z.of_nat k = Z.of_nat ke - 1) by lia. nia.
    - destruct (Hcovt j k ltac:(lia) Hjs Hjr Hkc) as [H1 H2].
      split; apply in_or_app; right; assumption. }
Qed.

End WithUnit.

(** [ApplyDeblockFilterForOneSuperBlockRow] filters every unit
    ([kNum4x4InLoopFilterUnit] columns of 4x4 blocks, 16 rows) of the
    superblock row inside the frame both vertically and horizontally,
    calls no filter outside the frame, and filters a unit horizontally
    only after it has filtered vertically that unit and the unit to its
    right (when the frame has one). *)
Theorem ApplyDeblockFilterForOneSuperBlockRow_order kNum4x4InLoopFilterUnit
  rows4x4 columns4x4 row4x4_start sb4x4 :
  1 <= kNum4x4InLoopFilterUnit -> 1 <= columns4x4 ->
  let U := kNum4x4InLoopFilterUnit in
  exists calls,
    ApplyDeblockFilterForOneSuperBlockRow U rows4x4 columns4x4 row4x4_start
      sb4x4 = Some calls /\
    (forall i r c, nth_error calls i = Some (HorizontalDeblockFilterCall r c) ->
       In (VerticalDeblockFilterCall r c) (firstn i calls) /\
       (c + U < columns4x4 ->
        In (VerticalDeblockFilterCall r (c + U)) (firstn i calls))) /\
    (forall j k : nat, 16 * Z.of_nat j < sb4x4 ->
       row4x4_start + 16 * Z.of_nat j < rows4x4 -> Z.of_nat k * U < columns4x4 ->
       In (VerticalDeblockFilterCall (row4x4_start + 16 * Z.of_nat j)
             (Z.of_nat k * U)) calls /\
       In (HorizontalDeblockFilterCall (row4x4_start + 16 * Z.of_nat j)
             (Z.of_nat k * U)) calls) /\
    (forall x, In x calls -> exists j k : nat,
       16 * Z.of_nat j < sb4x4 /\ row4x4_start + 16 * Z.of_nat j < rows4x4 /\
       Z.of_nat k * U < columns4x4 /\
       (x = VerticalDeblockFilterCall (row4x4_start + 16 * Z.of_nat j)
              (Z.of_nat k * U) \/
        x = HorizontalDeblockFilterCall (row4x4_start + 16 * Z.of_nat j)
              (Z.of_nat k * U))).
Proof.
  intros HU HC U.
  destruct (row_loop_ok U HU columns4x4 rows4x4 row4x4_start sb4x4 HC
              (S (Z.to_nat sb4x4)) 0 []) as [t [Heq [Hord [Hsound Hcov]]]];
    [cbn; lia|].
  exists t. split; [exact Heq|].
  split.
  { intros i r c Hi. exact (ordered_nth U columns4x4 t [] i _ Hord Hi). }
  split.
  { intros j k. apply Hcov. lia. }
  { intros x Hx. destruct (Hsound x Hx) as [j [k [_ H]]]. exists j, k. exact H. }
Qed.

End DeblockOrderProofs.

Lemma ApplyDeblockFilterForOneSuperBlockRow_order_witness :
  (1 <= 16 /\ 1 <= 40) /\
  exists calls,
    DeblockOrder.ApplyDeblockFilterForOneSuperBlockRow 16 40 40 0 32 =
      Some calls /\
    nth_error calls 2 = Some (DeblockOrder.HorizontalDeblockFilterCall 0 0) /\
    In (DeblockOrder.VerticalDeblockFilterCall 0 16) (firstn 2 calls).
Proof.
  split; [lia|].
  destruct (DeblockOrderProofs.ApplyDeblockFilterForOneSuperBlockRow_order
              16 40 40 0 32 ltac:(lia) ltac:(lia)) as [calls [Heq [Hord _]]].
  exists calls. split; [exact Heq|].
  vm_compute in Heq. injection Heq as <-.
  split; [reflexivity|].
  exact (proj2 (Hord 2%nat 0 0 eq_refl) ltac:(lia)).
Defined.

Module FilterScheduleProofs.
Import FilterSchedule.

Section Schedule.
Variable RightShiftWithRounding : Z -> Z -> Z.
Variables (fl : Flags) (fi : FrameInfo) (sb4x4 : Z).
Hypothesis Hsb : 1 <= sb4x4.

Lemma AF_calls (p r : Z) (last : bool) :
  fst (fst (ApplyFilteringForOneSuperBlockRow RightShiftWithRounding fl fi
              p r sb4x4 last))
  = if r <? 0 then []
    else (if DoDeblock fl then [ApplyDeblockFilterForOneSuperBlockRow r sb4x4]
          else [])
         ++ (if r - sb4x4 >=? 0 then previous_row_calls fl (r - sb4x4) sb4x4
             else [])
         ++ (if last then last_row_calls fl r sb4x4 else []).
Proof.
  unfold ApplyFilteringForOneSuperBlockRow.
  destruct (r <? 0); [reflexivity|].
  destruct (r - sb4x4 >=? 0), last; reflexivity.
Qed.

Lemma run_rows_calls (p : Z) (rows : list (Z * bool)) :
  fst (run_rows RightShiftWithRounding fl fi p sb4x4 rows)
  = flat_map (fun rl => fst (fst (ApplyFilteringForOneSuperBlockRow
                                   RightShiftWithRounding fl fi 0 (fst rl)
                                   sb4x4 (snd rl)))) rows.
Proof.
  revert p. induction rows as [|[r l] rows IH]; intros p; [reflexivity|].
  cbn [run_rows].
  pose proof (AF_calls p r l) as E1. pose proof (AF_calls 0 r l) as E0.
  destruct (ApplyFilteringForOneSuperBlockRow _ fl fi p r sb4x4 l)
    as [[c p'] ret].
  specialize (IH p').
  destruct (run_rows _ fl fi p' sb4x4 rows) as [c' rets].
  cbn [fst snd] in *. rewrite IH, E1, <- E0. reflexivity.
Qed.

(** The calls for superblock row [k] of a frame. *)
Lemma calls_row (k : nat) (l : bool) :
  fst (fst (ApplyFilteringForOneSuperBlockRow RightShiftWithRounding fl fi
              0 (Z.of_nat k * sb4x4) sb4x4 l))
  = (if DoDeblock fl then
       [ApplyDeblockFilterForOneSuperBlockRow (Z.of_nat k * sb4x4) sb4x4]
     else [])
    ++ (match k with
        | O => []
        | S k' => previous_row_calls fl (Z.of_nat k' * sb4x4) sb4x4
        end)
    ++ (if l then last_row_calls fl (Z.of_nat k * sb4x4) sb4x4 else []).
Proof.
  rewrite AF_calls.
  replace (Z.of_nat k * sb4x4 <? 0) with false
    by (symmetry; apply Z.ltb_ge; nia).
  destruct k as [|k].
  - replace (Z.of_nat 0 * sb4x4 - sb4x4 >=? 0) with false
      by (symmetry; rewrite Z.geb_leb; apply Z.leb_gt; lia).
    reflexivity.
  - replace (Z.of_nat (S k) * sb4x4 - sb4x4 >=? 0) with true
      by (symmetry; apply Z.geb_le; nia).
    do 3 f_equal. lia.
Qed.

Lemma frame_calls (m : nat) :
  flat_map (fun rl => fst (fst (ApplyFilteringForOneSuperBlockRow
                                  RightShiftWithRounding fl fi 0 (fst rl)
                                  sb4x4 (snd rl))))
    (map (fun k => (Z.of_nat k * sb4x4, Nat.eqb (S k) (S m))) (seq 0 (S m)))
  = flat_map (fun k => fst (fst (ApplyFilteringForOneSuperBlockRow
                                   RightShiftWithRounding fl fi 0
                                   (Z.of_nat k * sb4x4) sb4x4 false)))
      (seq 0 (S m))
    ++ last_row_calls fl (Z.of_nat m * sb4x4) sb4x4.
Proof.
  rewrite (seq_S m 0), !map_app, !flat_map_app. cbn [map flat_map fst snd].
  rewrite !app_nil_r, Nat.eqb_refl, <- app_assoc. f_equal.
  - rewrite !flat_map_concat_map, map_map. f_equal.
    apply map_ext_in. intros k Hk. apply in_seq in Hk.
    cbn [fst snd]. replace (Nat.eqb (S k) (S m)) with false; [reflexivity|].
    symmetry. apply Nat.eqb_neq. lia.
  - rewrite !calls_row, app_nil_r, <- !app_assoc. reflexivity.
Qed.

Lemma prefix_filter (f : FilterCall -> bool) (m : nat) :
  filter f (flat_map (fun k => fst (fst (ApplyFilteringForOneSuperBlockRow
                                            RightShiftWithRounding fl fi 0
                                            (Z.of_nat k * sb4x4) sb4x4 false)))
              (seq 0 (S m)))
  = filter f (if DoDeblock fl then [ApplyDeblockFilterForOneSuperBlockRow 0 sb4x4]
              else [])
    ++ flat_map (fun k =>
         filter f (if DoDeblock fl then
                     [ApplyDeblockFilterForOneSuperBlockRow
                        (Z.of_nat (S k) * sb4x4) sb4x4] else [])
         ++ filter f (previous_row_calls fl (Z.of_nat k * sb4x4) sb4x4))
         (seq 0 m).
Proof.
  induction m as [|m IH].
  - cbn [seq flat_map]. rewrite calls_row. cbn [app].
    rewrite !app_nil_r. reflexivity.
  - rewrite (seq_S (S m) 0), flat_map_app, filter_app, IH.
    rewrite (seq_S m 0), !flat_map_app. cbn [flat_map]. rewrite calls_row, !app_nil_r, !filter_app.
    rewrite <- !app_assoc. reflexivity.
Qed.

Lemma flat_map_cond {B : Type} (b : bool) (h : nat -> B) (l : list nat) :
  flat_map (fun k => if b then [h k] else []) l = if b then map h l else [].
Proof.
  induction l as [|a l IH]; [destruct b; reflexivity|].
  cbn [flat_map map]. rewrite IH. destruct b; reflexivity.
Qed.

Ltac kind_filter :=
  intros k;
  unfold previous_row_calls;
  destruct (DoDeblock fl), (DoCdef fl), (DoSuperRes fl), (DoRestoration fl);
  reflexivity.

Lemma schedule_kinds (m : nat) :
  let calls :=
    flat_map (fun k => fst (fst (ApplyFilteringForOneSuperBlockRow
                                   RightShiftWithRounding fl fi 0
                                   (Z.of_nat k * sb4x4) sb4x4 false)))
      (seq 0 (S m))
    ++ last_row_calls fl (Z.of_nat m * sb4x4) sb4x4 in
  filter is_deblock_call calls
  = (if DoDeblock fl then
       map (fun k => ApplyDeblockFilterForOneSuperBlockRow
                       (Z.of_nat k * sb4x4) sb4x4) (seq 0 (S m))
     else [])
  /\ filter is_cdef_call calls
  = (if DoCdef fl then
       map (fun k => ApplyCdefForOneSuperBlockRow (Z.of_nat k * sb4x4) sb4x4)
         (seq 0 (S m))
     else [])
  /\ filter is_superres_call calls
  = (if DoSuperRes fl then
       map (fun k => ApplySuperResForOneSuperBlockRow (Z.of_nat k * sb4x4)
                       sb4x4) (seq 0 (S m))
     else [])
  /\ filter is_loop_restoration_call calls
  = (if DoRestoration fl then
       map (fun k => ApplyLoopRestorationForOneSuperBlockRow
                       (Z.of_nat k * sb4x4) sb4x4) (seq 0 (S m))
       ++ [ApplyLoopRestorationForOneSuperBlockRow (Z.of_nat (S m) * sb4x4) 16]
     else []).
Proof.
  intros calls. subst calls. rewrite !filter_app, !prefix_filter.
  unfold last_row_calls.
  replace (Z.of_nat m * sb4x4 + sb4x4) with (Z.of_nat (S m) * sb4x4) by lia.
  repeat split.
  - rewrite (@flat_map_ext _ _ _
      (fun k => if DoDeblock fl then
                  [ApplyDeblockFilterForOneSuperBlockRow
                     (Z.of_nat (S k) * sb4x4) sb4x4] else []))
      by kind_filter.
    rewrite flat_map_cond. cbn [seq map].
    rewrite <- seq_shift, map_map.
    destruct (DoDeblock fl), (DoCdef fl), (DoSuperRes fl), (DoRestoration fl),
      (DoBorderExtensionInLoop fl); cbn [filter is_deblock_call app andb negb];
      rewrite ?app_nil_r; reflexivity.
  - rewrite (@flat_map_ext _ _ _
      (fun k => if DoCdef fl then
                  [ApplyCdefForOneSuperBlockRow (Z.of_nat k * sb4x4) sb4x4]
                else []))
      by kind_filter.
    rewrite flat_map_cond, (seq_S m 0), map_app.
    destruct (DoDeblock fl), (DoCdef fl), (DoSuperRes fl), (DoRestoration fl),
      (DoBorderExtensionInLoop fl); reflexivity.
  - rewrite (@flat_map_ext _ _ _
      (fun k => if DoSuperRes fl then
                  [ApplySuperResForOneSuperBlockRow (Z.of_nat k * sb4x4) sb4x4]
                else []))
      by kind_filter.
    rewrite flat_map_cond, (seq_S m 0), map_app.
    destruct (DoDeblock fl), (DoCdef fl), (DoSuperRes fl), (DoRestoration fl),
      (DoBorderExtensionInLoop fl); reflexivity.
  - rewrite (@flat_map_ext _ _ _
      (fun k => if DoRestoration fl then
                  [ApplyLoopRestorationForOneSuperBlockRow
                     (Z.of_nat k * sb4x4) sb4x4]
                else []))
      by kind_filter.
    rewrite flat_map_cond, (seq_S m 0), map_app.
    destruct (DoDeblock fl), (DoCdef fl), (DoSuperRes fl), (DoRestoration fl),
      (DoBorderExtensionInLoop fl); cbn [filter is_loop_restoration_call app andb negb map plus];
      rewrite <- ?app_assoc; reflexivity.
Qed.

Lemma schedule_lag (m k : nat) :
  (S k <= m)%nat -> DoDeblock fl = true -> DoCdef fl = true ->
  exists A B C,
    flat_map (fun k => fst (fst (ApplyFilteringForOneSuperBlockRow
                                   RightShiftWithRounding fl fi 0
                                   (Z.of_nat k * sb4x4) sb4x4 false)))
      (seq 0 (S m))
    ++ last_row_calls fl (Z.of_nat m * sb4x4) sb4x4
    = A ++ ApplyDeblockFilterForOneSuperBlockRow (Z.of_nat (S k) * sb4x4) sb4x4
        :: B ++ ApplyCdefForOneSuperBlockRow (Z.of_nat k * sb4x4) sb4x4 :: C.
Proof.
  intros Hk Hd Hc.
  replace (S m) with (S k + S (m - S k))%nat by lia.
  rewrite seq_app. cbn [plus].
  replace (seq (S k) (S (m - S k))) with (S k :: seq (S (S k)) (m - S k))
    by reflexivity.
  rewrite flat_map_app. cbn [flat_map].
  rewrite (calls_row (S k) false), Hd. cbv beta iota. unfold previous_row_calls. rewrite Hc.
  rewrite app_nil_r, <- !app_assoc. cbn [app].
  eexists _, (if DoRestoration fl && true then
                [SetupDeblockBuffer (Z.of_nat k * sb4x4) sb4x4] else []), _.
  reflexivity.
Qed.

End Schedule.

Section Extension.
Variable RightShiftWithRounding : Z -> Z -> Z.
Variables (fl : Flags) (fi : FrameInfo).

Lemma fst_cons_pair {A B : Type} (x : A) (e : list A * B) :
  fst (let '(rest, p) := e in (x :: rest, p)) = x :: fst e.
Proof. destruct e; reflexivity. Qed.

Lemma extend_planes_calls (fuel : nat) (ro ho r s plane p : Z) :
  fst (extend_planes RightShiftWithRounding fuel fi ro ho r s plane p)
  = fst (extend_planes RightShiftWithRounding fuel fi ro ho r s plane 0).
Proof.
  revert plane p. induction fuel as [|fuel IH]; intros plane p; [reflexivity|].
  cbn [extend_planes].
  destruct (plane <? planes_ fi); [|reflexivity].
  destruct (_ >=? _); [reflexivity|].
  rewrite !fst_cons_pair, IH. f_equal. symmetry. apply IH.
Qed.

Lemma extend_planes_plane (fuel : nat) (ro ho r s plane p : Z) e :
  In e (fst (extend_planes RightShiftWithRounding fuel fi ro ho r s plane p)) ->
  plane <= ext_plane e.
Proof.
  revert plane p. induction fuel as [|fuel IH]; intros plane p; [intros []|].
  cbn [extend_planes].
  destruct (plane <? planes_ fi); [|intros []].
  destruct (_ >=? _); [intros []|].
  rewrite fst_cons_pair. intros [<- | Hin]; [cbn; lia|].
  apply IH in Hin. lia.
Qed.

Lemma extend_borders_calls (r s p : Z) :
  fst (ExtendBordersForReferenceFrame RightShiftWithRounding fl fi r s p)
  = fst (ExtendBordersForReferenceFrame RightShiftWithRounding fl fi r s 0).
Proof.
  unfold ExtendBordersForReferenceFrame.
  destruct (_ || _); [reflexivity|]. apply extend_planes_calls.
Qed.

Lemma extend_frame_calls_flat (p : Z) (l : list FilterCall) :
  extend_frame_calls RightShiftWithRounding fl fi p l
  = flat_map (fun c => match c with
                       | ExtendBordersForReferenceFrameRows r s =>
                           fst (ExtendBordersForReferenceFrame
                                  RightShiftWithRounding fl fi r s 0)
                       | _ => []
                       end) l.
Proof.
  revert p. induction l as [|c l IH]; intros p; [reflexivity|].
  destruct c; cbn [extend_frame_calls flat_map]; try apply IH.
  rewrite <- (extend_borders_calls _ _ p).
  destruct (ExtendBordersForReferenceFrame _ fl fi row4x4 sb4x4 p) as [e p'].
  cbn [fst]. rewrite IH. reflexivity.
Qed.

Lemma filter_none {A : Type} (f : A -> bool) (l : list A) :
  (forall x, In x l -> f x = false) -> filter f l = [].
Proof.
  induction l as [|a l IH]; intros H; [reflexivity|].
  cbn [filter]. rewrite H by (left; reflexivity).
  apply IH. intros x Hx. apply H. right. exact Hx.
Qed.

Lemma seqZ_nonpos (a n : Z) : n <= 0 -> SuperRes.seqZ a n = [].
Proof.
  intros Hn. unfold SuperRes.seqZ. replace (Z.to_nat n) with 0%nat by lia.
  reflexivity.
Qed.

Hypothesis Hrsr : forall v, RightShiftWithRounding v 0 = v.
Hypothesis Hss : subsampling_y_ fi 0 = 0.
Hypothesis Hplanes : 1 <= planes_ fi.
Hypothesis Hrefresh : refresh_frame_flags fi <> 0.
Hypothesis Hinloop : DoBorderExtensionInLoop fl = true.

(** The luma rows extended by one [ExtendBordersForReferenceFrame(r, s)]. *)
Lemma luma_rows (r s : Z) :
  flat_map (fun e => SuperRes.seqZ (ext_row e) (ext_num_rows e))
    (filter (fun e => ext_plane e =? 0)
       (fst (ExtendBordersForReferenceFrame RightShiftWithRounding fl fi r s 0)))
  = if 4 * r - (if DoRestoration fl then (if r =? 0 then 0 else 8) else 0)
       <? height_ fi
    then SuperRes.seqZ
           (4 * r - (if DoRestoration fl then (if r =? 0 then 0 else 8) else 0))
           (Z.min (4 * s - (if DoRestoration fl && (r =? 0) then 8 else 0))
              (height_ fi
               - (4 * r - (if DoRestoration fl then (if r =? 0 then 0 else 8)
                           else 0))))
    else [].
Proof.
  unfold ExtendBordersForReferenceFrame.
  rewrite Hinloop. replace (refresh_frame_flags fi =? 0) with false
    by (symmetry; apply Z.eqb_neq; exact Hrefresh).
  cbn [orb negb].
  destruct (Z.to_nat (planes_ fi)) as [|fuel] eqn:Ef; [lia|].
  cbn [extend_planes].
  replace (0 <? planes_ fi) with true by (symmetry; apply Z.ltb_lt; lia).
  rewrite Hss, !Hrsr, Z.shiftr_0_r.
  set (row := 4 * r - _).
  destruct (row >=? height_ fi) eqn:Eh.
  - replace (row <? height_ fi) with false
      by (symmetry; apply Z.ltb_ge; apply Z.geb_le in Eh; lia).
    reflexivity.
  - replace (row <? height_ fi) with true
      by (symmetry; apply Z.ltb_lt; rewrite Z.geb_leb in Eh;
          apply Z.leb_gt in Eh; lia).
    rewrite fst_cons_pair. cbn [filter ext_plane Z.eqb].
    rewrite filter_none.
    + cbn [flat_map ext_row ext_num_rows]. apply app_nil_r.
    + intros e He. apply extend_planes_plane in He. apply Z.eqb_neq. lia.
Qed.

Lemma extended_rows_app (plane : Z) (l1 l2 : list ExtendFrameCall) :
  extended_rows plane (l1 ++ l2)
  = extended_rows plane l1 ++ extended_rows plane l2.
Proof. unfold extended_rows. rewrite filter_app, flat_map_app. reflexivity. Qed.

Lemma extended_rows_flat {A : Type} (plane : Z) (g : A -> list ExtendFrameCall)
  (l : list A) :
  extended_rows plane (flat_map g l)
  = flat_map (fun c => extended_rows plane (g c)) l.
Proof.
  induction l as [|c l IH]; [reflexivity|].
  cbn [flat_map]. rewrite extended_rows_app, IH. reflexivity.
Qed.

Lemma extend_planes_progress (fuel : nat) (ro ho r s plane p : Z) :
  1 <= plane ->
  snd (extend_planes RightShiftWithRounding fuel fi ro ho r s plane p) = p.
Proof.
  revert plane. induction fuel as [|fuel IH]; intros plane Hp; [reflexivity|].
  cbn [extend_planes].
  destruct (plane <? planes_ fi); [|reflexivity].
  destruct (_ >=? _); [reflexivity|].
  replace (plane =? 0) with false by (symmetry; apply Z.eqb_neq; lia).
  match goal with
  | |- snd (let '(rest, q) := ?e in _) = _ =>
      assert (He : snd e = p) by (apply IH; lia); destruct e
  end.
  exact He.
Qed.

(** The [progress_row_] left by one [ExtendBordersForReferenceFrame(r, s)]:
    one past its last luma row, if it extends any. *)
Lemma luma_progress (r s p : Z) :
  snd (ExtendBordersForReferenceFrame RightShiftWithRounding fl fi r s p)
  = if 4 * r - (if DoRestoration fl then (if r =? 0 then 0 else 8) else 0)
       <? height_ fi
    then (4 * r - (if DoRestoration fl then (if r =? 0 then 0 else 8) else 0))
         + Z.min (4 * s - (if DoRestoration fl && (r =? 0) then 8 else 0))
             (height_ fi
              - (4 * r - (if DoRestoration fl then (if r =? 0 then 0 else 8)
                          else 0)))
    else p.
Proof.
  unfold ExtendBordersForReferenceFrame.
  rewrite Hinloop. replace (refresh_frame_flags fi =? 0) with false
    by (symmetry; apply Z.eqb_neq; exact Hrefresh).
  cbn [orb negb].
  destruct (Z.to_nat (planes_ fi)) as [|fuel] eqn:Ef; [lia|].
  cbn [extend_planes].
  replace (0 <? planes_ fi) with true by (symmetry; apply Z.ltb_lt; lia).
  rewrite Hss, !Hrsr, Z.shiftr_0_r.
  set (row := 4 * r - _).
  destruct (row >=? height_ fi) eqn:Eh.
  - replace (row <? height_ fi) with false
      by (symmetry; apply Z.ltb_ge; apply Z.geb_le in Eh; lia).
    reflexivity.
  - replace (row <? height_ fi) with true
      by (symmetry; apply Z.ltb_lt; rewrite Z.geb_leb in Eh;
          apply Z.leb_gt in Eh; lia).
    cbn [Z.eqb].
    match goal with
    | |- snd (let '(rest, q) := ?e in _) = ?v =>
        assert (He : snd e = v) by (apply extend_planes_progress; lia);
        destruct e
    end.
    exact He.
Qed.

Section Frame.
Variable sb4x4 : Z.
Hypothesis Hsb : 2 <= sb4x4.

Lemma luma_prev (r s : Z) :
  flat_map (fun c => extended_rows 0
              match c with
              | ExtendBordersForReferenceFrameRows r s =>
                  fst (ExtendBordersForReferenceFrame
                         RightShiftWithRounding fl fi r s 0)
              | _ => []
              end) (previous_row_calls fl r s)
  = extended_rows 0 (fst (ExtendBordersForReferenceFrame
                            RightShiftWithRounding fl fi r s 0)).
Proof.
  unfold previous_row_calls.
  destruct (DoCdef fl), (DoSuperRes fl), (DoRestoration fl);
    cbn [andb app flat_map]; apply app_nil_r.
Qed.

Lemma luma_last (r s : Z) :
  flat_map (fun c => extended_rows 0
              match c with
              | ExtendBordersForReferenceFrameRows r s =>
                  fst (ExtendBordersForReferenceFrame
                         RightShiftWithRounding fl fi r s 0)
              | _ => []
              end) (last_row_calls fl r s)
  = extended_rows 0 (fst (ExtendBordersForReferenceFrame
                            RightShiftWithRounding fl fi r s 0))
    ++ (if DoRestoration fl then
          extended_rows 0 (fst (ExtendBordersForReferenceFrame
                                  RightShiftWithRounding fl fi (r + s) 16 0))
        else []).
Proof.
  unfold last_row_calls. rewrite Hinloop.
  destruct (DoCdef fl), (DoSuperRes fl), (DoRestoration fl);
    cbn [andb negb app flat_map]; rewrite ?app_nil_r; reflexivity.
Qed.

Lemma luma_prefix (m : nat) :
  flat_map (fun c => extended_rows 0
              match c with
              | ExtendBordersForReferenceFrameRows r s =>
                  fst (ExtendBordersForReferenceFrame
                         RightShiftWithRounding fl fi r s 0)
              | _ => []
              end)
    (flat_map (fun k => fst (fst (ApplyFilteringForOneSuperBlockRow
                                    RightShiftWithRounding fl fi 0
                                    (Z.of_nat k * sb4x4) sb4x4 false)))
       (seq 0 (S m)))
  = flat_map (fun k => extended_rows 0
                (fst (ExtendBordersForReferenceFrame RightShiftWithRounding
                        fl fi (Z.of_nat k * sb4x4) sb4x4 0)))
      (seq 0 m).
Proof.
  assert (Hsb1 : 1 <= sb4x4) by lia.
  induction m as [|m IH].
  - cbn [seq flat_map]. rewrite (calls_row _ _ _ _ Hsb1).
    destruct (DoDeblock fl); reflexivity.
  - rewrite (seq_S (S m) 0), !flat_map_app, IH, (seq_S m 0), flat_map_app.
    f_equal. cbn [flat_map plus]. rewrite (calls_row _ _ _ _ Hsb1).
    rewrite !app_nil_r, flat_map_app, luma_prev.
    destruct (DoDeblock fl); reflexivity.
Qed.

(** After the first [j] superblock rows, the luma rows before
    [4 * j * sb4x4], less the 8 rows loop restoration lags by, are
    extended. *)
Lemma luma_tiling (j : nat) :
  flat_map (fun k => extended_rows 0
              (fst (ExtendBordersForReferenceFrame RightShiftWithRounding
                      fl fi (Z.of_nat k * sb4x4) sb4x4 0)))
    (seq 0 j)
  = SuperRes.seqZ 0
      (Z.min (match j with
              | O => 0
              | S _ => 4 * Z.of_nat j * sb4x4
                       - (if DoRestoration fl then 8 else 0)
              end) (height_ fi)).
Proof.
  induction j as [|j IH].
  - symmetry. apply seqZ_nonpos. lia.
  - rewrite (seq_S j 0), flat_map_app, IH. cbn [flat_map plus].
    rewrite app_nil_r. unfold extended_rows. rewrite luma_rows.
    destruct j as [|j].
    + cbn [Z.of_nat]. replace (0 * sb4x4) with 0 by lia. cbn [Z.eqb].
      rewrite seqZ_nonpos by lia. cbn [app].
      destruct (DoRestoration fl); cbn [andb];
        (destruct (_ <? height_ fi) eqn:E;
         [apply Z.ltb_lt in E | apply Z.ltb_ge in E]);
        (try (symmetry; apply seqZ_nonpos; lia));
        f_equal; lia.
    + replace (Z.of_nat (S j) * sb4x4 =? 0) with false
        by (symmetry; apply Z.eqb_neq; nia).
      rewrite andb_false_r.
      destruct (DoRestoration fl);
        (destruct (_ <? height_ fi) eqn:E;
         [apply Z.ltb_lt in E | apply Z.ltb_ge in E]).
      all: try (rewrite app_nil_r; f_equal; nia).
      all: rewrite Z.min_l by nia.
      all: match goal with
           | |- SuperRes.seqZ 0 ?a ++ SuperRes.seqZ ?b _ = _ =>
               replace b with (0 + a) by nia
           end.
      all: rewrite SuperResProofs.seqZ_app by nia.
      all: f_equal; nia.
Qed.

Lemma AF_state (p r : Z) :
  snd (fst (ApplyFilteringForOneSuperBlockRow RightShiftWithRounding fl fi
              p r sb4x4 false))
  = if r <? 0 then p
    else if r - sb4x4 >=? 0 then
      snd (ExtendBordersForReferenceFrame RightShiftWithRounding fl fi
             (r - sb4x4) sb4x4 p)
    else p.
Proof.
  unfold ApplyFilteringForOneSuperBlockRow.
  destruct (r <? 0); [reflexivity|].
  destruct (r - sb4x4 >=? 0); reflexivity.
Qed.

Lemma AF_ret (p r : Z) (l : bool) :
  snd (ApplyFilteringForOneSuperBlockRow RightShiftWithRounding fl fi
         p r sb4x4 l)
  = if r <? 0 then -1
    else if l then height_ fi
    else snd (fst (ApplyFilteringForOneSuperBlockRow RightShiftWithRounding
                     fl fi p r sb4x4 false)).
Proof.
  unfold ApplyFilteringForOneSuperBlockRow.
  destruct (r <? 0); [reflexivity|].
  destruct (r - sb4x4 >=? 0), l; reflexivity.
Qed.

(** Call [j] of a frame, not the last, leaves [progress_row_] one past the
    luma rows extended so far. *)
Lemma call_progress (p0 : Z) (j : nat) (p : Z) :
  1 <= height_ fi ->
  p = (match j with
       | O | S O => p0
       | S j' => Z.min (4 * Z.of_nat j' * sb4x4
                        - (if DoRestoration fl then 8 else 0)) (height_ fi)
       end) ->
  snd (fst (ApplyFilteringForOneSuperBlockRow RightShiftWithRounding fl fi
              p (Z.of_nat j * sb4x4) sb4x4 false))
  = if Nat.eqb j 0 then p0
    else Z.min (4 * Z.of_nat j * sb4x4 - (if DoRestoration fl then 8 else 0))
           (height_ fi).
Proof.
  intros Hh Hp. rewrite AF_state.
  replace (Z.of_nat j * sb4x4 <? 0) with false
    by (symmetry; apply Z.ltb_ge; nia).
  destruct j as [|j].
  - replace (Z.of_nat 0 * sb4x4 - sb4x4 >=? 0) with false
      by (symmetry; rewrite Z.geb_leb; apply Z.leb_gt; lia).
    exact Hp.
  - replace (Z.of_nat (S j) * sb4x4 - sb4x4 >=? 0) with true
      by (symmetry; apply Z.geb_le; nia).
    replace (Z.of_nat (S j) * sb4x4 - sb4x4) with (Z.of_nat j * sb4x4) by lia.
    rewrite luma_progress. cbn [Nat.eqb].
    destruct j as [|j].
    + cbn [Z.of_nat]. replace (0 * sb4x4) with 0 by lia. cbn [Z.eqb].
      destruct (DoRestoration fl); cbn [andb];
        (replace (4 * 0 - 0 <? height_ fi) with true
           by (symmetry; apply Z.ltb_lt; lia)); lia.
    + replace (Z.of_nat (S j) * sb4x4 =? 0) with false
        by (symmetry; apply Z.eqb_neq; nia).
      rewrite andb_false_r.
      destruct (DoRestoration fl);
        (destruct (_ <? height_ fi) eqn:E;
         [apply Z.ltb_lt in E | apply Z.ltb_ge in E]); subst p; nia.
Qed.

Lemma run_progress (p0 : Z) (n len j : nat) (p : Z) :
  1 <= height_ fi -> (j + len = n)%nat ->
  p = (match j with
       | O | S O => p0
       | S j' => Z.min (4 * Z.of_nat j' * sb4x4
                        - (if DoRestoration fl then 8 else 0)) (height_ fi)
       end) ->
  snd (run_rows RightShiftWithRounding fl fi p sb4x4
         (map (fun k => (Z.of_nat k * sb4x4, Nat.eqb (S k) n)) (seq j len)))
  = map (fun k => if Nat.eqb (S k) n then height_ fi
                  else if Nat.eqb k 0 then p0
                  else Z.min (4 * Z.of_nat k * sb4x4
                              - (if DoRestoration fl then 8 else 0))
                         (height_ fi)) (seq j len).
Proof.
  intros Hh. revert j p.
  induction len as [|len IH]; intros j p Hlen Hp; [reflexivity|].
  cbn [seq map run_rows].
  pose proof (AF_ret p (Z.of_nat j * sb4x4) (Nat.eqb (S j) n)) as Eret.
  pose proof (call_progress p0 j p Hh Hp) as Est.
  destruct (ApplyFilteringForOneSuperBlockRow _ fl fi p (Z.of_nat j * sb4x4)
              sb4x4 (Nat.eqb (S j) n)) as [[c p'] ret] eqn:E.
  replace (Z.of_nat j * sb4x4 <? 0) with false in Eret
    by (symmetry; apply Z.ltb_ge; nia).
  destruct (Nat.eqb (S j) n) eqn:Elast.
  - apply Nat.eqb_eq in Elast.
    replace len with 0%nat by lia. cbn [seq map run_rows snd] in *.
    rewrite Eret. reflexivity.
  - assert (Hp' : p' = (if Nat.eqb j 0 then p0
                        else Z.min (4 * Z.of_nat j * sb4x4
                                    - (if DoRestoration fl then 8 else 0))
                               (height_ fi))).
    { rewrite <- Est.
      replace p' with (snd (fst (ApplyFilteringForOneSuperBlockRow
                                   RightShiftWithRounding fl fi p
                                   (Z.of_nat j * sb4x4) sb4x4 false))).
      - reflexivity.
      - rewrite AF_state. rewrite AF_state in Est.
        pose proof (f_equal (fun t => snd (fst t)) E) as E'. cbn in E'.
        rewrite <- E'. unfold ApplyFilteringForOneSuperBlockRow.
        destruct (Z.of_nat j * sb4x4 <? 0); [reflexivity|].
        destruct (_ >=? 0); reflexivity. }
    specialize (IH (S j) p' ltac:(lia)).
    destruct (run_rows _ fl fi p' sb4x4 _) as [c' rets].
    cbn [snd] in *. rewrite IH.
    + f_equal. cbn in Eret. rewrite Eret, Est. reflexivity.
    + rewrite Hp'. destruct j as [|j]; reflexivity.
Qed.

End Frame.

End Extension.

(** [PostFilter::ApplyFilteringForOneSuperBlockRow], called by the decoder
    once for each of the [n] superblock rows of a frame
    ([row4x4 = k * sb4x4], [is_last_row] on the last one), deblocks each
    superblock row once, in order, and runs CDEF, super-resolution and
    loop restoration once on each superblock row, in order (loop
    restoration also once on the 16 4x4 rows after the last superblock
    row); CDEF of a superblock row comes after the deblocking of the next
    one. *)
Theorem ApplyFilteringForOneSuperBlockRow_schedule
  (RightShiftWithRounding : Z -> Z -> Z) (fl : Flags) (fi : FrameInfo)
  (progress_row sb4x4 : Z) (n : nat) :
  1 <= sb4x4 -> (1 <= n)%nat ->
  let calls :=
    fst (run_rows RightShiftWithRounding fl fi progress_row sb4x4
           (map (fun k => (Z.of_nat k * sb4x4, Nat.eqb (S k) n)) (seq 0 n))) in
  filter is_deblock_call calls
  = (if DoDeblock fl then
       map (fun k => ApplyDeblockFilterForOneSuperBlockRow
                       (Z.of_nat k * sb4x4) sb4x4) (seq 0 n)
     else [])
  /\ filter is_cdef_call calls
  = (if DoCdef fl then
       map (fun k => ApplyCdefForOneSuperBlockRow (Z.of_nat k * sb4x4) sb4x4)
         (seq 0 n)
     else [])
  /\ filter is_superres_call calls
  = (if DoSuperRes fl then
       map (fun k => ApplySuperResForOneSuperBlockRow (Z.of_nat k * sb4x4)
                       sb4x4) (seq 0 n)
     else [])
  /\ filter is_loop_restoration_call calls
  = (if DoRestoration fl then
       map (fun k => ApplyLoopRestorationForOneSuperBlockRow
                       (Z.of_nat k * sb4x4) sb4x4) (seq 0 n)
       ++ [ApplyLoopRestorationForOneSuperBlockRow (Z.of_nat n * sb4x4) 16]
     else [])
  /\ (forall k : nat, (S k < n)%nat ->
      DoDeblock fl = true -> DoCdef fl = true ->
      exists A B C,
        calls = A ++ ApplyDeblockFilterForOneSuperBlockRow
                       (Z.of_nat (S k) * sb4x4) sb4x4
                  :: B ++ ApplyCdefForOneSuperBlockRow (Z.of_nat k * sb4x4)
                            sb4x4 :: C).
Proof.
  intros Hsb Hn calls.
  destruct n as [|m]; [lia|].
  subst calls. rewrite run_rows_calls, frame_calls by exact Hsb.
  destruct (schedule_kinds RightShiftWithRounding fl fi sb4x4 Hsb m)
    as (H1 & H2 & H3 & H4).
  repeat split; try assumption.
  intros k Hk Hd Hc. apply schedule_lag; auto. lia.
Qed.

(** Over the [n] calls of [PostFilter::ApplyFilteringForOneSuperBlockRow]
    for a frame ([row4x4 = k * sb4x4], [is_last_row] on the last one) with
    border extension in the loop and a frame that is kept for reference,
    the [ExtendFrame] calls of [ExtendBordersForReferenceFrame] extend each
    luma row [0 .. height_ - 1] exactly once, in increasing order, with or
    without the 8-row lag of loop restoration. *)
Theorem ExtendBordersForReferenceFrame_luma_rows
  (RightShiftWithRounding : Z -> Z -> Z) (fl : Flags) (fi : FrameInfo)
  (progress_row sb4x4 : Z) (n : nat) :
  (forall v, RightShiftWithRounding v 0 = v) ->
  subsampling_y_ fi 0 = 0 -> 1 <= planes_ fi ->
  refresh_frame_flags fi <> 0 -> DoBorderExtensionInLoop fl = true ->
  2 <= sb4x4 -> (1 <= n)%nat -> height_ fi <= 4 * Z.of_nat n * sb4x4 ->
  extended_rows 0
    (extend_frame_calls RightShiftWithRounding fl fi progress_row
       (fst (run_rows RightShiftWithRounding fl fi progress_row sb4x4
               (map (fun k => (Z.of_nat k * sb4x4, Nat.eqb (S k) n))
                  (seq 0 n)))))
  = SuperRes.seqZ 0 (height_ fi).
Proof.
  intros Hrsr Hss Hplanes Hrefresh Hinloop Hsb Hn Hh.
  destruct n as [|m]; [lia|].
  assert (Hsb1 : 1 <= sb4x4) by lia.
  rewrite run_rows_calls, frame_calls by exact Hsb1.
  rewrite extend_frame_calls_flat, extended_rows_flat, flat_map_app.
  rewrite luma_prefix by assumption.
  rewrite luma_last by assumption.
  rewrite app_assoc.
  replace (Z.of_nat m * sb4x4 + sb4x4) with (Z.of_nat (S m) * sb4x4) by lia.
  match goal with
  | |- (?p ++ ?q) ++ _ = _ =>
      replace (p ++ q)
        with (flat_map (fun k => extended_rows 0
                (fst (ExtendBordersForReferenceFrame RightShiftWithRounding
                        fl fi (Z.of_nat k * sb4x4) sb4x4 0)))
                (seq 0 (S m)))
        by (rewrite (seq_S m 0), flat_map_app; cbn [flat_map plus];
            rewrite app_nil_r; reflexivity)
  end.
  rewrite luma_tiling by assumption.
  destruct (DoRestoration fl) eqn:Er.
  - unfold extended_rows. rewrite luma_rows by assumption. rewrite Er.
    replace (Z.of_nat (S m) * sb4x4 =? 0) with false
      by (symmetry; apply Z.eqb_neq; nia).
    cbn [andb].
    destruct (_ <? height_ fi) eqn:E;
      [apply Z.ltb_lt in E | apply Z.ltb_ge in E].
    + rewrite Z.min_l by nia.
      match goal with
      | |- SuperRes.seqZ 0 ?a ++ SuperRes.seqZ ?b _ = _ =>
          replace b with (0 + a) by nia
      end.
      rewrite SuperResProofs.seqZ_app by nia. f_equal. nia.
    + rewrite app_nil_r. f_equal. nia.
  - rewrite app_nil_r. f_equal. nia.
Qed.

(** Over the [n] calls of [PostFilter::ApplyFilteringForOneSuperBlockRow]
    for a frame ([row4x4 = k * sb4x4], [is_last_row] on the last one) with
    border extension in the loop and a frame that is kept for reference,
    call [k] returns [height_] if it is the last, the initial
    [progress_row_] if it is the first, and otherwise the number of luma
    rows whose borders are extended so far:
    [min(4 * k * sb4x4 - lag, height_)], where [lag] is 8 when loop
    restoration is on and 0 otherwise. *)
Theorem ApplyFilteringForOneSuperBlockRow_progress
  (RightShiftWithRounding : Z -> Z -> Z) (fl : Flags) (fi : FrameInfo)
  (progress_row sb4x4 : Z) (n : nat) :
  (forall v, RightShiftWithRounding v 0 = v) ->
  subsampling_y_ fi 0 = 0 -> 1 <= planes_ fi ->
  refresh_frame_flags fi <> 0 -> DoBorderExtensionInLoop fl = true ->
  2 <= sb4x4 -> 1 <= height_ fi ->
  snd (run_rows RightShiftWithRounding fl fi progress_row sb4x4
         (map (fun k => (Z.of_nat k * sb4x4, Nat.eqb (S k) n)) (seq 0 n)))
  = map (fun k => if Nat.eqb (S k) n then height_ fi
                  else if Nat.eqb k 0 then progress_row
                  else Z.min (4 * Z.of_nat k * sb4x4
                              - (if DoRestoration fl then 8 else 0))
                         (height_ fi)) (seq 0 n).
Proof.
  intros Hrsr Hss Hplanes Hrefresh Hinloop Hsb Hh.
  apply run_progress; auto.
Qed.

End FilterScheduleProofs.

Lemma ApplyFilteringForOneSuperBlockRow_schedule_witness :
  filter FilterSchedule.is_cdef_call
    (fst (FilterSchedule.run_rows (fun v b => v) (FilterSchedule.mkFlags true true false true true)
            (FilterSchedule.mkFrameInfo 1 3 100 100 (fun _ => 0) (fun _ => 0))
            0 16 (map (fun k => (Z.of_nat k * 16, Nat.eqb (S k) 2)) (seq 0 2))))
  = [FilterSchedule.ApplyCdefForOneSuperBlockRow 0 16;
     FilterSchedule.ApplyCdefForOneSuperBlockRow 16 16].
Proof.
  destruct (FilterScheduleProofs.ApplyFilteringForOneSuperBlockRow_schedule
              (fun v b => v) (FilterSchedule.mkFlags true true false true true)
              (FilterSchedule.mkFrameInfo 1 3 100 100 (fun _ => 0) (fun _ => 0))
              0 16 2 ltac:(lia) ltac:(lia)) as (_ & H & _).
  rewrite H. reflexivity.
Defined.

Lemma ExtendBordersForReferenceFrame_luma_rows_witness :
  FilterSchedule.extended_rows 0
    (FilterSchedule.extend_frame_calls (fun v b => v)
       (FilterSchedule.mkFlags true true false true true)
       (FilterSchedule.mkFrameInfo 1 3 100 100 (fun _ => 0) (fun _ => 0)) 0
       (fst (FilterSchedule.run_rows (fun v b => v)
               (FilterSchedule.mkFlags true true false true true)
               (FilterSchedule.mkFrameInfo 1 3 100 100 (fun _ => 0) (fun _ => 0))
               0 16 (map (fun k => (Z.of_nat k * 16, Nat.eqb (S k) 2))
                       (seq 0 2)))))
  = SuperRes.seqZ 0 100.
Proof.
  apply (FilterScheduleProofs.ExtendBordersForReferenceFrame_luma_rows
           (fun v b => v) (FilterSchedule.mkFlags true true false true true)
           (FilterSchedule.mkFrameInfo 1 3 100 100 (fun _ => 0) (fun _ => 0))
           0 16 2).
  - intros v. reflexivity.
  - reflexivity.
  - cbn. lia.
  - cbn. lia.
  - reflexivity.
  - lia.
  - lia.
  - cbn. lia.
Defined.

Lemma ApplyFilteringForOneSuperBlockRow_progress_witness :
  snd (FilterSchedule.run_rows (fun v b => v)
         (FilterSchedule.mkFlags true true false true true)
         (FilterSchedule.mkFrameInfo 1 3 200 100 (fun _ => 0) (fun _ => 0))
         0 16 (map (fun k => (Z.of_nat k * 16, Nat.eqb (S k) 4)) (seq 0 4)))
  = [0; 56; 120; 200].
Proof.
  rewrite (FilterScheduleProofs.ApplyFilteringForOneSuperBlockRow_progress
             (fun v b => v) (FilterSchedule.mkFlags true true false true true)
             (FilterSchedule.mkFrameInfo 1 3 200 100 (fun _ => 0) (fun _ => 0))
             0 16 4).
  - reflexivity.
  - intros v. reflexivity.
  - reflexivity.
  - cbn. lia.
  - cbn. lia.
  - reflexivity.
  - lia.
  - cbn. lia.
Defined.

Module MvScanProofs.
Import MvScan.

Lemma scan_loop_cover (extent4x4 min_step unit len : Z) (num4x4_at : Z -> Z)
  (fuel : nat) (k : Z) :
  1 <= extent4x4 -> (forall p, 1 <= num4x4_at p) -> 0 < unit ->
  0 <= k < len -> (Z.to_nat (len - k) <= fuel)%nat ->
  exists visits t,
    scan_loop fuel extent4x4 min_step unit num4x4_at (k * unit) (len * unit)
    = Some visits
    /\ len <= t
    /\ flat_map (fun v => SuperRes.seqZ (fst v / unit) (snd v / 2)) visits
       = SuperRes.seqZ k (t - k)
    /\ (forall v, In v visits -> exists j, fst v = j * unit /\ k <= j < len).
Proof.
  intros Hext Hnum Hu. revert k.
  induction fuel as [|fuel IH]; intros k Hk Hf; [lia|].
  cbn [scan_loop].
  set (step := Z.max (Z.min extent4x4 (num4x4_at (k * unit))) min_step).
  assert (Hstep : 1 <= step)
    by (subst step; specialize (Hnum (k * unit)); lia).
  replace (k * unit + step * unit) with ((k + step) * unit) by ring.
  destruct ((k + step) * unit <? len * unit) eqn:E.
  - apply Z.ltb_lt in E.
    assert (E' : k + step < len)
      by (apply (Z.mul_lt_mono_pos_r unit); lia).
    destruct (IH (k + step) ltac:(lia) ltac:(lia))
      as (visits & t & Hrun & Ht & Hcov & Hin).
    rewrite Hrun. cbn [option_map].
    exists ((k * unit, 2 * step) :: visits), t.
    split; [reflexivity|]. split; [exact Ht|]. split.
    + cbn [flat_map fst snd].
      rewrite Z.div_mul by lia.
      rewrite (Z.mul_comm 2 step), Z.div_mul by lia.
      rewrite Hcov.
      replace (t - k) with (step + (t - (k + step))) by ring.
      rewrite SuperResProofs.seqZ_app by lia. reflexivity.
    + intros v [<- | Hv].
      * exists k. cbn [fst]. split; [reflexivity | lia].
      * destruct (Hin v Hv) as (j & Hj & Hjr). exists j. split; [exact Hj|lia].
  - apply Z.ltb_ge in E.
    assert (E' : len <= k + step)
      by (apply (Z.mul_le_mono_pos_r _ _ unit); lia).
    cbn [option_map].
    exists [(k * unit, 2 * step)], (k + step).
    split; [reflexivity|]. split; [exact E'|]. split.
    + cbn [flat_map fst snd].
      rewrite Z.div_mul by lia.
      rewrite (Z.mul_comm 2 step), Z.div_mul by lia.
      rewrite app_nil_r. f_equal. ring.
    + intros v [<- | []]. exists k. cbn [fst]. split; [reflexivity | lia].
Qed.

(** [ScanRow] of a block inside the frame visits the neighbouring row from
    its first 4x4 column on, at offsets below
    [len = min(width4x4, columns4x4 - column4x4, 16)], and the weight
    [2 * step] of each candidate covers the 4x4 columns up to the next
    one: the steps tile [0, t) for some [t >= len], without gap or overlap. *)
Theorem ScanRow_cover (width4x4 column4x4 columns4x4 delta_row : Z)
  (num4x4_at : Z -> Z) :
  1 <= width4x4 -> (forall p, 1 <= num4x4_at p) -> column4x4 < columns4x4 ->
  let len := Z.min (Z.min width4x4 (columns4x4 - column4x4)) 16 in
  exists visits t,
    ScanRow true width4x4 column4x4 columns4x4 delta_row num4x4_at
    = Some visits
    /\ len <= t
    /\ flat_map (fun v => SuperRes.seqZ (fst v) (snd v / 2)) visits
       = SuperRes.seqZ 0 t
    /\ (forall v, In v visits -> 0 <= fst v < len).
Proof.
  intros Hw Hnum Hc len.
  destruct (scan_loop_cover width4x4 (GetMinimumStep width4x4 delta_row) 1 len
              num4x4_at (S (Z.to_nat len)) 0 Hw Hnum ltac:(lia)
              ltac:(subst len; lia) ltac:(lia))
    as (visits & t & Hrun & Ht & Hcov & Hin).
  exists visits, t. unfold ScanRow. cbn [negb].
  rewrite !Z.mul_1_r in Hrun. fold len.
  split; [exact Hrun|]. split; [exact Ht|]. split.
  - rewrite <- (Z.sub_0_r t), <- Hcov.
    apply flat_map_ext. intros v. rewrite Z.div_1_r. reflexivity.
  - intros v Hv. destruct (Hin v Hv) as (j & Hj & Hjr). lia.
Qed.

(** [ScanColumn] of a block inside the frame visits the neighbouring
    column from its first 4x4 row on, at pointer offsets [j * stride] with
    [j] below [len = min(height4x4, rows4x4 - row4x4, 16)], and the weight
    [2 * step] of each candidate covers the 4x4 rows up to the next one:
    the steps tile [0, t) for some [t >= len], without gap or overlap. *)
Theorem ScanColumn_cover (height4x4 row4x4 rows4x4 delta_column stride : Z)
  (num4x4_at : Z -> Z) :
  1 <= height4x4 -> (forall p, 1 <= num4x4_at p) -> row4x4 < rows4x4 ->
  0 < stride ->
  let len := Z.min (Z.min height4x4 (rows4x4 - row4x4)) 16 in
  exists visits t,
    ScanColumn true height4x4 row4x4 rows4x4 delta_column stride num4x4_at
    = Some visits
    /\ len <= t
    /\ flat_map (fun v => SuperRes.seqZ (fst v / stride) (snd v / 2)) visits
       = SuperRes.seqZ 0 t
    /\ (forall v, In v visits ->
        exists j, fst v = j * stride /\ 0 <= j < len).
Proof.
  intros Hh Hnum Hr Hs len.
  destruct (scan_loop_cover height4x4 (GetMinimumStep height4x4 delta_column)
              stride len num4x4_at (S (Z.to_nat len)) 0 Hh Hnum Hs
              ltac:(subst len; lia) ltac:(lia))
    as (visits & t & Hrun & Ht & Hcov & Hin).
  exists visits, t. unfold ScanColumn. cbn [negb]. fold len.
  rewrite Z.mul_0_l, (Z.mul_comm len) in Hrun.
  split; [exact Hrun|]. split; [exact Ht|]. split; [|exact Hin].
  rewrite Hcov. f_equal. lia.
Qed.

Lemma same_64_component (x d : Z) :
  (0 <=? Z.land x 15 + d) && (Z.land x 15 + d <? 16) = true
  <-> Z.shiftr (x + d) 4 = Z.shiftr x 4.
Proof.
  rewrite !Z.shiftr_div_pow2 by lia.
  replace (Z.land x 15) with (Z.land x (Z.ones 4)) by reflexivity.
  rewrite Z.land_ones by lia. change (2 ^ 4) with 16.
  rewrite andb_true_iff, Z.leb_le, Z.ltb_lt.
  pose proof (Z.div_mod x 16 ltac:(lia)) as Hx.
  pose proof (Z.mod_pos_bound x 16 ltac:(lia)) as Hm.
  set (q := x / 16) in *. set (m := x mod 16) in *.
  replace (x + d) with ((m + d) + q * 16) by lia.
  rewrite Z.div_add by lia.
  split.
  - intros Hr. rewrite Z.div_small by lia. lia.
  - intros Hq. assert (Hz : (m + d) / 16 = 0) by lia.
    apply Z.div_small_iff in Hz; lia.
Qed.

(** [IsWithinTheSame64x64Block] holds exactly when moving the block
    position by [(delta_row, delta_column)] 4x4 units stays in the same
    64x64 block, i.e. keeps [row4x4 >> 4] and [column4x4 >> 4]. *)
Theorem IsWithinTheSame64x64Block_spec (row4x4 column4x4 delta_row delta_column : Z) :
  IsWithinTheSame64x64Block row4x4 column4x4 delta_row delta_column = true
  <-> Z.shiftr (row4x4 + delta_row) 4 = Z.shiftr row4x4 4
      /\ Z.shiftr (column4x4 + delta_column) 4 = Z.shiftr column4x4 4.
Proof.
  unfold IsWithinTheSame64x64Block.
  rewrite <- !same_64_component, <- !andb_true_iff, !andb_assoc.
  reflexivity.
Qed.

(** The contexts [ComputeContexts] returns, for [total_matches] the number
    of the two match flags set, are both in [0, 5]. *)
Theorem ComputeContexts_range (found_new_mv found_row_match found_column_match : bool)
  (nearest_matches : Z) :
  let '(new_mv_context, reference_mv_context) :=
    ComputeContexts found_new_mv nearest_matches
      (Z.b2z found_row_match + Z.b2z found_column_match) in
  0 <= new_mv_context <= 5 /\ 0 <= reference_mv_context <= 5.
Proof.
  unfold ComputeContexts.
  destruct (nearest_matches =? 0); [|destruct (nearest_matches =? 1)];
    destruct found_new_mv, found_row_match, found_column_match; cbn; lia.
Qed.

End MvScanProofs.

Lemma ScanRow_cover_witness :
  exists visits t,
    MvScan.ScanRow true 16 0 100 (-1) (fun _ => 2) = Some visits
    /\ 16 <= t
    /\ flat_map (fun v => SuperRes.seqZ (fst v) (snd v / 2)) visits
       = SuperRes.seqZ 0 t
    /\ (forall v, In v visits -> 0 <= fst v < 16).
Proof.
  apply (MvScanProofs.ScanRow_cover 16 0 100 (-1) (fun _ => 2)).
  - lia.
  - intros _. lia.
  - lia.
Defined.

Lemma ScanColumn_cover_witness :
  exists visits t,
    MvScan.ScanColumn true 8 4 20 (-1) 50 (fun _ => 1) = Some visits
    /\ 8 <= t
    /\ flat_map (fun v => SuperRes.seqZ (fst v / 50) (snd v / 2)) visits
       = SuperRes.seqZ 0 t
    /\ (forall v, In v visits -> exists j, fst v = j * 50 /\ 0 <= j < 8).
Proof.
  apply (MvScanProofs.ScanColumn_cover 8 4 20 (-1) 50 (fun _ => 1)).
  - lia.
  - intros _. lia.
  - lia.
  - lia.
Defined.

Module LoopRestorationRowsProofs.
Import FilterSchedule.
Import LoopRestorationRows.

Lemma shiftr_step (c ss : Z) :
  0 <= ss <= 1 -> 0 <= c ->
  Z.shiftr (4 * c) ss + 32 <= Z.shiftr (4 * (c + 16)) ss.
Proof.
  intros Hss Hc.
  assert (E : ss = 0 \/ ss = 1) by lia.
  destruct E as [->| ->].
  - rewrite !Z.shiftr_0_r. lia.
  - rewrite !Z.shiftr_div_pow2 by lia. change (2 ^ 1) with 2.
    replace (4 * c) with (2 * c * 2) by ring.
    replace (4 * (c + 16)) with ((2 * c + 32) * 2) by ring.
    rewrite !Z.div_mul by lia. lia.
Qed.

Lemma filter_all_true {A : Type} (g : A -> bool) (l : list A) :
  (forall x, In x l -> g x = true) -> filter g l = l.
Proof.
  induction l as [|a l IH]; intros H; [reflexivity|].
  cbn [filter]. rewrite H by (left; reflexivity).
  f_equal. apply IH. intros x Hx. apply H. right. exact Hx.
Qed.

Lemma filter_all_false {A : Type} (g : A -> bool) (l : list A) :
  (forall x, In x l -> g x = false) -> filter g l = [].
Proof.
  induction l as [|a l IH]; intros H; [reflexivity|].
  cbn [filter]. rewrite H by (left; reflexivity).
  apply IH. intros x Hx. apply H. right. exact Hx.
Qed.

Lemma ceil_div_64 (W j : Z) :
  0 <= j -> (64 * j < W <-> j < (W + 63) / 64).
Proof.
  intros Hj.
  pose proof (Z.div_mod (W + 63) 64 ltac:(lia)) as E.
  pose proof (Z.mod_pos_bound (W + 63) 64 ltac:(lia)) as B.
  split; intros H; nia.
Qed.

Lemma ceil_div_64_le (W : Z) :
  (Z.to_nat ((W + 63) / 64) < S (Z.to_nat W))%nat.
Proof.
  destruct (Z.le_gt_cases W 0) as [H|H].
  - assert ((W + 63) / 64 < 1) by (apply Z.div_lt_upper_bound; lia). lia.
  - assert ((W + 63) / 64 <= W) by (apply Z.div_le_upper_bound; lia). lia.
Qed.

Lemma ystart_mono (t1 t2 : nat) : (t1 <= t2)%nat -> ystart t1 <= ystart t2.
Proof.
  intros Ht. unfold ystart.
  destruct t1 as [|t1], t2 as [|t2]; cbn [Nat.eqb]; lia.
Qed.

Section LrProofs.
Variables kLoopRestorationTypeNone kRestorationUnitOffset
  kRestorationProcessingUnitSize : Z.
Variable RightShiftWithRounding : Z -> Z -> Z.

Lemma column_loop_some (fuel : nat) (plane c ss y ur h puw PW : Z) :
  0 <= ss <= 1 -> 0 <= c ->
  (Z.to_nat (PW - Z.shiftr (4 * c) ss) < fuel)%nat ->
  exists l, lr_column_loop fuel plane c ss y ur h puw PW = Some l
            /\ Forall (fun u => unit_plane u = plane) l.
Proof.
  revert c. induction fuel as [|fuel IH]; intros c Hss Hc Hf; [lia|].
  cbn [lr_column_loop].
  destruct (Z.shiftr (4 * c) ss >=? PW) eqn:E; [exists []; split; auto|].
  rewrite Z.geb_leb, Z.leb_gt in E.
  pose proof (shiftr_step c ss Hss Hc).
  destruct (IH (c + 16)) as (l & El & Fl); [lia|lia|lia|].
  rewrite El. eexists. split; [reflexivity|]. constructor; [reflexivity|exact Fl].
Qed.

Lemma sb_y_loop_some (fuel : nat) (f : LrFrame) (plane r s sb_y uho PH PW nvu
  puw : Z) :
  0 <= lr_subsampling_x f plane <= 1 ->
  (Z.to_nat (s - sb_y) < fuel)%nat ->
  exists l, lr_sb_y_loop kRestorationProcessingUnitSize fuel f plane r s sb_y
              uho PH PW nvu puw = Some l
            /\ Forall (fun u => unit_plane u = plane) l.
Proof.
  intros Hss. revert sb_y. induction fuel as [|fuel IH]; intros sb_y Hf; [lia|].
  cbn [lr_sb_y_loop].
  destruct (sb_y <? s) eqn:Es; [|exists []; split; auto].
  apply Z.ltb_lt in Es. cbv zeta.
  destruct (_ >=? PH); [exists []; split; auto|].
  destruct (column_loop_some (S (Z.to_nat PW)) plane 0 (lr_subsampling_x f plane)
    (Z.shiftr (4 * (r + sb_y) - (if r + sb_y =? 0 then 0 else 8))
       (lr_subsampling_y f plane))
    (Z.min (Z.quot (Z.shiftr (4 * (r + sb_y) - (if r + sb_y =? 0 then 0 else 8))
                      (lr_subsampling_y f plane) + uho) (lr_unit_size f plane))
       (nvu - 1))
    (let y := Z.shiftr (4 * (r + sb_y) - (if r + sb_y =? 0 then 0 else 8))
                (lr_subsampling_y f plane) in
     let e := plane_process_unit_height kRestorationProcessingUnitSize f plane
              + (if y =? 0 then - uho else 0) in
     if y + e <=? PH then e else PH - y) puw PW Hss ltac:(lia))
    as (l1 & E1 & F1).
  { rewrite Z.mul_0_r, Z.shiftr_0_l. lia. }
  cbv zeta in E1. rewrite E1.
  destruct (IH (sb_y + 16)) as (l2 & E2 & F2); [lia|].
  rewrite E2. eexists. split; [reflexivity|]. apply Forall_app. auto.
Qed.

Lemma plane_loop_some (fuel : nat) (f : LrFrame) (r s p : Z) :
  (forall q, 0 <= lr_subsampling_x f q <= 1) ->
  (Z.to_nat (lr_planes f - p) < fuel)%nat ->
  exists l, lr_plane_loop kLoopRestorationTypeNone kRestorationUnitOffset
              kRestorationProcessingUnitSize RightShiftWithRounding fuel f r s p
            = Some l
            /\ Forall (fun u => p <= unit_plane u) l.
Proof.
  intros Hss. revert p. induction fuel as [|fuel IH]; intros p Hf; [lia|].
  cbn [lr_plane_loop].
  destruct (p <? lr_planes f) eqn:Ep; [|exists []; split; auto].
  apply Z.ltb_lt in Ep.
  destruct (IH (p + 1)) as (l2 & E2 & F2); [lia|].
  destruct (_ =? kLoopRestorationTypeNone).
  - rewrite E2. eexists. split; [reflexivity|].
    eapply Forall_impl; [|exact F2]. cbv beta. intros u Hu. lia.
  - cbv zeta.
    match goal with
    | |- exists l, match lr_sb_y_loop _ ?fu _ _ _ _ _ ?a ?b ?c ?d ?e with _ => _ end
                   = _ /\ _ =>
        destruct (sb_y_loop_some fu f p r s 0 a b c d e (Hss p) ltac:(lia))
          as (l1 & E1 & F1)
    end.
    rewrite E1, E2. eexists. split; [reflexivity|].
    apply Forall_app. split.
    + eapply Forall_impl; [|exact F1]. cbv beta. intros u Hu. lia.
    + eapply Forall_impl; [|exact F2]. cbv beta. intros u Hu. lia.
Qed.

End LrProofs.

Lemma column_loop_luma (m fuel j : nat) (c y ur h W : Z) :
  c = 16 * Z.of_nat j ->
  Z.to_nat ((W + 63) / 64) = (j + m)%nat -> (m < fuel)%nat ->
  lr_column_loop fuel 0 c 0 y ur h 64 W
  = Some (map (fun j' => mkLrUnit 0 (64 * Z.of_nat j') y ur h 64) (seq j m)).
Proof.
  revert fuel j c. induction m as [|m IH]; intros fuel j c Hc HN Hf;
    (destruct fuel as [|fuel]; [lia|]); cbn [lr_column_loop];
    rewrite Z.shiftr_0_r, Hc.
  - replace (4 * (16 * Z.of_nat j) >=? W) with true; [reflexivity|].
    symmetry. apply Z.geb_le.
    destruct (Z.le_gt_cases W (64 * Z.of_nat j)) as [H|H]; [lia|].
    apply ceil_div_64 in H; lia.
  - replace (4 * (16 * Z.of_nat j) >=? W) with false.
    2:{ symmetry. rewrite Z.geb_leb. apply Z.leb_gt.
        replace (4 * (16 * Z.of_nat j)) with (64 * Z.of_nat j) by lia.
        apply ceil_div_64; lia. }
    rewrite (IH fuel (S j)) by lia.
    replace (4 * (16 * Z.of_nat j)) with (64 * Z.of_nat j) by lia.
    reflexivity.
Qed.

Lemma y_luma (t : nat) :
  Z.shiftr (4 * (16 * Z.of_nat t) - (if 16 * Z.of_nat t =? 0 then 0 else 8)) 0
  = ystart t.
Proof.
  rewrite Z.shiftr_0_r. unfold ystart.
  destruct t as [|t]; cbn [Nat.eqb]; [reflexivity|].
  replace (16 * Z.of_nat (S t) =? 0) with false
    by (symmetry; apply Z.eqb_neq; lia).
  lia.
Qed.

Lemma eh_luma (kP : Z) (f : LrFrame) (t : nat) :
  kP = 64 ->
  plane_process_unit_height kP f 0 + (if ystart t =? 0 then Z.opp 8 else 0)
  = 64 - (if Nat.eqb t 0 then 8 else 0).
Proof.
  intros HP. unfold plane_process_unit_height. cbn [Z.to_nat nth]. subst kP.
  unfold ystart. destruct t as [|t]; cbn [Nat.eqb]; [reflexivity|].
  replace (64 * Z.of_nat (S t) - 8 =? 0) with false
    by (symmetry; apply Z.eqb_neq; lia).
  reflexivity.
Qed.

Lemma luma_units_plane (f : LrFrame) (ts : list nat) (u : LrUnit) :
  In u (flat_map (luma_band_units f) ts) -> unit_plane u = 0.
Proof.
  intros Hu. apply in_flat_map in Hu. destruct Hu as (t & _ & Hu).
  unfold luma_band_units in Hu. apply in_map_iff in Hu.
  destruct Hu as (j & <- & _). reflexivity.
Qed.

(** The luma rows of the bands of the 4x4 rows [16 * t], [t < T]. *)
Lemma band_tiling (H : Z) (T : nat) :
  flat_map (fun t => SuperRes.seqZ (ystart t) (bandh H t))
    (filter (fun t => ystart t <? H) (seq 0 T))
  = SuperRes.seqZ 0 (Z.min (match T with O => 0 | S _ => 64 * Z.of_nat T - 8 end) H).
Proof.
  induction T as [|T IH].
  - cbn. symmetry. apply FilterScheduleProofs.seqZ_nonpos. lia.
  - rewrite seq_S, filter_app, flat_map_app, IH. cbn [plus filter].
    destruct (ystart T <? H) eqn:E; [apply Z.ltb_lt in E | apply Z.ltb_ge in E].
    + cbn [flat_map]. rewrite app_nil_r. unfold bandh in *. unfold ystart in *.
      destruct T as [|T]; cbn [Nat.eqb] in *.
      * rewrite FilterScheduleProofs.seqZ_nonpos by lia. cbn [app].
        destruct (_ <=? H) eqn:E2; [apply Z.leb_le in E2 | apply Z.leb_gt in E2];
          f_equal; lia.
      * rewrite Z.min_l by lia.
        destruct (_ <=? H) eqn:E2; [apply Z.leb_le in E2 | apply Z.leb_gt in E2];
        match goal with
        | |- SuperRes.seqZ 0 ?a ++ SuperRes.seqZ ?b _ = _ =>
            replace b with (0 + a) by lia
        end;
        rewrite SuperResProofs.seqZ_app by lia; f_equal; lia.
    + cbn [flat_map]. rewrite app_nil_r. f_equal. unfold ystart in E.
      destruct T as [|T]; cbn [Nat.eqb] in E; lia.
Qed.

Lemma seq_blocks (K q : nat) :
  flat_map (fun ab => seq (fst ab) (snd ab))
    (map (fun k => (k * q, q)%nat) (seq 0 K))
  = seq 0 (K * q).
Proof.
  induction K as [|K IH]; [reflexivity|].
  rewrite seq_S, map_app, flat_map_app, IH. cbn [map flat_map fst snd plus].
  rewrite app_nil_r, <- seq_app. f_equal. lia.
Qed.

Section Luma.
Variables kLoopRestorationTypeNone kRestorationUnitOffset
  kRestorationProcessingUnitSize : Z.
Variable RightShiftWithRounding : Z -> Z -> Z.
Variable f : LrFrame.
Hypothesis Hoff : kRestorationUnitOffset = 8.
Hypothesis HP : kRestorationProcessingUnitSize = 64.
Hypothesis Hrsr : forall v, RightShiftWithRounding v 0 = v.
Hypothesis Hssx0 : lr_subsampling_x f 0 = 0.
Hypothesis Hssy0 : lr_subsampling_y f 0 = 0.
Hypothesis Hssx : forall p, 0 <= lr_subsampling_x f p <= 1.
Hypothesis Hplanes : 1 <= lr_planes f.
Hypothesis Htype : lr_type f 0 <> kLoopRestorationTypeNone.

Lemma sb_y_loop_luma (m fuel i a : nat) (r s sb_y : Z) :
  r = 16 * Z.of_nat a -> s = 16 * Z.of_nat (i + m) -> sb_y = 16 * Z.of_nat i ->
  (m < fuel)%nat ->
  lr_sb_y_loop kRestorationProcessingUnitSize fuel f 0 r s sb_y 8
    (lr_height f) (lr_upscaled_width f) (lr_num_vertical_units f 0) 64
  = Some (flat_map (luma_band_units f)
            (filter (fun t => ystart t <? lr_height f) (seq (a + i) m))).
Proof.
  revert fuel i sb_y. induction m as [|m IH]; intros fuel i sb_y Hr Hs Hy Hf;
    (destruct fuel as [|fuel]; [lia|]); cbn [lr_sb_y_loop].
  - replace (sb_y <? s) with false by (symmetry; apply Z.ltb_ge; lia).
    reflexivity.
  - replace (sb_y <? s) with true by (symmetry; apply Z.ltb_lt; lia).
    cbv zeta. rewrite Hssy0, Hssx0.
    replace (r + sb_y) with (16 * Z.of_nat (a + i)) by lia.
    rewrite y_luma.
    destruct (ystart (a + i) >=? lr_height f) eqn:E.
    + apply Z.geb_le in E. symmetry. f_equal.
      rewrite filter_all_false; [reflexivity|].
      intros t Ht. apply in_seq in Ht. apply Z.ltb_ge.
      pose proof (ystart_mono (a + i) t ltac:(lia)). lia.
    + rewrite Z.geb_leb, Z.leb_gt in E.
      rewrite (eh_luma kRestorationProcessingUnitSize f (a + i) HP).
      rewrite (column_loop_luma (Z.to_nat ((lr_upscaled_width f + 63) / 64))
                 _ 0 0) by (try apply ceil_div_64_le; reflexivity).
      rewrite (IH fuel (S i)) by lia.
      replace (a + S i)%nat with (S (a + i)) by lia.
      cbn [seq filter]. replace (ystart (a + i) <? lr_height f) with true
        by (symmetry; apply Z.ltb_lt; exact E).
      reflexivity.
Qed.

Lemma row_luma (a b : nat) :
  exists l,
    ApplyLoopRestorationForOneSuperBlockRow kLoopRestorationTypeNone
      kRestorationUnitOffset kRestorationProcessingUnitSize
      RightShiftWithRounding f (16 * Z.of_nat a) (16 * Z.of_nat b) = Some l
    /\ filter (fun u => unit_plane u =? 0) l
       = flat_map (luma_band_units f)
           (filter (fun t => ystart t <? lr_height f) (seq a b)).
Proof.
  unfold ApplyLoopRestorationForOneSuperBlockRow. cbn [lr_plane_loop].
  replace (0 <? lr_planes f) with true by (symmetry; apply Z.ltb_lt; lia).
  replace (lr_type f 0 =? kLoopRestorationTypeNone) with false
    by (symmetry; apply Z.eqb_neq; exact Htype).
  cbv zeta. rewrite Hssy0, Hssx0, !Hrsr, Hoff, Z.shiftr_0_r.
  replace (plane_process_unit_width kRestorationProcessingUnitSize f 0)
    with 64 by (unfold plane_process_unit_width; cbn [Z.to_nat nth]; lia).
  rewrite (sb_y_loop_luma b _ 0 a) by (reflexivity || lia).
  destruct (plane_loop_some kLoopRestorationTypeNone kRestorationUnitOffset
              kRestorationProcessingUnitSize RightShiftWithRounding
              (Z.to_nat (lr_planes f)) f (16 * Z.of_nat a) (16 * Z.of_nat b)
              1 Hssx ltac:(lia)) as (l2 & E2 & F2).
  change (0 + 1) with 1. rewrite Hoff in E2. rewrite E2, Nat.add_0_r. cbn [option_map]. eexists. split; [reflexivity|].
  rewrite filter_app, (filter_all_false _ l2), app_nil_r.
  - apply filter_all_true.
    intros u Hu. apply Z.eqb_eq. eapply luma_units_plane. exact Hu.
  - intros u Hu. rewrite Forall_forall in F2. specialize (F2 u Hu).
    apply Z.eqb_neq. lia.
Qed.

Lemma lr_units_filter (calls : list FilterCall) :
  loop_restoration_units kLoopRestorationTypeNone kRestorationUnitOffset
    kRestorationProcessingUnitSize RightShiftWithRounding f calls
  = loop_restoration_units kLoopRestorationTypeNone kRestorationUnitOffset
      kRestorationProcessingUnitSize RightShiftWithRounding f
      (filter is_loop_restoration_call calls).
Proof.
  induction calls as [|c calls IH]; [reflexivity|].
  destruct c; cbn [filter is_loop_restoration_call loop_restoration_units];
    rewrite IH; reflexivity.
Qed.

Lemma lr_units_rows (rs : list (nat * nat)) :
  exists l,
    loop_restoration_units kLoopRestorationTypeNone kRestorationUnitOffset
      kRestorationProcessingUnitSize RightShiftWithRounding f
      (map (fun ab => FilterSchedule.ApplyLoopRestorationForOneSuperBlockRow
                        (16 * Z.of_nat (fst ab)) (16 * Z.of_nat (snd ab))) rs)
    = Some l
    /\ filter (fun u => unit_plane u =? 0) l
       = flat_map (luma_band_units f)
           (filter (fun t => ystart t <? lr_height f)
              (flat_map (fun ab => seq (fst ab) (snd ab)) rs)).
Proof.
  induction rs as [|[a b] rs IH]; [exists []; split; reflexivity|].
  destruct IH as (l2 & E2 & F2).
  destruct (row_luma a b) as (l1 & E1 & F1).
  cbn [map loop_restoration_units fst snd]. rewrite E1, E2.
  cbn [option_map]. eexists. split; [reflexivity|].
  cbn [flat_map fst snd].
  rewrite !filter_app, F1, F2, flat_map_app. reflexivity.
Qed.

End Luma.

Lemma flat_map_map' {A B C : Type} (g : B -> list C) (h : A -> B) (l : list A) :
  flat_map g (map h l) = flat_map (fun x => g (h x)) l.
Proof.
  induction l as [|a l IH]; [reflexivity|]. cbn [map flat_map]. rewrite IH.
  reflexivity.
Qed.

Lemma bandh_range (H : Z) (t : nat) :
  ystart t < H -> 0 < bandh H t <= 64.
Proof.
  intros Ht. unfold bandh.
  destruct (_ <=? H) eqn:E; [apply Z.leb_le in E | apply Z.leb_gt in E];
    destruct t as [|t]; cbn [Nat.eqb] in *; lia.
Qed.

(** Over the [n] calls of [PostFilter::ApplyFilteringForOneSuperBlockRow]
    for a frame ([row4x4 = k * sb4x4], [is_last_row] on the last one) with
    loop restoration on and luma restored, the calls of
    [PostFilter::ApplyLoopRestorationForOneSuperBlockRow] restore the luma
    plane in bands of at most 64 rows that cover each row
    [0 .. frame_header_.height - 1] exactly once, in increasing order; in
    each band [ApplyLoopRestorationForSuperBlock] is called at
    [x = 0, 64, 128, ...] below the upscaled width, with
    [unit_row = min((y + 8) / unit_size, num_vertical_units - 1)]. *)
Theorem ApplyLoopRestorationForOneSuperBlockRow_luma_rows
  (kLoopRestorationTypeNone kRestorationUnitOffset
   kRestorationProcessingUnitSize : Z)
  (RightShiftWithRounding : Z -> Z -> Z) (fl : Flags) (fi : FrameInfo)
  (f : LrFrame) (progress_row sb4x4 : Z) (n : nat) :
  kRestorationUnitOffset = 8 -> kRestorationProcessingUnitSize = 64 ->
  (forall v, RightShiftWithRounding v 0 = v) ->
  lr_subsampling_x f 0 = 0 -> lr_subsampling_y f 0 = 0 ->
  (forall p, 0 <= lr_subsampling_x f p <= 1) ->
  1 <= lr_planes f -> lr_type f 0 <> kLoopRestorationTypeNone ->
  DoRestoration fl = true ->
  16 <= sb4x4 -> sb4x4 mod 16 = 0 -> (1 <= n)%nat ->
  lr_height f <= 4 * Z.of_nat n * sb4x4 ->
  exists units bands,
    loop_restoration_units kLoopRestorationTypeNone kRestorationUnitOffset
      kRestorationProcessingUnitSize RightShiftWithRounding f
      (fst (run_rows RightShiftWithRounding fl fi progress_row sb4x4
              (map (fun k => (Z.of_nat k * sb4x4, Nat.eqb (S k) n))
                 (seq 0 n))))
    = Some units
    /\ filter (fun u => unit_plane u =? 0) units
       = flat_map (fun yh =>
                     map (fun j => mkLrUnit 0 (64 * Z.of_nat j) (fst yh)
                                     (Z.min (Z.quot (fst yh + 8)
                                               (lr_unit_size f 0))
                                        (lr_num_vertical_units f 0 - 1))
                                     (snd yh) 64)
                       (seq 0 (Z.to_nat ((lr_upscaled_width f + 63) / 64))))
           bands
    /\ flat_map (fun yh => SuperRes.seqZ (fst yh) (snd yh)) bands
       = SuperRes.seqZ 0 (lr_height f)
    /\ Forall (fun yh => 0 < snd yh <= 64) bands.
Proof.
  intros Hoff HP Hrsr Hssx0 Hssy0 Hssx Hplanes Htype Hres Hsb Hmod Hn Hh.
  destruct n as [|m]; [lia|].
  assert (Hsb1 : 1 <= sb4x4) by lia.
  assert (Hq : sb4x4 = 16 * Z.of_nat (Z.to_nat (sb4x4 / 16))).
  { pose proof (Z.div_mod sb4x4 16 ltac:(lia)).
    assert (0 <= sb4x4 / 16) by (apply Z.div_pos; lia). lia. }
  set (q := Z.to_nat (sb4x4 / 16)) in Hq.
  rewrite lr_units_filter.
  rewrite FilterScheduleProofs.run_rows_calls, FilterScheduleProofs.frame_calls
    by exact Hsb1.
  destruct (FilterScheduleProofs.schedule_kinds RightShiftWithRounding fl fi
              sb4x4 Hsb1 m) as (_ & _ & _ & H4).
  rewrite H4, Hres.
  replace (map (fun k => FilterSchedule.ApplyLoopRestorationForOneSuperBlockRow
                           (Z.of_nat k * sb4x4) sb4x4) (seq 0 (S m))
           ++ [FilterSchedule.ApplyLoopRestorationForOneSuperBlockRow
                 (Z.of_nat (S m) * sb4x4) 16])
    with (map (fun ab => FilterSchedule.ApplyLoopRestorationForOneSuperBlockRow
                           (16 * Z.of_nat (fst ab)) (16 * Z.of_nat (snd ab)))
            (map (fun k => (k * q, q)%nat) (seq 0 (S m)) ++ [(S m * q, 1)%nat])).
  2:{ rewrite map_app, map_map. cbn [map fst snd]. f_equal.
      - apply map_ext. intros k. cbn [fst snd]. f_equal; lia.
      - do 2 f_equal; lia. }
  destruct (lr_units_rows kLoopRestorationTypeNone kRestorationUnitOffset
              kRestorationProcessingUnitSize RightShiftWithRounding f Hoff HP
              Hrsr Hssx0 Hssy0 Hssx Hplanes Htype
              (map (fun k => (k * q, q)%nat) (seq 0 (S m)) ++ [(S m * q, 1)%nat]))
    as (l & El & Fl).
  rewrite flat_map_app, seq_blocks in Fl. cbn [flat_map fst snd seq] in Fl.
  rewrite app_nil_r in Fl.
  replace (seq 0 (S m * q) ++ [(S m * q)%nat]) with (seq 0 (S (S m * q))) in Fl
    by (rewrite seq_S; reflexivity).
  exists l, (map (fun t => (ystart t, bandh (lr_height f) t))
               (filter (fun t => ystart t <? lr_height f)
                  (seq 0 (S (S m * q))))).
  split; [exact El|]. split; [|split].
  - rewrite Fl, flat_map_map'. reflexivity.
  - rewrite flat_map_map'. cbn [fst snd]. rewrite band_tiling.
    f_equal. apply Z.min_r. lia.
  - apply Forall_map, Forall_forall. intros t Ht.
    apply filter_In in Ht. destruct Ht as [_ Ht]. apply Z.ltb_lt in Ht.
    cbn [snd]. apply bandh_range. exact Ht.
Qed.

End LoopRestorationRowsProofs.

Lemma ApplyLoopRestorationForOneSuperBlockRow_luma_rows_witness :
  exists units bands,
    LoopRestorationRows.loop_restoration_units 0 8 64
      (fun v b => Z.shiftr (v + Z.shiftr (Z.shiftl 1 b) 1) b)
      (LoopRestorationRows.mkLrFrame 3 100 100
         (fun p => if p =? 0 then 0 else 1) (fun p => if p =? 0 then 0 else 1)
         (fun _ => 1) (fun _ => 64) (fun _ => 2))
      (fst (FilterSchedule.run_rows
              (fun v b => Z.shiftr (v + Z.shiftr (Z.shiftl 1 b) 1) b)
              (FilterSchedule.mkFlags true true false true true)
              (FilterSchedule.mkFrameInfo 1 3 100 100
                 (fun p => if p =? 0 then 0 else 1)
                 (fun p => if p =? 0 then 0 else 1))
              0 16 (map (fun k => (Z.of_nat k * 16, Nat.eqb (S k) 2))
                      (seq 0 2))))
    = Some units
    /\ filter (fun u => LoopRestorationRows.unit_plane u =? 0) units
       = flat_map (fun yh =>
                     map (fun j => LoopRestorationRows.mkLrUnit 0
                                     (64 * Z.of_nat j) (fst yh)
                                     (Z.min (Z.quot (fst yh + 8) 64) (2 - 1))
                                     (snd yh) 64)
                       (seq 0 (Z.to_nat ((100 + 63) / 64))))
           bands
    /\ flat_map (fun yh => SuperRes.seqZ (fst yh) (snd yh)) bands
       = SuperRes.seqZ 0 100
    /\ Forall (fun yh => 0 < snd yh <= 64) bands.
Proof.
  apply (LoopRestorationRowsProofs.ApplyLoopRestorationForOneSuperBlockRow_luma_rows
           0 8 64 (fun v b => Z.shiftr (v + Z.shiftr (Z.shiftl 1 b) 1) b)
           (FilterSchedule.mkFlags true true false true true)
           (FilterSchedule.mkFrameInfo 1 3 100 100
              (fun p => if p =? 0 then 0 else 1)
              (fun p => if p =? 0 then 0 else 1))
           (LoopRestorationRows.mkLrFrame 3 100 100
              (fun p => if p =? 0 then 0 else 1)
              (fun p => if p =? 0 then 0 else 1)
              (fun _ => 1) (fun _ => 64) (fun _ => 2))
           0 16 2).
  - reflexivity.
  - reflexivity.
  - intros v. rewrite Z.shiftr_0_r. change (Z.shiftr (Z.shiftl 1 0) 1) with 0. lia.
  - reflexivity.
  - reflexivity.
  - intros p. cbn [LoopRestorationRows.lr_subsampling_x].
    destruct (p =? 0); lia.
  - cbn. lia.
  - cbn. discriminate.
  - reflexivity.
  - lia.
  - reflexivity.
  - lia.
  - cbn. lia.
Defined.

Module MvPrecisionProofs.
Import MotionVectorPrediction.

Lemma to_int16_small (x : Z) : -32768 <= x <= 32767 -> to_int16 x = x.
Proof.
  intros Hx. apply to_int16_id. unfold is_int16.
  apply andb_true_iff. split; apply Z.leb_le; lia.
Qed.

Lemma land_lnot7 (x : Z) : Z.land x (Z.lnot 7) = 8 * (x / 8).
Proof.
  replace (8 * (x / 8)) with (Z.shiftl (Z.shiftr x 3) 3)
    by (rewrite Z.shiftl_mul_pow2, Z.shiftr_div_pow2 by lia;
        change (2 ^ 3) with 8; lia).
  apply Z.bits_inj'. intros n Hn.
  rewrite Z.land_spec, Z.lnot_spec by lia. change 7 with (Z.ones 3).
  destruct (Z.lt_ge_cases n 3) as [H|H].
  - rewrite Z.ones_spec_low, Z.shiftl_spec_low by lia.
    apply andb_false_r.
  - rewrite Z.ones_spec_high, Z.shiftl_spec_high, Z.shiftr_spec by lia.
    rewrite andb_true_r. f_equal. lia.
Qed.

Lemma shiftr15 (mv : Z) :
  -32768 <= mv <= 32767 -> Z.shiftr mv 15 = if mv <? 0 then -1 else 0.
Proof.
  intros Hmv. rewrite Z.shiftr_div_pow2 by lia. change (2 ^ 15) with 32768.
  destruct (mv <? 0) eqn:E; [apply Z.ltb_lt in E | apply Z.ltb_ge in E].
  - symmetry. apply Z.div_unique with (r := mv + 32768); lia.
  - apply Z.div_small. lia.
Qed.

Lemma land1 (mv : Z) : Z.land mv 1 = mv mod 2.
Proof.
  change 1 with (Z.ones 1). rewrite Z.land_ones by lia. reflexivity.
Qed.

Lemma lower_integer_component_spec (mv : Z) :
  -32768 <= mv <= 32764 ->
  let r := lower_integer_component mv in
  r mod 8 = 0 /\ Z.abs (r - mv) <= 4 /\ Z.abs r - Z.abs mv <= 3
  /\ 0 <= r * mv.
Proof.
  intros Hmv r. subst r. unfold lower_integer_component, ApplySign.
  cbv zeta. rewrite land_lnot7, shiftr15 by lia.
  pose proof (Z.div_mod (Z.abs mv + 3) 8 ltac:(lia)) as E.
  pose proof (Z.mod_pos_bound (Z.abs mv + 3) 8 ltac:(lia)) as B.
  destruct (mv <? 0) eqn:Es; [apply Z.ltb_lt in Es | apply Z.ltb_ge in Es].
  - rewrite Z.lxor_m1_r, Z.lnot_eq_pred_opp, to_int16_small by lia.
    match goal with
    | |- (?x mod 8 = 0) /\ _ => replace x with ((- ((Z.abs mv + 3) / 8)) * 8) by lia
    end.
    rewrite Z.mod_mul by lia. repeat split; nia.
  - rewrite Z.lxor_0_r, Z.sub_0_r, to_int16_small by lia.
    match goal with
    | |- (?x mod 8 = 0) /\ _ => replace x with (((Z.abs mv + 3) / 8) * 8) by lia
    end.
    rewrite Z.mod_mul by lia. repeat split; nia.
Qed.

Lemma lower_odd_component_spec (mv : Z) :
  -32768 <= mv <= 32767 ->
  let r := lower_odd_component mv in
  r mod 2 = 0 /\ Z.abs (r - mv) <= 1 /\ Z.abs r <= Z.abs mv /\ 0 <= r * mv.
Proof.
  intros Hmv r. subst r. unfold lower_odd_component.
  rewrite land1.
  pose proof (Z.div_mod mv 2 ltac:(lia)) as E.
  pose proof (Z.mod_pos_bound mv 2 ltac:(lia)) as B.
  destruct (mv mod 2 =? 0) eqn:Em; [apply Z.eqb_eq in Em | apply Z.eqb_neq in Em];
    cbn [negb].
  - rewrite Em. repeat split; nia.
  - rewrite shiftr15 by lia.
    destruct (mv <? 0) eqn:Es; [apply Z.ltb_lt in Es | apply Z.ltb_ge in Es];
      [change (Z.lor (-1) 1) with (-1) | change (Z.lor 0 1) with 1];
      rewrite to_int16_small by lia.
    + replace (mv - -1) with ((mv / 2 + 1) * 2) by lia.
      rewrite Z.mod_mul by lia. repeat split; nia.
    + replace (mv - 1) with ((mv / 2) * 2) by lia.
      rewrite Z.mod_mul by lia. repeat split; nia.
Qed.

(** With [force_integer_mv] and without [allow_high_precision_mv],
    [LowerMvPrecision] turns each component in [-32768, 32764] into a
    multiple of 8 of its sign (or 0) at most 4 away from it and never 4
    larger in magnitude: the nearest multiple of 8, ties toward zero. *)
Theorem LowerMvPrecision_force_integer (fh : FrameHeader) (m : MotionVector) :
  allow_high_precision_mv fh = false -> force_integer_mv fh <> 0 ->
  -32768 <= mv_row m <= 32764 -> -32768 <= mv_col m <= 32764 ->
  Forall2 (fun mv r => r mod 8 = 0 /\ Z.abs (r - mv) <= 4
                       /\ Z.abs r - Z.abs mv <= 3 /\ 0 <= r * mv)
    [mv_row m; mv_col m]
    [mv_row (LowerMvPrecision fh m); mv_col (LowerMvPrecision fh m)].
Proof.
  intros Ha Hf Hr Hc.
  unfold LowerMvPrecision, LowerMvPrecisionComponent. cbn [mv_row mv_col].
  rewrite Ha.
  replace (negb (force_integer_mv fh =? 0)) with true
    by (symmetry; apply negb_true_iff, Z.eqb_neq; exact Hf).
  repeat constructor; apply lower_integer_component_spec; assumption.
Qed.

(** Without [allow_high_precision_mv] and [force_integer_mv],
    [LowerMvPrecision] moves each odd [int16_t] component one step toward
    zero: every component becomes even, at most 1 away, and neither grows
    in magnitude nor changes sign. *)
Theorem LowerMvPrecision_even (fh : FrameHeader) (m : MotionVector) :
  allow_high_precision_mv fh = false -> force_integer_mv fh = 0 ->
  is_int16_mv m = true ->
  Forall2 (fun mv r => r mod 2 = 0 /\ Z.abs (r - mv) <= 1
                       /\ Z.abs r <= Z.abs mv /\ 0 <= r * mv)
    [mv_row m; mv_col m]
    [mv_row (LowerMvPrecision fh m); mv_col (LowerMvPrecision fh m)].
Proof.
  intros Ha Hf Hm.
  unfold is_int16_mv, is_int16 in Hm.
  rewrite !andb_true_iff, !Z.leb_le in Hm.
  unfold LowerMvPrecision, LowerMvPrecisionComponent. cbn [mv_row mv_col].
  rewrite Ha, Hf. cbn [Z.eqb negb].
  repeat constructor; apply lower_odd_component_spec; lia.
Qed.

End MvPrecisionProofs.

Lemma LowerMvPrecision_force_integer_witness :
  Forall2 (fun mv r => r mod 8 = 0 /\ Z.abs (r - mv) <= 4
                       /\ Z.abs r - Z.abs mv <= 3 /\ 0 <= r * mv)
    [13; -12]
    [MotionVectorPrediction.mv_row
       (MotionVectorPrediction.LowerMvPrecision
          (MotionVectorPrediction.mkFrameHeader false 1)
          (MotionVectorPrediction.mkMv 13 (-12)));
     MotionVectorPrediction.mv_col
       (MotionVectorPrediction.LowerMvPrecision
          (MotionVectorPrediction.mkFrameHeader false 1)
          (MotionVectorPrediction.mkMv 13 (-12)))].
Proof.
  apply (MvPrecisionProofs.LowerMvPrecision_force_integer
           (MotionVectorPrediction.mkFrameHeader false 1)
           (MotionVectorPrediction.mkMv 13 (-12))).
  - reflexivity.
  - discriminate.
  - cbn. lia.
  - cbn. lia.
Defined.

Lemma LowerMvPrecision_even_witness :
  Forall2 (fun mv r => r mod 2 = 0 /\ Z.abs (r - mv) <= 1
                       /\ Z.abs r <= Z.abs mv /\ 0 <= r * mv)
    [7; -32767]
    [MotionVectorPrediction.mv_row
       (MotionVectorPrediction.LowerMvPrecision
          (MotionVectorPrediction.mkFrameHeader false 0)
          (MotionVectorPrediction.mkMv 7 (-32767)));
     MotionVectorPrediction.mv_col
       (MotionVectorPrediction.LowerMvPrecision
          (MotionVectorPrediction.mkFrameHeader false 0)
          (MotionVectorPrediction.mkMv 7 (-32767)))].
Proof.
  apply (MvPrecisionProofs.LowerMvPrecision_even
           (MotionVectorPrediction.mkFrameHeader false 0)
           (MotionVectorPrediction.mkMv 7 (-32767))).
  - reflexivity.
  - reflexivity.
  - reflexivity.
Defined.

Module CdefRowsProofs.
Import FilterSchedule.
Import CdefRows.

Lemma ceil_div_16 (W j : Z) :
  0 <= j -> (16 * j < W <-> j < (W + 15) / 16).
Proof.
  intros Hj.
  pose proof (Z.div_mod (W + 15) 16 ltac:(lia)) as E.
  pose proof (Z.mod_pos_bound (W + 15) 16 ltac:(lia)) as B.
  split; intros H; nia.
Qed.

Lemma num64_lt (W : Z) (j : nat) : (j < num64 W)%nat <-> 16 * Z.of_nat j < W.
Proof.
  unfold num64. rewrite (ceil_div_16 W (Z.of_nat j)) by lia. lia.
Qed.

Lemma num64_le (W : Z) : (num64 W < S (Z.to_nat W))%nat.
Proof.
  unfold num64.
  destruct (Z.le_gt_cases W 0) as [H|H].
  - assert ((W + 15) / 16 < 1) by (apply Z.div_lt_upper_bound; lia). lia.
  - assert ((W + 15) / 16 <= W) by (apply Z.div_le_upper_bound; lia). lia.
Qed.

Lemma shiftr16 (t : nat) : Z.shiftr (16 * Z.of_nat t) 4 = Z.of_nat t.
Proof.
  rewrite Z.shiftr_div_pow2 by lia. change (2 ^ 4) with 16.
  rewrite Z.mul_comm, Z.div_mul by lia. reflexivity.
Qed.

Section Grid.
Variable f : CdefFrame.

Lemma column_loop_grid (m fuel j t : nat) (c : Z) :
  c = 16 * Z.of_nat j -> num64 (cdef_columns4x4 f) = (j + m)%nat ->
  (m < fuel)%nat ->
  cdef_column_loop fuel f (16 * Z.of_nat t) c
  = Some (map (cdef_grid_unit f t) (seq j m)).
Proof.
  revert fuel j c. induction m as [|m IH]; intros fuel j c Hc HN Hf;
    (destruct fuel as [|fuel]; [lia|]); cbn [cdef_column_loop]; subst c.
  - replace (16 * Z.of_nat j <? cdef_columns4x4 f) with false; [reflexivity|].
    symmetry. apply Z.ltb_ge.
    destruct (Z.le_gt_cases (cdef_columns4x4 f) (16 * Z.of_nat j)) as [H|H];
      [exact H|].
    apply num64_lt in H. lia.
  - replace (16 * Z.of_nat j <? cdef_columns4x4 f) with true
      by (symmetry; apply Z.ltb_lt, num64_lt; lia).
    unfold step_64x64.
    rewrite (IH fuel (S j)) by lia.
    cbn [seq map option_map]. rewrite !shiftr16. reflexivity.
Qed.

Lemma y_loop_grid (m fuel i a : nat) (r s y : Z) :
  r = 16 * Z.of_nat a -> s = 16 * Z.of_nat (i + m) -> y = 16 * Z.of_nat i ->
  (m < fuel)%nat ->
  cdef_y_loop fuel f r s y
  = Some (flat_map (fun t => map (cdef_grid_unit f t)
                               (seq 0 (num64 (cdef_columns4x4 f))))
            (filter (fun t => 16 * Z.of_nat t <? cdef_rows4x4 f)
               (seq (a + i) m))).
Proof.
  revert fuel i y. induction m as [|m IH]; intros fuel i y Hr Hs Hy Hf;
    (destruct fuel as [|fuel]; [lia|]); cbn [cdef_y_loop].
  - replace (y <? s) with false by (symmetry; apply Z.ltb_ge; lia).
    reflexivity.
  - replace (y <? s) with true by (symmetry; apply Z.ltb_lt; lia).
    cbv zeta. replace (r + y) with (16 * Z.of_nat (a + i)) by lia.
    destruct (16 * Z.of_nat (a + i) >=? cdef_rows4x4 f) eqn:E.
    + apply Z.geb_le in E.
      rewrite LoopRestorationRowsProofs.filter_all_false; [reflexivity|].
      intros t Ht. apply in_seq in Ht. apply Z.ltb_ge. lia.
    + rewrite Z.geb_leb, Z.leb_gt in E.
      rewrite (column_loop_grid (num64 (cdef_columns4x4 f)) _ 0)
        by (try apply num64_le; reflexivity).
      unfold step_64x64.
      rewrite (IH fuel (S i)) by lia.
      replace (a + S i)%nat with (S (a + i)) by lia.
      cbn [seq filter]. replace (16 * Z.of_nat (a + i) <? cdef_rows4x4 f)
        with true by (symmetry; apply Z.ltb_lt; exact E).
      reflexivity.
Qed.

Lemma cdef_units_filter (calls : list FilterCall) :
  cdef_units f calls = cdef_units f (filter is_cdef_call calls).
Proof.
  induction calls as [|c calls IH]; [reflexivity|].
  destruct c; cbn [filter is_cdef_call cdef_units]; rewrite IH; reflexivity.
Qed.

Lemma cdef_units_rows (rs : list (nat * nat)) :
  cdef_units f
    (map (fun ab => FilterSchedule.ApplyCdefForOneSuperBlockRow
                      (16 * Z.of_nat (fst ab)) (16 * Z.of_nat (snd ab))) rs)
  = Some (flat_map (fun t => map (cdef_grid_unit f t)
                               (seq 0 (num64 (cdef_columns4x4 f))))
            (filter (fun t => 16 * Z.of_nat t <? cdef_rows4x4 f)
               (flat_map (fun ab => seq (fst ab) (snd ab)) rs))).
Proof.
  induction rs as [|[a b] rs IH]; [reflexivity|].
  cbn [map cdef_units fst snd]. unfold ApplyCdefForOneSuperBlockRow.
  rewrite (y_loop_grid b _ 0 a) by (reflexivity || lia).
  rewrite IH. cbn [option_map flat_map fst snd].
  rewrite filter_app, flat_map_app, Nat.add_0_r. reflexivity.
Qed.

End Grid.

Lemma filter_rows_prefix (R : Z) (T : nat) :
  (num64 R <= T)%nat ->
  filter (fun t => 16 * Z.of_nat t <? R) (seq 0 T) = seq 0 (num64 R).
Proof.
  intros HT.
  replace T with (num64 R + (T - num64 R))%nat by lia.
  rewrite seq_app, filter_app.
  rewrite LoopRestorationRowsProofs.filter_all_true,
    LoopRestorationRowsProofs.filter_all_false.
  - apply app_nil_r.
  - intros t Ht. apply in_seq in Ht. apply Z.ltb_ge.
    destruct (Z.le_gt_cases R (16 * Z.of_nat t)) as [H|H]; [exact H|].
    apply num64_lt in H. lia.
  - intros t Ht. apply in_seq in Ht. apply Z.ltb_lt, num64_lt. lia.
Qed.

(** The 64x64 blocks [0 .. num64 R - 1], each [min(16, R - 16 t)] 4x4
    units long, cover [0 .. R - 1] once, in order. *)
Lemma grid_tiling (R : Z) (N : nat) :
  (N <= num64 R)%nat ->
  flat_map (fun t => SuperRes.seqZ (16 * Z.of_nat t)
                       (Z.min 16 (R - 16 * Z.of_nat t))) (seq 0 N)
  = SuperRes.seqZ 0 (Z.min (16 * Z.of_nat N) R).
Proof.
  induction N as [|N IH]; intros HN.
  - cbn. destruct (Z.le_gt_cases R 0).
    + rewrite Z.min_r by lia.
      symmetry. apply FilterScheduleProofs.seqZ_nonpos. lia.
    + rewrite Z.min_l by lia. reflexivity.
  - rewrite seq_S, flat_map_app, IH by lia. cbn [flat_map plus].
    rewrite app_nil_r.
    assert (H : 16 * Z.of_nat N < R) by (apply num64_lt; lia).
    rewrite Z.min_l by lia.
    replace (16 * Z.of_nat N) with (0 + 16 * Z.of_nat N) at 2 by lia.
    rewrite SuperResProofs.seqZ_app by lia. f_equal. lia.
Qed.

Lemma grid_cover (R : Z) :
  flat_map (fun t => SuperRes.seqZ (16 * Z.of_nat t)
                       (Z.min 16 (R - 16 * Z.of_nat t))) (seq 0 (num64 R))
  = SuperRes.seqZ 0 R.
Proof.
  rewrite grid_tiling by lia.
  destruct (Z.le_gt_cases R (16 * Z.of_nat (num64 R))) as [H|H].
  - rewrite Z.min_r by exact H. reflexivity.
  - apply num64_lt in H. lia.
Qed.

(** Over the [n] calls of [PostFilter::ApplyFilteringForOneSuperBlockRow]
    for a frame ([row4x4 = k * sb4x4], [is_last_row] on the last one) with
    CDEF on, the calls of [PostFilter::ApplyCdefForOneSuperBlockRow] call
    [ApplyCdefForOneUnit] once for each 64x64 block of the frame, in
    raster order, with [index = cdef_index_[row][column]] and the block's
    width and height in 4x4 units clipped to the frame; these widths and
    heights tile the columns [0 .. columns4x4 - 1] and the rows
    [0 .. rows4x4 - 1]. *)
Theorem ApplyCdefForOneSuperBlockRow_grid
  (RightShiftWithRounding : Z -> Z -> Z) (fl : Flags) (fi : FrameInfo)
  (f : CdefFrame) (progress_row sb4x4 : Z) (n : nat) :
  DoCdef fl = true -> 16 <= sb4x4 -> sb4x4 mod 16 = 0 -> (1 <= n)%nat ->
  cdef_rows4x4 f <= Z.of_nat n * sb4x4 ->
  cdef_units f
    (fst (run_rows RightShiftWithRounding fl fi progress_row sb4x4
            (map (fun k => (Z.of_nat k * sb4x4, Nat.eqb (S k) n)) (seq 0 n))))
  = Some (flat_map (fun t => map (fun c => mkCdefUnit
                                             (cdef_index_ f (Z.of_nat t) (Z.of_nat c))
                                             (Z.min 16 (cdef_columns4x4 f - 16 * Z.of_nat c))
                                             (Z.min 16 (cdef_rows4x4 f - 16 * Z.of_nat t))
                                             (16 * Z.of_nat t) (16 * Z.of_nat c))
                               (seq 0 (num64 (cdef_columns4x4 f))))
            (seq 0 (num64 (cdef_rows4x4 f))))
  /\ flat_map (fun t => SuperRes.seqZ (16 * Z.of_nat t)
                          (Z.min 16 (cdef_rows4x4 f - 16 * Z.of_nat t)))
       (seq 0 (num64 (cdef_rows4x4 f)))
     = SuperRes.seqZ 0 (cdef_rows4x4 f)
  /\ flat_map (fun c => SuperRes.seqZ (16 * Z.of_nat c)
                          (Z.min 16 (cdef_columns4x4 f - 16 * Z.of_nat c)))
       (seq 0 (num64 (cdef_columns4x4 f)))
     = SuperRes.seqZ 0 (cdef_columns4x4 f).
Proof.
  intros Hcdef Hsb Hmod Hn Hrows.
  split; [|split; apply grid_cover].
  destruct n as [|m]; [lia|].
  assert (Hsb1 : 1 <= sb4x4) by lia.
  assert (Hq : sb4x4 = 16 * Z.of_nat (Z.to_nat (sb4x4 / 16))).
  { pose proof (Z.div_mod sb4x4 16 ltac:(lia)).
    assert (0 <= sb4x4 / 16) by (apply Z.div_pos; lia). lia. }
  set (q := Z.to_nat (sb4x4 / 16)) in Hq.
  rewrite cdef_units_filter.
  rewrite FilterScheduleProofs.run_rows_calls, FilterScheduleProofs.frame_calls
    by exact Hsb1.
  destruct (FilterScheduleProofs.schedule_kinds RightShiftWithRounding fl fi
              sb4x4 Hsb1 m) as (_ & H2 & _ & _).
  rewrite H2, Hcdef.
  replace (map (fun k => FilterSchedule.ApplyCdefForOneSuperBlockRow
                           (Z.of_nat k * sb4x4) sb4x4) (seq 0 (S m)))
    with (map (fun ab => FilterSchedule.ApplyCdefForOneSuperBlockRow
                           (16 * Z.of_nat (fst ab)) (16 * Z.of_nat (snd ab)))
            (map (fun k => (k * q, q)%nat) (seq 0 (S m)))).
  2:{ rewrite map_map. apply map_ext. intros k. cbn [fst snd]. f_equal; lia. }
  rewrite cdef_units_rows, LoopRestorationRowsProofs.seq_blocks.
  rewrite filter_rows_prefix.
  - reflexivity.
  - assert (H : ~ (S m * q < num64 (cdef_rows4x4 f))%nat).
    { rewrite num64_lt. lia. }
    lia.
Qed.

End CdefRowsProofs.

Lemma ApplyCdefForOneSuperBlockRow_grid_witness :
  CdefRows.cdef_units (CdefRows.mkCdefFrame 20 40 (fun r c => r + c))
    (fst (FilterSchedule.run_rows (fun v b => v)
            (FilterSchedule.mkFlags true true false true true)
            (FilterSchedule.mkFrameInfo 1 3 80 160 (fun _ => 0) (fun _ => 0))
            0 16 (map (fun k => (Z.of_nat k * 16, Nat.eqb (S k) 2))
                    (seq 0 2))))
  = Some [CdefRows.mkCdefUnit 0 16 16 0 0; CdefRows.mkCdefUnit 1 16 16 0 16;
          CdefRows.mkCdefUnit 2 8 16 0 32; CdefRows.mkCdefUnit 1 16 4 16 0;
          CdefRows.mkCdefUnit 2 16 4 16 16; CdefRows.mkCdefUnit 3 8 4 16 32].
Proof.
  destruct (CdefRowsProofs.ApplyCdefForOneSuperBlockRow_grid
              (fun v b => v) (FilterSchedule.mkFlags true true false true true)
              (FilterSchedule.mkFrameInfo 1 3 80 160 (fun _ => 0) (fun _ => 0))
              (CdefRows.mkCdefFrame 20 40 (fun r c => r + c)) 0 16 2
              eq_refl ltac:(lia) eq_refl ltac:(lia) ltac:(cbn; lia))
    as (H & _).
  rewrite H. reflexivity.
Defined.

Module SuperResRowsProofs.
Import FilterSchedule.
Import SuperResRows.
Import SuperRes.

Lemma seqZ_cons (a n : Z) : 0 < n -> seqZ a n = a :: seqZ (a + 1) (n - 1).
Proof.
  intros Hn. replace (seqZ a n) with (seqZ a (1 + (n - 1))) by (f_equal; lia).
  rewrite <- (SuperResProofs.seqZ_app a 1 (n - 1)) by lia.
  unfold seqZ at 1. change (Z.to_nat 1) with 1%nat. cbn [seq map app].
  rewrite Z.add_0_r. reflexivity.
Qed.

Lemma in_seqZ (a n x : Z) : In x (seqZ a n) -> a <= x < a + n.
Proof.
  unfold seqZ. intros H. apply in_map_iff in H as (k & <- & Hk).
  apply in_seq in Hk. lia.
Qed.

Lemma y_loop_rows (fuel : nat) (plane w H row y : Z) :
  (Z.to_nat (H - y) < fuel)%nat ->
  superres_y_loop fuel plane w H row y
  = map (fun r => mkSuperResRowCall plane r w) (seqZ row (H - y)).
Proof.
  revert row y. induction fuel as [|fuel IH]; intros row y Hf; [lia|].
  cbn [superres_y_loop].
  destruct (y <? H) eqn:E.
  - apply Z.ltb_lt in E. rewrite (seqZ_cons row) by lia.
    rewrite IH by lia. cbn [map]. do 3 f_equal. lia.
  - apply Z.ltb_ge in E. rewrite FilterScheduleProofs.seqZ_nonpos by lia.
    reflexivity.
Qed.

(** The calls [ApplySuperRes] makes for plane [p]. *)
Definition plane_rows (f : SrFrame) (buffers : Z -> Z)
  (rows4x4 chroma_subsampling_y p : Z) : list SuperResRowCall :=
  map (fun r => mkSuperResRowCall p r
                  (Z.shiftr (4 * sr_columns4x4 f) (sr_subsampling_x f p)))
    (seqZ (buffers p)
       (Z.shiftr (4 * rows4x4) (if p =? 0 then 0 else chroma_subsampling_y))).

Lemma plane_loop_planes (fuel : nat) (f : SrFrame) (buffers : Z -> Z)
  (rows4x4 cs q : Z) :
  (Z.to_nat (sr_planes f - q) < fuel)%nat ->
  superres_plane_loop fuel f buffers rows4x4 cs q
  = flat_map (plane_rows f buffers rows4x4 cs) (seqZ q (sr_planes f - q)).
Proof.
  revert q. induction fuel as [|fuel IH]; intros q Hf; [lia|].
  cbn [superres_plane_loop].
  destruct (q <? sr_planes f) eqn:E.
  - apply Z.ltb_lt in E. rewrite (seqZ_cons q) by lia.
    rewrite IH by lia. cbn [flat_map].
    rewrite y_loop_rows by lia. rewrite Z.sub_0_r.
    replace (sr_planes f - (q + 1)) with (sr_planes f - q - 1) by lia.
    reflexivity.
  - apply Z.ltb_ge in E. rewrite FilterScheduleProofs.seqZ_nonpos by lia.
    reflexivity.
Qed.

Lemma ApplySuperRes_planes (f : SrFrame) (buffers : Z -> Z) (rows4x4 cs : Z) :
  ApplySuperRes f buffers rows4x4 cs
  = flat_map (plane_rows f buffers rows4x4 cs) (seqZ 0 (sr_planes f)).
Proof.
  unfold ApplySuperRes. rewrite plane_loop_planes by lia.
  rewrite Z.sub_0_r. reflexivity.
Qed.

Lemma superres_row_calls_filter (f : SrFrame) (calls : list FilterCall) :
  superres_row_calls f calls
  = superres_row_calls f (filter is_superres_call calls).
Proof.
  induction calls as [|c calls IH]; [reflexivity|].
  destruct c; cbn [filter is_superres_call superres_row_calls]; rewrite IH;
    reflexivity.
Qed.

Lemma superres_row_calls_map (f : SrFrame) (sb4x4 : Z) (l : list nat) :
  superres_row_calls f
    (map (fun k => FilterSchedule.ApplySuperResForOneSuperBlockRow
                     (Z.of_nat k * sb4x4) sb4x4) l)
  = flat_map (fun k => ApplySuperResForOneSuperBlockRow f
                         (Z.of_nat k * sb4x4) sb4x4) l.
Proof.
  induction l as [|k l IH]; [reflexivity|]. cbn [map flat_map superres_row_calls].
  rewrite IH. reflexivity.
Qed.

Lemma filter_flat_map {A B : Type} (P : B -> bool) (g : A -> list B)
  (l : list A) :
  filter P (flat_map g l) = flat_map (fun x => filter P (g x)) l.
Proof.
  induction l as [|x l IH]; [reflexivity|]. cbn [flat_map].
  rewrite filter_app, IH. reflexivity.
Qed.

Lemma flat_map_pick {B : Type} (g : Z -> list B) (a : Z) (N : nat) (p : Z) :
  flat_map (fun k => if a + Z.of_nat k =? p then g p else []) (seq 0 N)
  = if (a <=? p) && (p <? a + Z.of_nat N) then g p else [].
Proof.
  induction N as [|N IH].
  - cbn [seq flat_map].
    destruct (a <=? p) eqn:E1, (p <? a + Z.of_nat 0) eqn:E2; cbn;
      try reflexivity.
    apply Z.leb_le in E1. apply Z.ltb_lt in E2. lia.
  - rewrite seq_S, flat_map_app, IH. cbn [flat_map plus].
    rewrite app_nil_r.
    destruct (a + Z.of_nat N =? p) eqn:E1.
    + apply Z.eqb_eq in E1.
      replace (a <=? p) with true by (symmetry; apply Z.leb_le; lia).
      replace (p <? a + Z.of_nat N) with false
        by (symmetry; apply Z.ltb_ge; lia).
      replace (p <? a + Z.of_nat (S N)) with true
        by (symmetry; apply Z.ltb_lt; lia).
      reflexivity.
    + apply Z.eqb_neq in E1. rewrite app_nil_r.
      replace (p <? a + Z.of_nat (S N)) with (p <? a + Z.of_nat N);
        [reflexivity|].
      destruct (p <? a + Z.of_nat N) eqn:E2; symmetry.
      * apply Z.ltb_lt in E2. apply Z.ltb_lt. lia.
      * apply Z.ltb_ge in E2. apply Z.ltb_ge. lia.
Qed.

Lemma shiftr4 (s x : Z) : 0 <= s <= 2 -> Z.shiftr (4 * x) s = 2 ^ (2 - s) * x.
Proof.
  intros Hs. rewrite Z.shiftr_div_pow2 by lia.
  assert (H : s = 0 \/ s = 1 \/ s = 2) by lia.
  destruct H as [ -> | [ -> | -> ] ].
  - change (2 ^ 0) with 1. change (2 ^ (2 - 0)) with 4. apply Z.div_1_r.
  - change (2 ^ 1) with 2. change (2 ^ (2 - 1)) with 2.
    replace (4 * x) with (2 * x * 2) by lia. apply Z.div_mul. lia.
  - change (2 ^ 2) with 4. change (2 ^ (2 - 2)) with 1.
    rewrite Z.mul_comm, Z.div_mul by lia. lia.
Qed.

Lemma sb_row_tiling (e sb R : Z) (N : nat) :
  0 < e -> 0 <= sb ->
  flat_map (fun k => seqZ (e * (Z.of_nat k * sb))
                       (e * Z.min sb (R - Z.of_nat k * sb))) (seq 0 N)
  = seqZ 0 (e * Z.min (Z.of_nat N * sb) R).
Proof.
  intros He Hsb. induction N as [|N IH].
  - cbn [seq flat_map]. destruct (Z.le_gt_cases R 0).
    + rewrite FilterScheduleProofs.seqZ_nonpos by nia. reflexivity.
    + rewrite Z.min_l by lia.
      replace (e * (Z.of_nat 0 * sb)) with 0 by lia. reflexivity.
  - rewrite seq_S, flat_map_app, IH. cbn [flat_map plus]. rewrite app_nil_r.
    destruct (Z.le_gt_cases R (Z.of_nat N * sb)) as [H|H].
    + rewrite (FilterScheduleProofs.seqZ_nonpos (e * (Z.of_nat N * sb))
                 (e * Z.min sb (R - Z.of_nat N * sb))) by nia.
      rewrite app_nil_r, !Z.min_r by nia. reflexivity.
    + rewrite Z.min_l by lia.
      replace (e * (Z.of_nat N * sb)) with (0 + e * (Z.of_nat N * sb)) at 2
        by lia.
      rewrite SuperResProofs.seqZ_app by nia. f_equal.
      rewrite <- Z.mul_add_distr_l. f_equal. lia.
Qed.

(** Over the [n] calls of [PostFilter::ApplyFilteringForOneSuperBlockRow]
    for a frame with super-resolution on, the [super_res_row] calls of
    [ApplySuperResForOneSuperBlockRow] name only planes
    [0 .. planes_ - 1], and for each plane they upscale its rows
    [0 .. (4 * rows4x4 >> subsampling_y) - 1] once each, top to bottom,
    with the plane's width [4 * columns4x4 >> subsampling_x]. This holds
    when luma is not subsampled, every chroma plane has the vertical
    subsampling of plane U, and that subsampling is at most 2. *)
Theorem ApplySuperResForOneSuperBlockRow_rows
  (RightShiftWithRounding : Z -> Z -> Z) (fl : Flags) (fi : FrameInfo)
  (f : SrFrame) (progress_row sb4x4 : Z) (n : nat) :
  DoSuperRes fl = true -> 1 <= sb4x4 -> (1 <= n)%nat ->
  sr_rows4x4 f <= Z.of_nat n * sb4x4 ->
  (forall p, 0 <= p < sr_planes f ->
     sr_subsampling_y f p = if p =? 0 then 0 else sr_subsampling_y f 1) ->
  0 <= sr_subsampling_y f 1 <= 2 ->
  let calls :=
    superres_row_calls f
      (fst (run_rows RightShiftWithRounding fl fi progress_row sb4x4
              (map (fun k => (Z.of_nat k * sb4x4, Nat.eqb (S k) n))
                 (seq 0 n)))) in
  Forall (fun c => 0 <= srr_plane c < sr_planes f) calls
  /\ forall p, 0 <= p < sr_planes f ->
     map srr_row (filter (fun c => srr_plane c =? p) calls)
     = seqZ 0 (Z.shiftr (4 * sr_rows4x4 f) (sr_subsampling_y f p))
     /\ Forall (fun c => srr_width c
                         = Z.shiftr (4 * sr_columns4x4 f) (sr_subsampling_x f p))
          (filter (fun c => srr_plane c =? p) calls).
Proof.
  intros Hsr Hsb Hn Hrows Hss Hs1 calls.
  destruct n as [|m]; [lia|].
  assert (Hcalls : calls
    = flat_map (fun k => flat_map
                  (plane_rows f (fun p => Z.shiftr (4 * (Z.of_nat k * sb4x4))
                                            (sr_subsampling_y f p))
                     (Z.min sb4x4 (sr_rows4x4 f - Z.of_nat k * sb4x4))
                     (sr_subsampling_y f 1))
                  (seqZ 0 (sr_planes f)))
        (seq 0 (S m))).
  { subst calls. rewrite superres_row_calls_filter.
    rewrite FilterScheduleProofs.run_rows_calls,
      FilterScheduleProofs.frame_calls by exact Hsb.
    destruct (FilterScheduleProofs.schedule_kinds RightShiftWithRounding fl fi
                sb4x4 Hsb m) as (_ & _ & H3 & _).
    rewrite H3, Hsr, superres_row_calls_map.
    apply flat_map_ext. intros k. apply ApplySuperRes_planes. }
  clearbody calls. subst calls. split.
  - apply Forall_forall. intros c Hc.
    apply in_flat_map in Hc as (k & _ & Hc).
    apply in_flat_map in Hc as (p & Hp & Hc).
    apply in_seqZ in Hp. unfold plane_rows in Hc.
    apply in_map_iff in Hc as (r & <- & _). cbn. lia.
  - intros p Hp.
    rewrite filter_flat_map.
    assert (Hpick : forall k, filter (fun c => srr_plane c =? p)
      (flat_map (plane_rows f (fun p => Z.shiftr (4 * (Z.of_nat k * sb4x4))
                                          (sr_subsampling_y f p))
                   (Z.min sb4x4 (sr_rows4x4 f - Z.of_nat k * sb4x4))
                   (sr_subsampling_y f 1))
         (seqZ 0 (sr_planes f)))
      = plane_rows f (fun p => Z.shiftr (4 * (Z.of_nat k * sb4x4))
                                 (sr_subsampling_y f p))
          (Z.min sb4x4 (sr_rows4x4 f - Z.of_nat k * sb4x4))
          (sr_subsampling_y f 1) p).
    { intros k. rewrite filter_flat_map. unfold seqZ at 1.
      rewrite LoopRestorationRowsProofs.flat_map_map'.
      rewrite (flat_map_ext _
                 (fun j => if 0 + Z.of_nat j =? p then
                             plane_rows f (fun p => Z.shiftr (4 * (Z.of_nat k * sb4x4))
                                                      (sr_subsampling_y f p))
                               (Z.min sb4x4 (sr_rows4x4 f - Z.of_nat k * sb4x4))
                               (sr_subsampling_y f 1) p
                           else [])).
      - rewrite flat_map_pick.
        replace ((0 <=? p) && (p <? 0 + Z.of_nat (Z.to_nat (sr_planes f))))
          with true; [reflexivity|].
        symmetry. apply andb_true_iff. split; [apply Z.leb_le | apply Z.ltb_lt];
          lia.
      - intros j. unfold plane_rows.
        destruct (0 + Z.of_nat j =? p) eqn:E.
        + apply Z.eqb_eq in E. rewrite <- E.
          apply LoopRestorationRowsProofs.filter_all_true.
          intros c Hc. apply in_map_iff in Hc as (r & <- & _). cbn.
          apply Z.eqb_refl.
        + apply Z.eqb_neq in E.
          apply LoopRestorationRowsProofs.filter_all_false.
          intros c Hc. apply in_map_iff in Hc as (r & <- & _). cbn.
          apply Z.eqb_neq. exact E. }
    rewrite (flat_map_ext _ _ Hpick).
    assert (Hsp : 0 <= sr_subsampling_y f p <= 2).
    { rewrite (Hss p Hp). destruct (p =? 0); lia. }
    split.
    + unfold plane_rows. rewrite <- LoopRestorationRowsProofs.flat_map_map'.
      rewrite flat_map_concat_map, concat_map, map_map.
      rewrite map_map. rewrite <- flat_map_concat_map.
      rewrite (flat_map_ext _
                 (fun k => seqZ (2 ^ (2 - sr_subsampling_y f p)
                                 * (Z.of_nat k * sb4x4))
                             (2 ^ (2 - sr_subsampling_y f p)
                              * Z.min sb4x4 (sr_rows4x4 f
                                             - Z.of_nat k * sb4x4)))).
      * rewrite sb_row_tiling by (try apply Z.pow_pos_nonneg; lia).
        rewrite Z.min_r by lia. rewrite shiftr4 by exact Hsp. reflexivity.
      * intros k. rewrite map_map. cbn [srr_row]. rewrite map_id.
        rewrite <- (Hss p Hp), !shiftr4 by exact Hsp. reflexivity.
    + apply Forall_forall. intros c Hc.
      apply in_flat_map in Hc as (k & _ & Hc). unfold plane_rows in Hc.
      apply in_map_iff in Hc as (r & <- & _). reflexivity.
Qed.

End SuperResRowsProofs.

Lemma ApplySuperResForOneSuperBlockRow_rows_witness :
  map SuperResRows.srr_row
    (filter (fun c => SuperResRows.srr_plane c =? 1)
       (SuperResRows.superres_row_calls
          (SuperResRows.mkSrFrame 3 5 2 (fun p => if p =? 0 then 0 else 1)
             (fun p => if p =? 0 then 0 else 1))
          (fst (FilterSchedule.run_rows (fun v b => v)
                  (FilterSchedule.mkFlags false false true false false)
                  (FilterSchedule.mkFrameInfo 0 3 20 8 (fun _ => 0) (fun _ => 0))
                  0 4 (map (fun k => (Z.of_nat k * 4, Nat.eqb (S k) 2))
                         (seq 0 2))))))
  = [0; 1; 2; 3; 4; 5; 6; 7; 8; 9].
Proof.
  pose proof (SuperResRowsProofs.ApplySuperResForOneSuperBlockRow_rows
                (fun v b => v)
                (FilterSchedule.mkFlags false false true false false)
                (FilterSchedule.mkFrameInfo 0 3 20 8 (fun _ => 0) (fun _ => 0))
                (SuperResRows.mkSrFrame 3 5 2 (fun p => if p =? 0 then 0 else 1)
                   (fun p => if p =? 0 then 0 else 1))
                0 4 2 eq_refl ltac:(lia) ltac:(lia) ltac:(cbn; lia)
                ltac:(intros p _; reflexivity) ltac:(cbn; lia)) as H.
  cbv zeta in H. destruct H as (_ & H).
  rewrite (proj1 (H 1 ltac:(cbn; lia))). reflexivity.
Defined.

Module CopyBorderRowsProofs.
Import FilterSchedule.
Import CopyBorderRows.

Section Proofs.
Variable RightShiftWithRounding : Z -> Z -> Z.

Lemma copy_border_planes_ge (fuel : nat) (fi : FrameInfo)
  (rows4x4 row4x4 sb4x4 q : Z) (c : CopyBorderCall) :
  In c (copy_border_planes RightShiftWithRounding fuel fi rows4x4 row4x4 sb4x4 q) ->
  q <= cb_plane c.
Proof.
  revert q. induction fuel as [|fuel IH]; intros q Hc; [destruct Hc|].
  cbn [copy_border_planes] in Hc.
  destruct (q <? planes_ fi); [|destruct Hc].
  destruct Hc as [<-|Hc]; [cbn; lia|]. apply IH in Hc. lia.
Qed.

Lemma copy_border_calls_filter (fi : FrameInfo) (rows4x4 : Z)
  (calls : list FilterCall) :
  copy_border_calls RightShiftWithRounding fi rows4x4 calls
  = copy_border_calls RightShiftWithRounding fi rows4x4
      (filter is_copy_border_call calls).
Proof.
  induction calls as [|c calls IH]; [reflexivity|].
  destruct c; cbn [filter is_copy_border_call copy_border_calls]; rewrite IH;
    reflexivity.
Qed.

Lemma copy_border_calls_map (fi : FrameInfo) (rows4x4 sb4x4 : Z)
  (l : list nat) :
  copy_border_calls RightShiftWithRounding fi rows4x4
    (map (fun k => FilterSchedule.CopyBorderForRestoration
                     (Z.of_nat k * sb4x4) sb4x4) l)
  = flat_map (fun k => CopyBorderForRestoration RightShiftWithRounding fi
                         rows4x4 (Z.of_nat k * sb4x4) sb4x4) l.
Proof.
  induction l as [|k l IH]; [reflexivity|].
  cbn [map flat_map copy_border_calls]. rewrite IH. reflexivity.
Qed.

Lemma copy_border_kind (fl : Flags) (fi : FrameInfo) (sb4x4 : Z) (m : nat) :
  1 <= sb4x4 ->
  filter is_copy_border_call
    (flat_map (fun k => fst (fst (ApplyFilteringForOneSuperBlockRow
                                    RightShiftWithRounding fl fi 0
                                    (Z.of_nat k * sb4x4) sb4x4 false)))
       (seq 0 (S m))
     ++ last_row_calls fl (Z.of_nat m * sb4x4) sb4x4)
  = if DoRestoration fl then
      map (fun k => FilterSchedule.CopyBorderForRestoration
                      (Z.of_nat k * sb4x4) sb4x4) (seq 0 (S m))
    else [].
Proof.
  intros Hsb.
  rewrite filter_app, FilterScheduleProofs.prefix_filter.
  rewrite (@flat_map_ext _ _ _
    (fun k => if DoRestoration fl then
                [FilterSchedule.CopyBorderForRestoration
                   (Z.of_nat k * sb4x4) sb4x4] else [])).
  - rewrite FilterScheduleProofs.flat_map_cond, (seq_S m 0), map_app.
    unfold last_row_calls.
    destruct (DoDeblock fl), (DoCdef fl), (DoSuperRes fl), (DoRestoration fl),
      (DoBorderExtensionInLoop fl); reflexivity.
  - intros k. unfold previous_row_calls.
    destruct (DoDeblock fl), (DoCdef fl), (DoSuperRes fl), (DoRestoration fl);
      reflexivity.
  - exact Hsb.
Qed.

Hypothesis Hrsr : forall v, RightShiftWithRounding v 0 = v.

Lemma copy_border_luma (fi : FrameInfo) (rows4x4 row4x4 sb4x4 : Z) :
  subsampling_x_ fi 0 = 0 -> subsampling_y_ fi 0 = 0 -> 1 <= planes_ fi ->
  filter (fun c => cb_plane c =? 0)
    (CopyBorderForRestoration RightShiftWithRounding fi rows4x4 row4x4 sb4x4)
  = [mkCopyBorderCall 0 row4x4 (upscaled_width_ fi)
       (Z.min (4 * sb4x4) (height_ fi - 4 * row4x4)) (4 * row4x4 =? 0)
       (row4x4 + sb4x4 >=? rows4x4)].
Proof.
  intros Hx Hy Hp. unfold CopyBorderForRestoration.
  cbn [copy_border_planes].
  replace (0 <? planes_ fi) with true by (symmetry; apply Z.ltb_lt; lia).
  cbn [filter cb_plane Z.eqb].
  rewrite LoopRestorationRowsProofs.filter_all_false.
  - rewrite Hx, Hy, !Hrsr, Z.shiftr_0_r. reflexivity.
  - intros c Hc. apply copy_border_planes_ge in Hc. apply Z.eqb_neq. lia.
Qed.

End Proofs.

(** Over the [n] calls of [PostFilter::ApplyFilteringForOneSuperBlockRow]
    for a frame ([row4x4 = k * sb4x4], [is_last_row] on the last one) with
    loop restoration on and [frame_header_.rows4x4] in the last superblock
    row, [CopyBorderForRestoration] makes one luma [ExtendFrame] call per
    superblock row [k], at [row4x4 = k * sb4x4], of the full upscaled width
    and [min(4 * sb4x4, height_ - 4 * k * sb4x4)] rows; only the first
    extends the top border and only the last the bottom border, and their
    rows tile the luma rows [0 .. height_ - 1]. *)
Theorem CopyBorderForRestoration_luma_rows
  (RightShiftWithRounding : Z -> Z -> Z) (fl : Flags) (fi : FrameInfo)
  (rows4x4 progress_row sb4x4 : Z) (n : nat) :
  (forall v, RightShiftWithRounding v 0 = v) ->
  subsampling_x_ fi 0 = 0 -> subsampling_y_ fi 0 = 0 -> 1 <= planes_ fi ->
  DoRestoration fl = true -> 1 <= sb4x4 -> (1 <= n)%nat ->
  Z.of_nat (n - 1) * sb4x4 < rows4x4 <= Z.of_nat n * sb4x4 ->
  height_ fi <= 4 * (Z.of_nat n * sb4x4) ->
  let calls :=
    copy_border_calls RightShiftWithRounding fi rows4x4
      (fst (run_rows RightShiftWithRounding fl fi progress_row sb4x4
              (map (fun k => (Z.of_nat k * sb4x4, Nat.eqb (S k) n))
                 (seq 0 n)))) in
  filter (fun c => cb_plane c =? 0) calls
  = map (fun k => mkCopyBorderCall 0 (Z.of_nat k * sb4x4) (upscaled_width_ fi)
                    (Z.min (4 * sb4x4) (height_ fi - 4 * (Z.of_nat k * sb4x4)))
                    (Nat.eqb k 0) (Nat.eqb (S k) n))
      (seq 0 n)
  /\ flat_map (fun c => SuperRes.seqZ (4 * cb_row4x4 c) (cb_height c))
       (filter (fun c => cb_plane c =? 0) calls)
     = SuperRes.seqZ 0 (height_ fi).
Proof.
  intros Hrsr Hx Hy Hp Hlr Hsb Hn Hrows Hh calls.
  assert (Hluma : filter (fun c => cb_plane c =? 0) calls
    = map (fun k => mkCopyBorderCall 0 (Z.of_nat k * sb4x4) (upscaled_width_ fi)
                      (Z.min (4 * sb4x4) (height_ fi - 4 * (Z.of_nat k * sb4x4)))
                      (Nat.eqb k 0) (Nat.eqb (S k) n))
        (seq 0 n)).
  { subst calls. destruct n as [|m]; [lia|].
    rewrite copy_border_calls_filter.
    rewrite FilterScheduleProofs.run_rows_calls,
      FilterScheduleProofs.frame_calls by exact Hsb.
    rewrite copy_border_kind, Hlr, copy_border_calls_map by exact Hsb.
    rewrite SuperResRowsProofs.filter_flat_map.
    rewrite (flat_map_ext _ _
               (fun k => copy_border_luma RightShiftWithRounding Hrsr fi rows4x4
                           (Z.of_nat k * sb4x4) sb4x4 Hx Hy Hp)).
    replace (S m - 1)%nat with m in Hrows by lia.
    transitivity
      (map (fun k => mkCopyBorderCall 0 (Z.of_nat k * sb4x4) (upscaled_width_ fi)
                       (Z.min (4 * sb4x4) (height_ fi - 4 * (Z.of_nat k * sb4x4)))
                       (4 * (Z.of_nat k * sb4x4) =? 0)
                       (Z.of_nat k * sb4x4 + sb4x4 >=? rows4x4))
         (seq 0 (S m))).
    { induction (seq 0 (S m)) as [|k l IH]; [reflexivity|].
      cbn [flat_map map app]. rewrite IH. reflexivity. }
    apply map_ext_in. intros k Hk. apply in_seq in Hk. f_equal.
    - destruct k as [|k]; [reflexivity|]. cbn [Nat.eqb].
      apply Z.eqb_neq. nia.
    - destruct (Nat.eq_dec k m) as [->|Hne].
      + rewrite Nat.eqb_refl. apply Z.geb_le. nia.
      + replace (Nat.eqb (S k) (S m)) with false
          by (symmetry; apply Nat.eqb_neq; lia).
        rewrite Z.geb_leb. apply Z.leb_gt. nia. }
  split; [exact Hluma|].
  rewrite Hluma, LoopRestorationRowsProofs.flat_map_map'. cbn [cb_row4x4 cb_height].
  rewrite (flat_map_ext _
             (fun k => SuperRes.seqZ (1 * (Z.of_nat k * (4 * sb4x4)))
                         (1 * Z.min (4 * sb4x4)
                                (height_ fi - Z.of_nat k * (4 * sb4x4))))).
  - rewrite SuperResRowsProofs.sb_row_tiling by lia.
    rewrite Z.min_r by lia. f_equal. lia.
  - intros k. f_equal; lia.
Qed.

End CopyBorderRowsProofs.

Lemma CopyBorderForRestoration_luma_rows_witness :
  filter (fun c => CopyBorderRows.cb_plane c =? 0)
    (CopyBorderRows.copy_border_calls
       (fun v b => Z.shiftr (v + Z.shiftr (Z.shiftl 1 b) 1) b)
       (FilterSchedule.mkFrameInfo 1 3 20 40 (fun p => if p =? 0 then 0 else 1)
          (fun p => if p =? 0 then 0 else 1)) 5
       (fst (FilterSchedule.run_rows
               (fun v b => Z.shiftr (v + Z.shiftr (Z.shiftl 1 b) 1) b)
               (FilterSchedule.mkFlags true true false true true)
               (FilterSchedule.mkFrameInfo 1 3 20 40
                  (fun p => if p =? 0 then 0 else 1)
                  (fun p => if p =? 0 then 0 else 1))
               0 4 (map (fun k => (Z.of_nat k * 4, Nat.eqb (S k) 2))
                      (seq 0 2)))))
  = [CopyBorderRows.mkCopyBorderCall 0 0 40 16 true false;
     CopyBorderRows.mkCopyBorderCall 0 4 40 4 false true].
Proof.
  destruct (CopyBorderRowsProofs.CopyBorderForRestoration_luma_rows
              (fun v b => Z.shiftr (v + Z.shiftr (Z.shiftl 1 b) 1) b)
              (FilterSchedule.mkFlags true true false true true)
              (FilterSchedule.mkFrameInfo 1 3 20 40
                 (fun p => if p =? 0 then 0 else 1)
                 (fun p => if p =? 0 then 0 else 1))
              5 0 4 2
              ltac:(intros v; cbv beta; rewrite Z.shiftr_0_r;
                    change (Z.shiftr (Z.shiftl 1 0) 1) with 0; lia)
              eq_refl eq_refl ltac:(cbn; lia) eq_refl ltac:(lia) ltac:(lia)
              ltac:(cbn; lia) ltac:(cbn; lia)) as (H & _).
  rewrite H. reflexivity.
Defined.

Module DeblockThreadedProofs.
Import DeblockThreaded.

Lemma dt_set_worker_split (ws : list WorkerState) (w : nat) (y x : WorkerState) :
  nth_error ws w = Some y ->
  exists l1 l2, ws = l1 ++ y :: l2 /\ set_worker ws w x = l1 ++ x :: l2.
Proof.
  revert w. induction ws as [|z ws IH]; intros w Hw; [destruct w; discriminate|].
  destruct w as [|w]; cbn in Hw |- *.
  - injection Hw as ->. exists [], ws. split; reflexivity.
  - destruct (IH w Hw) as (l1 & l2 & -> & ->). exists (z :: l1), l2.
    split; reflexivity.
Qed.

Lemma dt_set_worker_length (ws : list WorkerState) (w : nat) (x : WorkerState) :
  length (set_worker ws w x) = length ws.
Proof.
  revert w. induction ws as [|z ws IH]; intros w; [destruct w; reflexivity|].
  destruct w; cbn; [reflexivity|]. rewrite IH. reflexivity.
Qed.

Lemma dt_flat_map_ext_in {A B : Type} (g h : A -> list B) (l : list A) :
  (forall x, In x l -> g x = h x) -> flat_map g l = flat_map h l.
Proof.
  induction l as [|x l IH]; intros H; [reflexivity|]. cbn [flat_map].
  rewrite H by (left; reflexivity). rewrite IH; [reflexivity|].
  intros y Hy. apply H. right. exact Hy.
Qed.

Lemma dt_flat_map_flat_map {A B C : Type} (g : B -> list C) (h : A -> list B)
  (l : list A) :
  flat_map g (flat_map h l) = flat_map (fun x => flat_map g (h x)) l.
Proof.
  induction l as [|x l IH]; [reflexivity|]. cbn [flat_map].
  rewrite flat_map_app, IH. reflexivity.
Qed.

Lemma dt_seq_offset (a n : nat) : seq a n = map (fun u => (a + u)%nat) (seq 0 n).
Proof.
  revert a. induction n as [|n IH]; intros a; [reflexivity|].
  cbn [seq map]. rewrite IH, (IH 1%nat), map_map. f_equal; [lia|].
  apply map_ext. intros u. lia.
Qed.

Lemma dt_flat_map_nth_seq {B : Type} (F : Z -> list B) (l : list Z) :
  flat_map (fun k => F (nth k l 0)) (seq 0 (length l)) = flat_map F l.
Proof.
  induction l as [|x l IH]; [reflexivity|].
  cbn [length seq flat_map nth]. f_equal.
  rewrite <- seq_shift, LoopRestorationRowsProofs.flat_map_map'. exact IH.
Qed.

Lemma dt_quot_rem (k u jpp : Z) :
  0 <= k -> 0 <= u < jpp ->
  Z.quot (k * jpp + u) jpp = k /\ Z.rem (k * jpp + u) jpp = u.
Proof.
  intros Hk Hu.
  rewrite Z.quot_div_nonneg, Z.rem_mod_nonneg by nia. split.
  - symmetry. apply (Z.div_unique_pos _ _ _ u); lia.
  - symmetry. apply (Z.mod_unique_pos _ _ k); lia.
Qed.

Section Proofs.
Variable kNum4x4InLoopFilterMaskUnit : Z.
Variable GetDeblockUnitId : Z -> Z -> Z.
Hypothesis HK : 1 <= kNum4x4InLoopFilterMaskUnit.
Variables (type : LoopFilterType) (f : DtFrame).

Lemma dt_ceil_div (c : Z) :
  0 <= c ->
  (c * kNum4x4InLoopFilterMaskUnit < dt_columns4x4 f
   <-> (Z.of_nat (Z.to_nat c) < Z.of_nat (num_column_units kNum4x4InLoopFilterMaskUnit f))%Z).
Proof.
  intros Hc. unfold num_column_units.
  set (K := kNum4x4InLoopFilterMaskUnit). set (W := dt_columns4x4 f).
  pose proof (Z.div_mod (W + K - 1) K ltac:(lia)) as E.
  pose proof (Z.mod_pos_bound (W + K - 1) K ltac:(lia)) as B.
  set (q := (W + K - 1) / K) in *. set (r := (W + K - 1) mod K) in *.
  rewrite Z2Nat.id by exact Hc.
  split; intros H.
  - assert (Hq : c < q) by nia. lia.
  - assert (Hq : c < q) by lia. nia.
Qed.

Lemma dt_pending_step (plane row_unit row4x4 column_unit : Z) :
  0 <= column_unit ->
  column_unit * kNum4x4InLoopFilterMaskUnit < dt_columns4x4 f ->
  pending_calls kNum4x4InLoopFilterMaskUnit GetDeblockUnitId type f
    (WorkerInJob plane row_unit row4x4
       (column_unit * kNum4x4InLoopFilterMaskUnit) column_unit)
  = mkDeblockCall type plane row4x4 (column_unit * kNum4x4InLoopFilterMaskUnit)
      (GetDeblockUnitId row_unit column_unit)
    :: pending_calls kNum4x4InLoopFilterMaskUnit GetDeblockUnitId type f
         (WorkerInJob plane row_unit row4x4
            (column_unit * kNum4x4InLoopFilterMaskUnit
             + kNum4x4InLoopFilterMaskUnit) (column_unit + 1)).
Proof.
  intros Hc Hlt. apply dt_ceil_div in Hlt; [|exact Hc].
  cbn [pending_calls].
  set (N := num_column_units kNum4x4InLoopFilterMaskUnit f) in *.
  replace (N - Z.to_nat column_unit)%nat
    with (S (N - Z.to_nat (column_unit + 1))) by lia.
  cbn [seq map]. rewrite Z2Nat.id by exact Hc.
  replace (Z.to_nat (column_unit + 1)) with (S (Z.to_nat column_unit)) by lia.
  reflexivity.
Qed.

Lemma dt_pending_done (plane row_unit row4x4 column_unit : Z) :
  0 <= column_unit ->
  dt_columns4x4 f <= column_unit * kNum4x4InLoopFilterMaskUnit ->
  pending_calls kNum4x4InLoopFilterMaskUnit GetDeblockUnitId type f
    (WorkerInJob plane row_unit row4x4
       (column_unit * kNum4x4InLoopFilterMaskUnit) column_unit) = [].
Proof.
  intros Hc Hge. cbn [pending_calls].
  assert (H : ~ (Z.of_nat (Z.to_nat column_unit)
                 < Z.of_nat (num_column_units kNum4x4InLoopFilterMaskUnit f))%Z).
  { rewrite <- dt_ceil_div by exact Hc. lia. }
  replace (num_column_units kNum4x4InLoopFilterMaskUnit f - Z.to_nat column_unit)%nat
    with 0%nat by lia.
  reflexivity.
Qed.

Variables (planes : list Z) (jobs_per_plane : Z).

Local Abbreviation inv :=
  (pass_invariant kNum4x4InLoopFilterMaskUnit GetDeblockUnitId type f planes
     jobs_per_plane).
Local Abbreviation step :=
  (worker_step kNum4x4InLoopFilterMaskUnit GetDeblockUnitId type f planes
     jobs_per_plane).
Local Abbreviation pending :=
  (pending_calls kNum4x4InLoopFilterMaskUnit GetDeblockUnitId type f).

Lemma dt_step_length (w : nat) (s : Shared) :
  length (workers (step w s)) = length (workers s).
Proof.
  unfold worker_step.
  destruct (nth_error (workers s) w) as [[| p ru r4 col cu |]|]; try reflexivity.
  - destruct (_ <? _); cbn [workers]; apply dt_set_worker_length.
  - destruct (_ <? _); cbn [workers]; apply dt_set_worker_length.
Qed.

Lemma dt_step_inv (w : nat) (s : Shared) : inv s -> inv (step w s).
Proof.
  intros (H0 & HF & HE & HP). unfold worker_step. cbv zeta.
  destruct (nth_error (workers s) w) as [y|] eqn:Hy;
    [|exact (conj H0 (conj HF (conj HE HP)))].
  set (total := jobs_per_plane * Z.of_nat (length planes)) in *.
  destruct y as [| p ru r4 col cu |];
    [| |exact (conj H0 (conj HF (conj HE HP)))].
  - (* the [fetch_add] of the [while] condition *)
    destruct (job_counter s <? total) eqn:Ej.
    + apply Z.ltb_lt in Ej.
      destruct (dt_set_worker_split (workers s) w WorkerIdle
                  (WorkerInJob (nth (Z.to_nat (Z.quot (job_counter s) jobs_per_plane))
                                  planes 0)
                     (Z.rem (job_counter s) jobs_per_plane)
                     (Z.rem (job_counter s) jobs_per_plane
                      * kNum4x4InLoopFilterMaskUnit) 0 0) Hy)
        as (l1 & l2 & Hws & Hset).
      rewrite Hset. unfold pass_invariant. cbn [job_counter workers calls_log].
      rewrite Hws in HF, HE, HP. split; [lia|]. split; [|split].
      * apply Forall_app in HF as [HF1 HF2]. inversion HF2; subst.
        apply Forall_app. split; [exact HF1|]. constructor; [|assumption].
        split; [reflexivity|]. split; lia.
      * intros Hin. apply in_app_or in Hin as [Hin|[Hin|Hin]];
          [|discriminate|];
          (assert (total <= job_counter s)
             by (apply HE; apply in_or_app; (left; exact Hin) || (right; right; exact Hin)));
          lia.
      * rewrite Z.min_l by lia. rewrite Z.min_l in HP by lia.
        replace (Z.to_nat (job_counter s + 1)) with (S (Z.to_nat (job_counter s)))
          by lia.
        rewrite seq_S, !flat_map_app. rewrite flat_map_app in HP.
        cbn [flat_map plus pending_calls app] in HP |- *. rewrite ?app_nil_r.
        rewrite Z2Nat.id by exact H0. unfold job_calls at 2.
        eapply Permutation_trans; [|apply Permutation_app_tail; exact HP].
        rewrite <- !app_assoc. apply Permutation_app_head.
        apply Permutation_app_head. apply Permutation_app_comm.
    + rewrite Z.ltb_ge in Ej.
      destruct (dt_set_worker_split (workers s) w WorkerIdle WorkerExited Hy)
        as (l1 & l2 & Hws & Hset).
      rewrite Hset. unfold pass_invariant. cbn [job_counter workers calls_log].
      rewrite Hws in HF, HE, HP. split; [lia|]. split; [|split].
      * apply Forall_app in HF as [HF1 HF2]. inversion HF2; subst.
        apply Forall_app. split; [exact HF1|]. constructor; [exact I|assumption].
      * intros _. lia.
      * rewrite Z.min_r by lia. rewrite Z.min_r in HP by lia.
        rewrite flat_map_app in HP |- *. exact HP.
  - (* one iteration of the column loop, or its exit *)
    destruct (dt_set_worker_split (workers s) w
                (WorkerInJob p ru r4 col cu) WorkerIdle Hy) as (l1 & l2 & Hws & _).
    assert (Hloc : r4 = ru * kNum4x4InLoopFilterMaskUnit
                   /\ col = cu * kNum4x4InLoopFilterMaskUnit /\ 0 <= cu).
    { rewrite Hws in HF. apply Forall_app in HF as [_ HF2].
      inversion HF2; subst. assumption. }
    destruct Hloc as (Hr4 & Hcol & Hcu).
    destruct (col <? dt_columns4x4 f) eqn:Ec.
    + apply Z.ltb_lt in Ec.
      destruct (dt_set_worker_split (workers s) w (WorkerInJob p ru r4 col cu)
                  (WorkerInJob p ru r4 (col + kNum4x4InLoopFilterMaskUnit)
                     (cu + 1)) Hy) as (l1' & l2' & Hws' & Hset).
      rewrite Hset. unfold pass_invariant. cbn [job_counter workers calls_log].
      rewrite Hws' in HF, HE, HP. split; [exact H0|]. split; [|split].
      * apply Forall_app in HF as [HF1 HF2]. inversion HF2; subst.
        apply Forall_app. split; [exact HF1|]. constructor; [|assumption].
        split; [reflexivity|]. split; lia.
      * intros Hin. apply HE. apply in_app_or in Hin as [Hin|[Hin|Hin]];
          [apply in_or_app; left; exact Hin|discriminate
          |apply in_or_app; right; right; exact Hin].
      * rewrite flat_map_app in HP |- *. cbn [flat_map] in HP |- *.
        subst col. rewrite dt_pending_step in HP by assumption.
        eapply Permutation_trans; [|exact HP].
        rewrite <- !app_assoc. apply Permutation_app_head. cbn [app].
        apply Permutation_middle.
    + apply Z.ltb_ge in Ec.
      destruct (dt_set_worker_split (workers s) w (WorkerInJob p ru r4 col cu)
                  WorkerIdle Hy) as (l1' & l2' & Hws' & Hset).
      rewrite Hset. unfold pass_invariant. cbn [job_counter workers calls_log].
      rewrite Hws' in HF, HE, HP. split; [exact H0|]. split; [|split].
      * apply Forall_app in HF as [HF1 HF2]. inversion HF2; subst.
        apply Forall_app. split; [exact HF1|]. constructor; [exact I|assumption].
      * intros Hin. apply HE. apply in_app_or in Hin as [Hin|[Hin|Hin]];
          [apply in_or_app; left; exact Hin|discriminate
          |apply in_or_app; right; right; exact Hin].
      * rewrite flat_map_app in HP |- *. cbn [flat_map] in HP |- *.
        subst col. rewrite dt_pending_done in HP by assumption. exact HP.
Qed.

Lemma dt_run_inv (schedule : list nat) (s : Shared) :
  inv s ->
  inv (run_schedule kNum4x4InLoopFilterMaskUnit GetDeblockUnitId type f planes
         jobs_per_plane schedule s).
Proof.
  unfold run_schedule. revert s.
  induction schedule as [|w schedule IH]; intros s Hs; [exact Hs|].
  cbn [fold_left]. apply IH, dt_step_inv, Hs.
Qed.

Lemma dt_run_length (schedule : list nat) (s : Shared) :
  length (workers (run_schedule kNum4x4InLoopFilterMaskUnit GetDeblockUnitId
                     type f planes jobs_per_plane schedule s))
  = length (workers s).
Proof.
  unfold run_schedule. revert s.
  induction schedule as [|w schedule IH]; intros s; [reflexivity|].
  cbn [fold_left]. rewrite IH. apply dt_step_length.
Qed.

Lemma dt_init_inv (n : nat) : inv (mkShared 0 (repeat WorkerIdle n) []).
Proof.
  unfold pass_invariant. cbn [job_counter workers calls_log].
  split; [lia|]. split; [|split].
  - apply Forall_forall. intros x Hx. apply repeat_spec in Hx. subst x. exact I.
  - intros Hx. apply repeat_spec in Hx. discriminate.
  - replace (flat_map pending (repeat WorkerIdle n)) with (@nil DeblockCall).
    + destruct (Z.le_gt_cases (jobs_per_plane * Z.of_nat (length planes)) 0).
      * rewrite Z.min_r by assumption.
        replace (Z.to_nat (jobs_per_plane * Z.of_nat (length planes))) with 0%nat
          by lia.
        apply Permutation_refl.
      * rewrite Z.min_l by lia. apply Permutation_refl.
    + induction n as [|n IH]; [reflexivity|]. exact IH.
Qed.

Lemma dt_complete (schedule : list nat) (n : nat) :
  let s := run_schedule kNum4x4InLoopFilterMaskUnit GetDeblockUnitId type f
             planes jobs_per_plane schedule
             (mkShared 0 (repeat WorkerIdle (S n)) []) in
  all_exited (workers s) = true ->
  Permutation (calls_log s)
    (flat_map (fun j => job_calls kNum4x4InLoopFilterMaskUnit GetDeblockUnitId
                          type f planes jobs_per_plane (Z.of_nat j))
       (seq 0 (Z.to_nat (jobs_per_plane * Z.of_nat (length planes))))).
Proof.
  intros s Hall.
  pose proof (dt_run_inv schedule _ (dt_init_inv (S n))) as (H0 & _ & HE & HP).
  pose proof (dt_run_length schedule (mkShared 0 (repeat WorkerIdle (S n)) []))
    as Hlen.
  fold s in H0, HE, HP, Hlen. cbn [workers] in Hlen. rewrite repeat_length in Hlen.
  assert (Hnil : flat_map pending (workers s) = []).
  { clear - Hall. induction (workers s) as [|x l IH]; [reflexivity|].
    destruct x; try discriminate. exact (IH Hall). }
  assert (Hin : In WorkerExited (workers s)).
  { clear - Hall Hlen. destruct (workers s) as [|x l]; [discriminate|].
    destruct x; try discriminate. left. reflexivity. }
  specialize (HE Hin). rewrite Hnil, app_nil_r, Z.min_r in HP by exact HE.
  exact HP.
Qed.

Lemma dt_jobs_listing :
  flat_map (fun j => job_calls kNum4x4InLoopFilterMaskUnit GetDeblockUnitId type
                       f planes jobs_per_plane (Z.of_nat j))
    (seq 0 (Z.to_nat (jobs_per_plane * Z.of_nat (length planes))))
  = flat_map (fun plane =>
      flat_map (fun u =>
        map (fun c => mkDeblockCall type plane
                        (Z.of_nat u * kNum4x4InLoopFilterMaskUnit)
                        (Z.of_nat c * kNum4x4InLoopFilterMaskUnit)
                        (GetDeblockUnitId (Z.of_nat u) (Z.of_nat c)))
          (seq 0 (num_column_units kNum4x4InLoopFilterMaskUnit f)))
        (seq 0 (Z.to_nat jobs_per_plane)))
      planes.
Proof.
  destruct (Z.le_gt_cases jobs_per_plane 0) as [Hj|Hj].
  - replace (Z.to_nat (jobs_per_plane * Z.of_nat (length planes))) with 0%nat
      by nia.
    replace (Z.to_nat jobs_per_plane) with 0%nat by lia.
    cbn [seq flat_map]. induction planes as [|x l IH]; [reflexivity|].
    exact IH.
  - replace (Z.to_nat (jobs_per_plane * Z.of_nat (length planes)))
      with (length planes * Z.to_nat jobs_per_plane)%nat by nia.
    rewrite <- LoopRestorationRowsProofs.seq_blocks, dt_flat_map_flat_map,
      LoopRestorationRowsProofs.flat_map_map'.
    cbn [fst snd].
    rewrite <- (dt_flat_map_nth_seq _ planes).
    apply dt_flat_map_ext_in. intros k Hk. apply in_seq in Hk.
    rewrite dt_seq_offset, LoopRestorationRowsProofs.flat_map_map'.
    apply dt_flat_map_ext_in. intros u Hu. apply in_seq in Hu.
    unfold job_calls, pending_calls.
    replace (Z.of_nat (k * Z.to_nat jobs_per_plane + u))
      with (Z.of_nat k * jobs_per_plane + Z.of_nat u) by lia.
    destruct (dt_quot_rem (Z.of_nat k) (Z.of_nat u) jobs_per_plane
                ltac:(lia) ltac:(lia)) as [Hq Hr].
    rewrite Hq, Hr, Nat2Z.id. cbn [Z.to_nat]. rewrite Nat.sub_0_r.
    reflexivity.
Qed.

End Proofs.

Lemma dt_pass_perm (kNum4x4InLoopFilterMaskUnit : Z)
  (GetDeblockUnitId : Z -> Z -> Z) (type : LoopFilterType) (f : DtFrame)
  (num_workers : Z) (schedule : list nat) (calls : list DeblockCall) :
  1 <= kNum4x4InLoopFilterMaskUnit ->
  deblock_pass kNum4x4InLoopFilterMaskUnit GetDeblockUnitId type f num_workers
    schedule = Some calls ->
  Permutation calls
    (deblock_calls kNum4x4InLoopFilterMaskUnit GetDeblockUnitId type f).
Proof.
  intros HK Hp. unfold deblock_pass in Hp.
  destruct (all_exited _) eqn:Hall; [|discriminate].
  injection Hp as <-.
  eapply Permutation_trans; [apply dt_complete; [exact HK|exact Hall]|].
  rewrite dt_jobs_listing by exact HK. apply Permutation_refl.
Qed.

(** In every interleaving of the pool threads and the current thread that
    lets [PostFilter::ApplyDeblockFilterThreaded] return, the filter calls
    are all the vertical ones, then all the horizontal ones; each pass
    makes exactly one call for each plane of [planes] (luma, then each
    chroma plane with a non-zero loop filter level), each row unit
    [0 .. DivideBy16(rows4x4 + 15) - 1] and each column unit of the
    frame, with [row4x4] and [column4x4] those units times
    [kNum4x4InLoopFilterMaskUnit], in some order. *)
Theorem ApplyDeblockFilterThreaded_each_unit_once
  (kNum4x4InLoopFilterMaskUnit : Z) (GetDeblockUnitId : Z -> Z -> Z)
  (f : DtFrame) (num_workers : Z)
  (schedule_vertical schedule_horizontal : list nat)
  (calls : list DeblockCall) :
  1 <= kNum4x4InLoopFilterMaskUnit ->
  ApplyDeblockFilterThreaded kNum4x4InLoopFilterMaskUnit GetDeblockUnitId f
    num_workers schedule_vertical schedule_horizontal = Some calls ->
  exists vertical horizontal,
    calls = vertical ++ horizontal
    /\ Permutation vertical
         (deblock_calls kNum4x4InLoopFilterMaskUnit GetDeblockUnitId
            kLoopFilterTypeVertical f)
    /\ Permutation horizontal
         (deblock_calls kNum4x4InLoopFilterMaskUnit GetDeblockUnitId
            kLoopFilterTypeHorizontal f).
Proof.
  intros HK H. unfold ApplyDeblockFilterThreaded in H.
  destruct (deblock_pass _ _ kLoopFilterTypeVertical _ _ _) as [lv|] eqn:Ev;
    [|discriminate].
  destruct (deblock_pass _ _ kLoopFilterTypeHorizontal _ _ _) as [lh|] eqn:Eh;
    [|discriminate].
  injection H as <-. exists lv, lh. split; [reflexivity|].
  split; eapply dt_pass_perm; eassumption.
Qed.

End DeblockThreadedProofs.

Lemma ApplyDeblockFilterThreaded_each_unit_once_witness :
  exists calls,
    DeblockThreaded.ApplyDeblockFilterThreaded 16 (fun r c => 10 * r + c)
      (DeblockThreaded.mkDtFrame 20 20 3 (fun p => if p =? 2 then 5 else 0)) 1
      (concat (repeat [0; 1]%nat 12)) (concat (repeat [1; 0]%nat 12))
    = Some calls
    /\ exists vertical horizontal,
         calls = vertical ++ horizontal
         /\ Permutation vertical
              (DeblockThreaded.deblock_calls 16 (fun r c => 10 * r + c)
                 DeblockThreaded.kLoopFilterTypeVertical
                 (DeblockThreaded.mkDtFrame 20 20 3
                    (fun p => if p =? 2 then 5 else 0)))
         /\ Permutation horizontal
              (DeblockThreaded.deblock_calls 16 (fun r c => 10 * r + c)
                 DeblockThreaded.kLoopFilterTypeHorizontal
                 (DeblockThreaded.mkDtFrame 20 20 3
                    (fun p => if p =? 2 then 5 else 0))).
Proof.
  destruct (DeblockThreaded.ApplyDeblockFilterThreaded 16 (fun r c => 10 * r + c)
           (DeblockThreaded.mkDtFrame 20 20 3 (fun p => if p =? 2 then 5 else 0))
           1 (concat (repeat [0; 1]%nat 12)) (concat (repeat [1; 0]%nat 12))) as [calls|] eqn:E.
  - exists calls. split; [reflexivity|].
    exact (DeblockThreadedProofs.ApplyDeblockFilterThreaded_each_unit_once 16
           (fun r c => 10 * r + c)
           (DeblockThreaded.mkDtFrame 20 20 3 (fun p => if p =? 2 then 5 else 0))
           1 (concat (repeat [0; 1]%nat 12)) (concat (repeat [1; 0]%nat 12)) calls
           ltac:(lia) E).
  - exfalso. vm_compute in E. discriminate E.
Defined.
